(** * WhatsApp shopping bot: order funnel of [server-whatsapp-payments.js]

    A shallow embedding of the conversational session state machine of the
    bot (the part of [src/checkout.js] that starts at the [--- STATE STORE ---]
    banner): the handler of inbound messages [app.post('/')], the payment
    webhook [app.post('/payments-webhook')], the order finalizer
    [finalizePaidOrder] and the idle timer.

    Conventions of the embedding.
    - A JavaScript number is a binary64 float ([PrimFloat.float]); the
      arithmetic of the source is kept operation by operation.
    - A JavaScript string is a [string] (a sequence of bytes, UTF-8 for the
      literals of the source).  [toLowerCase], [toUpperCase], [trim] and the
      classes [\s], [\w] and [\b] act on ASCII, where the bytes are the
      characters; a statement that depends on what they do beyond ASCII (the
      no-break space is white space for JavaScript) carries the hypothesis
      [Str.is_ascii].
    - The plain objects used as maps ([phoneToOrderIds], [idleTimers]) are
      [gmap string _]; the two [Set]s are [gset string]; the [Map]
      [intentBasedQA] is an association list in insertion order.
      [orderSessions] is read under a key that comes from outside (the
      reference id of a payment): its own properties are a [gmap], and the
      properties it inherits from [Object.prototype] ([toString],
      [__proto__], ...) are found by [orderSessions_get] as the source finds
      them, with what the finalizer writes on them kept in the state.
      The tables [getProductName] and [getProductWeight] are read under the
      retailer id of an ordered item; an id that is the name of an inherited
      property is outside the embedding.
    - The fields of an inbound body are absent or have the JSON type the
      platform gives them (a text body is a string, a quantity an integer).
      A message whose [type] announces an object that is not there makes the
      handler read a property of [undefined]; these are the messages of
      [Unguarded], handled by [post_root_unguarded].  The body of a payment
      event has its [payload] object.
    - The callback of the idle timer is not atomic: it waits for the reminder
      to be sent before it records the phone, and a message can be handled in
      between ([fire], then [reminder_sent]).
    - A session object is shared by reference between the store and the
      handler; the handler below writes the session back under its key at each
      point where control can leave, which is what a reader of the store sees.
    - The remote services are not part of the program.  What they answer in
      one invocation is given by an [Env] record; what the program asks of them
      is recorded in the list of [Effect]s the handler returns. *)

From Stdlib Require Import ZArith List String Ascii Floats Bool Lia DecimalString.
From stdpp Require Import gmap strings list.

Import ListNotations.
Local Open Scope string_scope.
Local Open Scope Z_scope.

Set Warnings "-inexact-float,-clear-no-such-hyp".

(** ** JavaScript numbers *)

Module JS.

Abbreviation number := float.

(** [ToBoolean] on a number: [0], [-0] and [NaN] are falsy. *)
Definition truthy (x : number) : bool :=
  negb (PrimFloat.eqb x 0%float || PrimFloat.is_nan x).

(** [x || d] on numbers. *)
Definition or_else (x d : number) : number := if truthy x then x else d.

(** The number denoted by an integer literal or an integer JSON value. *)
Definition of_Z (z : Z) : number :=
  SF2Prim (binary_normalize prec emax z 0 false).

(** [Math.round]: the nearest integer, ties towards [+Infinity]; [NaN],
    the infinities and the zeros are returned unchanged, and a negative
    argument that rounds to zero gives [-0]. *)
Definition round (x : number) : number :=
  match Prim2SF x with
  | S754_finite s m e =>
      if 0 <=? e then x
      else
        let k := - e in
        let sm := if s then - Z.pos m else Z.pos m in
        let r := (2 * sm + 2 ^ k) / 2 ^ (k + 1) in
        if r =? 0 then (if s then neg_zero else zero) else of_Z r
  | _ => x
  end.

(** [parseInt(q, 10) || 1] for a quantity that arrives as a JSON integer:
    [parseInt] reads back the decimal digits of the integer, so only [0]
    is replaced.  (Integers of 22 digits and more print in exponent notation
    and are outside this embedding.) *)
Definition parseInt_or_1 (q : Z) : Z := if q =? 0 then 1 else q.

End JS.

(** ** JavaScript strings *)

Module Str.

Definition code (c : ascii) : nat := nat_of_ascii c.

Definition is_digit (c : ascii) : bool :=
  Nat.leb 48 (code c) && Nat.leb (code c) 57.

Definition is_upper (c : ascii) : bool :=
  Nat.leb 65 (code c) && Nat.leb (code c) 90.

Definition is_lower (c : ascii) : bool :=
  Nat.leb 97 (code c) && Nat.leb (code c) 122.

Definition is_letter (c : ascii) : bool := is_upper c || is_lower c.

(** [\w] of a regular expression without the [u] flag. *)
Definition is_word (c : ascii) : bool :=
  is_letter c || is_digit c || Nat.eqb (code c) 95.

(** [\s], restricted to ASCII: tab, line feed, vertical tab, form feed,
    carriage return and space. *)
Definition is_space (c : ascii) : bool :=
  (Nat.leb 9 (code c) && Nat.leb (code c) 13) || Nat.eqb (code c) 32.

Definition lower_char (c : ascii) : ascii :=
  if is_upper c then ascii_of_nat (code c + 32) else c.

Fixpoint toLowerCase (s : string) : string :=
  match s with
  | EmptyString => EmptyString
  | String c s' => String (lower_char c) (toLowerCase s')
  end.

Fixpoint trimStart (s : string) : string :=
  match s with
  | EmptyString => EmptyString
  | String c s' => if is_space c then trimStart s' else s
  end.

Definition rev (s : string) : string :=
  string_of_list_ascii (List.rev (list_ascii_of_string s)).

Definition trim (s : string) : string := rev (trimStart (rev (trimStart s))).

(** [s.includes(key)] *)
Fixpoint includes (s key : string) : bool :=
  String.prefix key s
  || match s with
     | EmptyString => false
     | String _ s' => includes s' key
     end.

(** [s.replace(/\D/g, "")] *)
Fixpoint digits_only (s : string) : string :=
  match s with
  | EmptyString => EmptyString
  | String c s' =>
      if is_digit c then String c (digits_only s') else digits_only s'
  end.

(** A string is truthy when it is not empty. *)
Definition nonempty (s : string) : bool :=
  match s with EmptyString => false | _ => true end.

(** [c.toUpperCase()] on ASCII. *)
Definition upper_char (c : ascii) : ascii :=
  if is_lower c then ascii_of_nat (code c - 32) else c.

(** The string holds ASCII characters only.  On such a string
    [toLowerCase], [toUpperCase], [trim] and the classes [\s], [\w] and [\d]
    of the source are the functions of this module. *)
Fixpoint is_ascii (s : string) : bool :=
  match s with
  | EmptyString => true
  | String c s' => Nat.ltb (code c) 128 && is_ascii s'
  end.

End Str.

(** [normalizePhone(phone)]: [(phone || '').replace(/\D/g, "")]. *)
Definition normalizePhone (phone : option string) : string :=
  Str.digits_only (default "" phone).

(** *** The tracking-number pattern [/\b\d{14}\b/] *)

Module Awb.

(** Exactly [n] digits at the head of [l]: the digits and what follows. *)
Fixpoint take_digits (n : nat) (l : list ascii)
  : option (list ascii * list ascii) :=
  match n with
  | O => Some ([], l)
  | S n' =>
      match l with
      | c :: l' =>
          if Str.is_digit c then
            match take_digits n' l' with
            | Some (ds, rest) => Some (c :: ds, rest)
            | None => None
            end
          else None
      | [] => None
      end
  end.

(** A match that starts here: a word boundary, fourteen digits, a word
    boundary.  [prev_word] tells whether the character before is a word
    character. *)
Definition at_here (prev_word : bool) (l : list ascii) : option (list ascii) :=
  if prev_word then None
  else
    match take_digits 14 l with
    | Some (ds, []) => Some ds
    | Some (ds, c :: _) => if Str.is_word c then None else Some ds
    | None => None
    end.

(** The leftmost match. *)
Fixpoint scan (prev_word : bool) (l : list ascii) : option (list ascii) :=
  match at_here prev_word l with
  | Some ds => Some ds
  | None =>
      match l with
      | [] => None
      | c :: l' => scan (Str.is_word c) l'
      end
  end.

(** [msgBody.match(/\b\d{14}\b/)], element [0]. *)
Definition match_ (s : string) : option string :=
  string_of_list_ascii <$> scan false (list_ascii_of_string s).

(** [/\b\d{14}\b/.test(msgBody)] *)
Definition test (s : string) : bool := bool_decide (is_Some (match_ s)).

End Awb.


(** *** The e-mail pattern [/[A-Z0-9._%+-]+@[A-Z0-9.-]+\.[A-Z]{2,}/i] *)

Module Email.

Definition is_char (n : nat) (c : ascii) : bool := Nat.eqb (Str.code c) n.

(** [[A-Z0-9._%+-]], case-insensitive *)
Definition is_local (c : ascii) : bool :=
  Str.is_letter c || Str.is_digit c
  || is_char 46 c || is_char 95 c || is_char 37 c || is_char 43 c || is_char 45 c.

(** [[A-Z0-9.-]], case-insensitive *)
Definition is_domain (c : ascii) : bool :=
  Str.is_letter c || Str.is_digit c || is_char 46 c || is_char 45 c.

Fixpoint take_while (f : ascii -> bool) (l : list ascii) : list ascii :=
  match l with
  | c :: l' => if f c then c :: take_while f l' else []
  | [] => []
  end.

(** What [[A-Z0-9.-]+\.[A-Z]{2,}] matches at the head of [l]: the greedy
    domain part gives back characters until it stands before a dot followed
    by two letters, so the dot is the last such one in the run of domain
    characters; the letters after it are taken as far as they go.  [seen] is
    the part of the run already passed, reversed; [best] the match found for
    an earlier dot. *)
Fixpoint domain_scan (seen : list ascii) (l : list ascii)
  (best : option (list ascii)) : option (list ascii) :=
  match l with
  | [] => best
  | c :: l' =>
      if is_domain c then
        let tld := take_while Str.is_letter l' in
        let best' :=
          if is_char 46 c && negb (Nat.eqb (List.length seen) 0)
             && Nat.leb 2 (List.length tld)
          then Some (List.rev seen ++ c :: tld)%list
          else best in
        domain_scan (c :: seen) l' best'
      else best
  end.

(** The leftmost match of the whole pattern.  The local part cannot contain
    [@], so a match starts at the beginning of the run of local characters
    that ends at an [@]; [run] is that run, reversed. *)
Fixpoint scan (run : list ascii) (l : list ascii) : option (list ascii) :=
  match l with
  | [] => None
  | c :: l' =>
      if is_char 64 c then
        match run, domain_scan [] l' None with
        | _ :: _, Some d => Some (List.rev run ++ c :: d)%list
        | _, _ => scan [] l'
        end
      else if is_local c then scan (c :: run) l'
      else scan [] l'
  end.

(** [msgBody.match(...)], element [0]. *)
Definition match_ (s : string) : option string :=
  string_of_list_ascii <$> scan [] (list_ascii_of_string s).

(** [msgBody.split(/\s+/).length]: one more than the number of runs of
    white space. *)
Fixpoint count_runs (in_run : bool) (l : list ascii) : nat :=
  match l with
  | [] => 0
  | c :: l' =>
      if Str.is_space c
      then (if in_run then 0 else 1)%nat + count_runs true l'
      else count_runs false l'
  end.

Definition words_length (s : string) : nat :=
  S (count_runs false (list_ascii_of_string s)).

(** [msgBody.split(email)[0]]: what stands before the first occurrence of
    [email]. *)
Fixpoint before (s email : string) : string :=
  if String.prefix email s then EmptyString
  else
    match s with
    | EmptyString => EmptyString
    | String c s' => String c (before s' email)
    end.

(** [name.replace(/\b(and|&|,)\b/gi, '')].  [prev_word] tells whether the
    character before is a word character.  A word boundary stands before
    "and" when that character is none, and after it when the next one is none;
    it stands before and after "&" and "," when both neighbours are word
    characters. *)
Definition head_is_word (l : list ascii) : bool :=
  match l with
  | c :: _ => Str.is_word c
  | [] => false
  end.

Definition is_letter_i (n : nat) (c : ascii) : bool :=
  Nat.eqb (Str.code (Str.lower_char c)) n.

Fixpoint strip_connectors (prev_word : bool) (l : list ascii) : list ascii :=
  match l with
  | [] => []
  | c :: l1 =>
      let keep := c :: strip_connectors (Str.is_word c) l1 in
      if is_char 38 c || is_char 44 c then
        if prev_word && head_is_word l1 then strip_connectors false l1 else keep
      else
        match l1 with
        | n :: d :: rest =>
            if is_letter_i 97 c && is_letter_i 110 n && is_letter_i 100 d
               && negb prev_word && negb (head_is_word rest)
            then strip_connectors true rest
            else keep
        | _ => keep
        end
  end.

(** [name.split(/\s+/)]: the pieces between the runs of white space; [cur] is
    the piece being read, reversed. *)
Fixpoint split_ws (cur : list ascii) (in_run : bool) (l : list ascii)
  : list (list ascii) :=
  match l with
  | [] => [List.rev cur]
  | c :: l' =>
      if Str.is_space c then
        if in_run then split_ws cur true l'
        else List.rev cur :: split_ws [] true l'
      else split_ws (c :: cur) false l'
  end.

(** [w.charAt(0).toUpperCase() + w.slice(1)] *)
Definition capitalize (w : list ascii) : list ascii :=
  match w with
  | c :: w' => Str.upper_char c :: w'
  | [] => []
  end.

(** [words.join(' ')] *)
Fixpoint join (words : list (list ascii)) : list ascii :=
  match words with
  | [] => []
  | [w] => w
  | w :: rest => (w ++ " "%char :: join rest)%list
  end.

(** The name kept for a contact: what stands before the address, trimmed,
    without the connectors, trimmed again, each word capitalised. *)
Definition contact_name (msgBody email : string) : string :=
  let name := Str.trim (before msgBody email) in
  let name :=
    Str.trim (string_of_list_ascii
                (strip_connectors false (list_ascii_of_string name))) in
  string_of_list_ascii
    (join (map capitalize (split_ws [] false (list_ascii_of_string name)))).

End Email.


(** ** Data model *)

(** [a || d] for a string that may be missing: the empty string is falsy. *)
Definition str_or (a : option string) (d : string) : string :=
  match a with
  | Some s => if Str.nonempty s then s else d
  | None => d
  end.

(** Truthiness of a string that may be missing. *)
Definition str_truthy (a : option string) : bool :=
  match a with
  | Some s => Str.nonempty s
  | None => false
  end.

Definition nl : string := String (ascii_of_nat 10) EmptyString.

(** An element of [msg.order.product_items].  The messaging platform sends
    [item_price] as a number and [quantity] as an integer. *)
Record OrderItem := {
  product_retailer_id : string;
  item_price : JS.number;
  quantity : Z
}.

(** [msg.order] *)
Record Order := {
  catalog_id : option string;
  product_items : option (list OrderItem)
}.

(** The answers of the delivery-details form, [customerData]: the object
    parsed from [response_json].  When [JSON.parse] fails the source keeps the
    raw string, of which every field read below is [undefined]: that is the
    record with all fields [None]. *)
Module Customer.
Record t := {
  flow_token : option string;
  payment_mode : option string;
  name : option string;
  address1 : option string;
  address2 : option string;
  pincode : option string;
  pin : option string;
  city : option string;
  state : option string;
  phone : option string;
  email : option string
}.
End Customer.

(** An inbound message, [msg], by its [type], with the fields the handler
    reads.  [text None] is a message of type "text" without [text.body],
    [order None] one of type "order" without [order], [button None] one of
    type "button" without a [button] object, which the handler guards
    against.  The messages that lack a field the handler reads without a guard
    are the [Unguarded] ones further down. *)
Inductive Interactive :=
| button_reply (title : string)
| list_reply (title : string)
| nfm_reply (customerData : Customer.t)
| other_interactive.

Inductive Content :=
| text (body : option string)
| interactive (i : Interactive)
| order (o : option Order)
| button (text : option string)
| other_type.

Record Msg := {
  from : option string;
  content : Content
}.

Inductive PaymentMode := COD | Prepaid.

Inductive PaymentStatus := paid | failed.

(** A session object.  The same shape serves the phone-level record of a
    catalog selection (stored under the phone) and the order-level record
    (stored under the orderId); a field that was never assigned is [None]. *)
Module Session.
Record t := {
  orderId : option string;
  phone : option string;
  customer : option Customer.t;
  step : option Z;
  catalogId : option string;
  productItems : option (list OrderItem);
  amount : option JS.number;
  cod_error : option bool;
  payment_mode : option PaymentMode;
  shipping_charge : option JS.number;
  payment_status : option PaymentStatus
}.

(** [{}] *)
Definition empty : t :=
  {| orderId := None; phone := None; customer := None; step := None;
     catalogId := None; productItems := None; amount := None;
     cod_error := None; payment_mode := None; shipping_charge := None;
     payment_status := None |}.

Definition set_catalog (cid : option string) (items : list OrderItem)
  (a : JS.number) (s : t) : t :=
  {| orderId := orderId s; phone := phone s; customer := customer s;
     step := step s; catalogId := cid; productItems := Some items;
     amount := Some a; cod_error := cod_error s;
     payment_mode := payment_mode s; shipping_charge := shipping_charge s;
     payment_status := payment_status s |}.

Definition set_amount (a : JS.number) (s : t) : t :=
  {| orderId := orderId s; phone := phone s; customer := customer s;
     step := step s; catalogId := catalogId s; productItems := productItems s;
     amount := Some a; cod_error := cod_error s;
     payment_mode := payment_mode s; shipping_charge := shipping_charge s;
     payment_status := payment_status s |}.

Definition set_cod_error (b : bool) (s : t) : t :=
  {| orderId := orderId s; phone := phone s; customer := customer s;
     step := step s; catalogId := catalogId s; productItems := productItems s;
     amount := amount s; cod_error := Some b;
     payment_mode := payment_mode s; shipping_charge := shipping_charge s;
     payment_status := payment_status s |}.

Definition set_payment_mode (m : PaymentMode) (s : t) : t :=
  {| orderId := orderId s; phone := phone s; customer := customer s;
     step := step s; catalogId := catalogId s; productItems := productItems s;
     amount := amount s; cod_error := cod_error s;
     payment_mode := Some m; shipping_charge := shipping_charge s;
     payment_status := payment_status s |}.

Definition set_shipping_charge (c : JS.number) (s : t) : t :=
  {| orderId := orderId s; phone := phone s; customer := customer s;
     step := step s; catalogId := catalogId s; productItems := productItems s;
     amount := amount s; cod_error := cod_error s;
     payment_mode := payment_mode s; shipping_charge := Some c;
     payment_status := payment_status s |}.

Definition set_payment_status (p : PaymentStatus) (s : t) : t :=
  {| orderId := orderId s; phone := phone s; customer := customer s;
     step := step s; catalogId := catalogId s; productItems := productItems s;
     amount := amount s; cod_error := cod_error s;
     payment_mode := payment_mode s; shipping_charge := shipping_charge s;
     payment_status := Some p |}.

(** [session.amount || 0] *)
Definition amount_or_0 (s : t) : JS.number :=
  JS.or_else (default nan (amount s)) 0%float.

(** [session.productItems || []] *)
Definition items (s : t) : list OrderItem := default [] (productItems s).

End Session.

(** An entry of the intent table. *)
Record Intent := {
  answer : string;
  intents : option (list string)
}.

(** A pending timer of the runtime: the handle [setTimeout] returned, the
    phone its callback closes over, and the time at which it is due. *)
Record Timer := {
  handle : nat;
  timer_phone : string;
  due : Z
}.

(** The process-wide state: the five containers declared under
    [--- STATE STORE ---] ([resolvedUsers] is never read or written), the
    intent table, and what the runtime holds: the timers, the callbacks of
    expired timers that wait for their reminder to be sent, and the objects
    every plain object inherits from.

    [orderSessions] holds the own properties of the object.  [inherited]
    holds what the handlers have written on the objects that a lookup in
    [orderSessions] finds when the key is no own property: under the name of
    a method of [Object.prototype] the properties written on that function,
    under ["__proto__"] the properties written on [Object.prototype] itself
    (see [orderSessions_get]).  [reminding] lists the phones of the timer
    callbacks that have started to send the reminder and have not yet come
    back from the [await]. *)
Record State := {
  orderSessions : gmap string Session.t;
  phoneToOrderIds : gmap string (list string);
  idleTimers : gmap string nat;
  remindedUsers : gset string;
  completedUsers : gset string;
  intentBasedQA : list (string * Intent);
  pending : list Timer;
  next_handle : nat;
  reminding : list string;
  inherited : gmap string Session.t
}.

Definition set_orderSessions (m : gmap string Session.t) (σ : State) : State :=
  {| orderSessions := m; phoneToOrderIds := phoneToOrderIds σ;
     idleTimers := idleTimers σ; remindedUsers := remindedUsers σ;
     completedUsers := completedUsers σ; intentBasedQA := intentBasedQA σ;
     pending := pending σ; next_handle := next_handle σ;
     reminding := reminding σ; inherited := inherited σ |}.

Definition set_phoneToOrderIds (m : gmap string (list string)) (σ : State)
  : State :=
  {| orderSessions := orderSessions σ; phoneToOrderIds := m;
     idleTimers := idleTimers σ; remindedUsers := remindedUsers σ;
     completedUsers := completedUsers σ; intentBasedQA := intentBasedQA σ;
     pending := pending σ; next_handle := next_handle σ;
     reminding := reminding σ; inherited := inherited σ |}.

Definition set_timers (m : gmap string nat) (p : list Timer) (n : nat)
  (σ : State) : State :=
  {| orderSessions := orderSessions σ; phoneToOrderIds := phoneToOrderIds σ;
     idleTimers := m; remindedUsers := remindedUsers σ;
     completedUsers := completedUsers σ; intentBasedQA := intentBasedQA σ;
     pending := p; next_handle := n;
     reminding := reminding σ; inherited := inherited σ |}.

(** The phones of the suspended timer callbacks are replaced. *)
Definition set_reminding (l : list string) (σ : State) : State :=
  {| orderSessions := orderSessions σ; phoneToOrderIds := phoneToOrderIds σ;
     idleTimers := idleTimers σ; remindedUsers := remindedUsers σ;
     completedUsers := completedUsers σ; intentBasedQA := intentBasedQA σ;
     pending := pending σ; next_handle := next_handle σ;
     reminding := l; inherited := inherited σ |}.

Definition set_inherited (m : gmap string Session.t) (σ : State) : State :=
  {| orderSessions := orderSessions σ; phoneToOrderIds := phoneToOrderIds σ;
     idleTimers := idleTimers σ; remindedUsers := remindedUsers σ;
     completedUsers := completedUsers σ; intentBasedQA := intentBasedQA σ;
     pending := pending σ; next_handle := next_handle σ;
     reminding := reminding σ; inherited := m |}.

Definition set_users (r c : gset string) (σ : State) : State :=
  {| orderSessions := orderSessions σ; phoneToOrderIds := phoneToOrderIds σ;
     idleTimers := idleTimers σ; remindedUsers := r;
     completedUsers := c; intentBasedQA := intentBasedQA σ;
     pending := pending σ; next_handle := next_handle σ;
     reminding := reminding σ; inherited := inherited σ |}.

(** [orderSessions[key] = s] *)
Definition put_session (key : string) (s : Session.t) (σ : State) : State :=
  set_orderSessions (<[key := s]> (orderSessions σ)) σ.

(** The state of a process that has just started, before the intent table
    is filled. *)
Definition initial : State :=
  {| orderSessions := ∅; phoneToOrderIds := ∅; idleTimers := ∅;
     remindedUsers := ∅; completedUsers := ∅; intentBasedQA := [];
     pending := []; next_handle := 0%nat;
     reminding := []; inherited := ∅ |}.

(** ** Product metadata *)

Definition getProductName : list (string * string) :=
  [ ("43mypu8dye", "Himalayan badri cow ghee 120gm");
    ("l722c63kq9", "Himalayan badri cow ghee 295gm");
    ("kkii6r9uvh", "Himalayan badri cow ghee 495gm");
    ("m519x5gv9s", "Himalayan White Rajma 500gm");
    ("294l11gpcm", "Himalayan White Rajma 1kg");
    ("ezg1lu6edm", "Himalayan Red Rajma 500gm");
    ("tzz72lpzz2", "Himalayan Red Rajma 1kg");
    ("esltl7pftq", "Wild Himalayan Tempering Spice");
    ("obdqyehm1w", "Himalayan Red Rice") ].

Definition getProductWeight : list (string * Z) :=
  [ ("43mypu8dye", 120);
    ("l722c63kq9", 295);
    ("kkii6r9uvh", 495);
    ("m519x5gv9s", 500);
    ("294l11gpcm", 1000);
    ("ezg1lu6edm", 500);
    ("tzz72lpzz2", 1000);
    ("esltl7pftq", 100);
    ("obdqyehm1w", 1000) ].

(** [table[key]] on an object literal *)
Fixpoint prop {A} (table : list (string * A)) (key : string) : option A :=
  match table with
  | [] => None
  | (k, v) :: rest => if String.eqb k key then Some v else prop rest key
  end.

(** ** The intent table *)

Definition parseIntentBasedQA : list (string * Intent) :=
  [ ("buy now",
     {| answer := "Amazing choice! Here are our most loved products:" ++ nl ++ "1. Himalayan White Rajma – ₹347 / ₹691" ++ nl ++ "2. Himalayan Red Rajma – ₹347 / ₹691" ++ nl ++ "3. Badri Cow Ghee – from ₹450 Onwards." ++ nl ++ "4. Himalayan Black Soyabean – ₹347 / ₹691" ++ nl ++ "5. Himalayan Red Rice & Herbs – from ₹347";
        intents := Some ["View Products"; "Customer Reviews"] |});
    ("why people love us",
     {| answer := "We're glad you're curious!💚" ++ nl ++ "Here’s why our community loves Orang Utan Organics 👇" ++ nl ++ "Pick what you’d like to explore:";
        intents := Some ["Nutrition info"; "Farmer Impact"; "Main Menu"] |});
    ("back 2 y ppl <3 us",
     {| answer := "We're glad you're curious!!💚" ++ nl ++ "Here’s why our community loves Orang Utan Organics 👇" ++ nl ++ "Pick what you’d like to explore:";
        intents := Some ["Nutrition info"; "Farmer Impact"; "Main Menu"] |});
    ("recipes",
     {| answer := "Explore farm-fresh, nutritious recipes from our chef community:" ++ nl ++ "🥄 Red Rajma Curry with Tempering Spice" ++ nl ++ "🥄 Soyabean Stir-Fry" ++ nl ++ "🥄 Ghee-roasted Red Rice" ++ nl ++ "Get one sent to you now? View Recipe: https://orangutanorganics.net/recipes";
        intents := Some ["View Products"; "back 2 nutri info"] |});
    ("farmer impact",
     {| answer := "We directly reinvest in:" ++ nl ++ "• Soil conservation 🌍" ++ nl ++ "• Enhancing livelihoods via our farmers consortium 📘" ++ nl ++ "• Organic certifications for villages 🧾" ++ nl ++ "See our Farmer’s Impact : https://orangutanorganics.net/farmerimpact";
        intents := Some ["View Products"; "back 2 y ppl <3 us"] |});
    ("where we’re from",
     {| answer := "We’re rooted in Village Bhangeli, 2300m above sea level, in the Gangotri Valley 🏞" ++ nl ++ "🌱 Certified Organic Base" ++ nl ++ "📍 46 km from Uttarkashi, Uttarakhand" ++ nl ++ "💚 Home to just 40 small landholder families we support" ++ nl ++ "Would you like to see what life looks like up here? View Gallery: https://www.instagram.com/orangutan.organics/";
        intents := Some ["View Products"; "Back2 Sourcing Story"] |});
    ("why it matters",
     {| answer := "We protect:" ++ nl ++ "• Native seeds & biodiversity" ++ nl ++ "• Water sources & soil health" ++ nl ++ "• Farmer dignity & livelihoods" ++ nl ++ "Buying from us = standing up for the planet & Himalayan farmers. Learn about our latest impact project? See Report: https://orangutanorganics.net/whyitmatters";
        intents := Some ["View Products"; "Back2 Sourcing Story"] |});
    ("trace your products",
     {| answer := "Every product is traceable🔁 From seed-to-shelf, you’ll know:" ++ nl ++ "• The exact farm" ++ nl ++ "• The harvest date" ++ nl ++ "• The batch testing results" ++ nl ++ "Want to trace your future order?" ++ nl ++ "See how it works: https://orangutanorganics.net/traceability";
        intents := Some ["How It Works"; "View Products"; "Back2 Sourcing Story"] |});
    ("how it works",
     {| answer := "We are tracing our products from our Himalayan farm to your plate with just a QR code, launching soon. We’ll notify you when it’s live!";
        intents := Some ["View Products"; "Back2 Sourcing Story"] |});
    ("shop & explore",
     {| answer := "Amazing choice! Here are our most loved products:" ++ nl ++ "1. Himalayan White Rajma – ₹347 / ₹691" ++ nl ++ "2. Himalayan Red Rajma – ₹347 / ₹691" ++ nl ++ "3. Badri Cow Ghee – from ₹450 Onwards." ++ nl ++ "4. Himalayan Black Soyabean – ₹347 / ₹691" ++ nl ++ "5. Himalayan Red Rice & Herbs – from ₹347";
        intents := Some ["Buy Products"; "Customer Reviews"; "Main Menu"] |});
    ("back2 shop & explore",
     {| answer := "Amazing choice! Here are our most loved products:" ++ nl ++ "1. Himalayan White Rajma – ₹347 / ₹691" ++ nl ++ "2. Himalayan Red Rajma – ₹347 / ₹691" ++ nl ++ "3. Badri Cow Ghee – from ₹450 Onwards." ++ nl ++ "4. Himalayan Black Soyabean – ₹347 / ₹691" ++ nl ++ "5. Himalayan Red Rice & Herbs – from ₹347";
        intents := Some ["Buy Products"; "Customer Reviews"; "Main Menu"] |});
    ("buy products",
     {| answer := "Amazing choice! Here are our most loved products:" ++ nl ++ "1. Himalayan White Rajma – ₹347 / ₹691" ++ nl ++ "2. Himalayan Red Rajma – ₹347 / ₹691" ++ nl ++ "3. Badri Cow Ghee – from ₹450 Onwards." ++ nl ++ "4. Himalayan Black Soyabean – ₹347 / ₹691" ++ nl ++ "5. Himalayan Red Rice & Herbs – from ₹347";
        intents := Some ["View Products"; "Back2 Shop & Explore"] |});
    ("customer reviews",
     {| answer := "Don’t just take our word for it 💬" ++ nl ++ "Here’s what conscious buyers like you are saying 👇" ++ nl ++ "Website and amazon review: https://orangutanorganics.net/reviews " ++ nl ++ "Instagram love: https://www.instagram.com/p/DOIOa4rkv5C/";
        intents := Some ["View Products"; "Back2 Shop & Explore"] |});
    ("track your order",
     {| answer := "Please type your 14 digit AWB in chat";
        intents := None |});
    ("our story",
     {| answer := "We’re not just a brand — we’re Forest People. Here’s what sets us apart.";
        intents := Some ["Where We’re From"; "Why It Matters"; "Trace Your Products"] |});
    ("buy later",
     {| answer := "Still thinking? No rush… but our small-batch treasures don’t hang around for long ✨, ust share your name & email so we can send you exclusive Himalayan food tips, recipes & offers 🌱✨";
        intents := None |}) ].

(** [intentBasedQA.get(key)] *)
Definition intent_get (table : list (string * Intent)) (key : string)
  : option Intent := prop table key.

(** The first entry, in insertion order, whose key is contained in the
    message or contains it. *)
Fixpoint partial_match (table : list (string * Intent)) (m : string)
  : option Intent :=
  match table with
  | [] => None
  | (key, value) :: rest =>
      if Str.includes m key || Str.includes key m then Some value
      else partial_match rest m
  end.

Definition findIntentBasedResponse (table : list (string * Intent))
  (userMessage : string) : option Intent :=
  let normalizedMessage := Str.trim (Str.toLowerCase userMessage) in
  match intent_get table normalizedMessage with
  | Some v => Some v
  | None =>
      match partial_match table normalizedMessage with
      | Some v => Some v
      | None =>
          if Str.includes normalizedMessage "trace"
             || Str.includes normalizedMessage "track"
             || Str.includes normalizedMessage "origin"
             || Str.includes normalizedMessage "source"
          then intent_get table "trace your products"
          else None
      end
  end.

(** ** The environment of one invocation *)

(** What an awaited call to a remote service does. *)
Inductive Outcome (A : Type) :=
| Returns (a : A)
| Throws.
Arguments Returns {A} a.
Arguments Throws {A}.

(** [res.data] of the rate quote: a falsy body, an array whose elements
    carry [total_amount] (a number, [None] when the element or the field is
    missing), or any other truthy value, of which only a [total_amount]
    property is ever read. *)
Inductive ChargesResp :=
| charges_falsy
| charges_array (total_amounts : list (option JS.number))
| charges_object (total_amount : option JS.number).

(** [res.data] of the shipment creation: [null], or an object with its
    [success] property as a boolean. *)
Inductive ShipResp :=
| ship_null
| ship_object (success : bool).

Record Env := {
  now : Z;
  random : list nat;
  PAYMENT_CONFIGURATION_NAME : option string;
  charges : Outcome ChargesResp;
  created : Outcome ShipResp;
  order_details_posted : bool;
  customer_sheet_appended : bool;
  gemini_answer : string
}.

(** Modelled from the spec: the package [short-unique-id] that builds the
    order id is not part of the repository.  The spec gives the format
    [OUO-<5-digit-number>], and the source asks for
    [{ length: 5, dictionary: 'number' }]: [randomUUID] returns five
    characters, each drawn at random among the ten digits.  The draws are
    read from the environment; a missing draw counts as [0]. *)
Definition digit_char (d : nat) : ascii := ascii_of_nat (48 + d mod 10).

Fixpoint random_digits (n : nat) (draws : list nat) : list ascii :=
  match n with
  | O => []
  | S n' => digit_char (hd O draws) :: random_digits n' (tl draws)
  end.

Definition randomUUID (draws : list nat) : string :=
  string_of_list_ascii (random_digits 5 draws).

(** [`OUO-${uid.randomUUID()}`] *)
Definition new_orderId (draws : list nat) : string :=
  "OUO-" ++ randomUUID draws.

(** ** What the program asks of the outside *)

(** The texts sent with [sendWhatsAppText].  The fixed texts are named;
    [reply] carries [replyText], [cod_placed] the amount in paise that the
    source prints as [(session.amount/100).toFixed(2)]. *)
Inductive Text :=
| received_details (orderId : string)
| cod_placed (amount : JS.number)
| invalid_data
| tap_review_and_pay (orderId : option string)
| payment_not_initiated
| provide_delivery_details
| saved_details (name : string)
| reply (replyText : string)
| reminder
| payment_successful
| shipment_created
| shipment_failed
| payment_failed.

(** The object handed to [createDelhiveryShipment].  The fields that are
    empty strings or constants in both builders are left out; [cod_amount]
    and [total_amount] hold the number of which the source sends the decimal
    string ([String(Math.round(session.amount / 100))], or ["0"]). *)
Module Shipment.
Record t := {
  name : string;
  add : string;
  pin : string;
  city : string;
  state : string;
  phone : string;
  order : string;
  payment_mode : PaymentMode;
  products_desc : string;
  cod_amount : JS.number;
  total_amount : JS.number;
  weight : option JS.number
}.
End Shipment.

(** A row handed to [appendToSheet], without its time stamp and without the
    serialized provider response.  The three amounts hold the numbers that the
    source prints with [toFixed(2)]; [None] is the empty cell. *)
Module SheetRow.
Record t := {
  name : string;
  phone : string;
  email : string;
  address : string;
  pincode : string;
  items : list OrderItem;
  mode : PaymentMode;
  status : string;
  amount : JS.number;
  shipping : option JS.number;
  cod : option JS.number;
  orderId : option string
}.
End SheetRow.

(** An item of the [order_details] message. *)
Record PayItem := {
  retailer_id : string;
  pay_name : string;
  value : JS.number;
  pay_quantity : Z
}.

(** The parameters of the [review_and_pay] action. *)
Record OrderDetails := {
  reference_id : option string;
  total_amount : JS.number;
  pay_items : list PayItem;
  subtotal : JS.number;
  tax : JS.number;
  shipping : JS.number
}.

Inductive Effect :=
| sendWhatsAppText (to : string) (t : Text)
| sendWhatsAppList (to : string)
| sendWhatsAppList_ss (to : string)
| sendWhatsAppList_ni (to : string)
| sendWhatsAppCatalog (to : string)
| sendWhatsAppTemplate (to : string)
| sendWhatsAppFlow (to : string)
| sendWhatsAppTrackingCTA (to : string) (awb : string)
| sendWhatsAppInteractiveMessage (to : string) (body : string)
    (buttons : list (string * string))
| sendWhatsAppOrderDetails (to : string) (payload : OrderDetails)
| getDelhiveryCharges (dest_pin : string) (cgm : JS.number) (pt : string)
| createDelhiveryShipment (shipment : Shipment.t)
| appendToSheet (row : SheetRow.t)
| appendCustomerToSheet (name email phone : string)
| askGemini (msgBody : string).

(** How an invocation of a handler ends: with [res.sendStatus(200)], or
    with an exception that leaves the handler before any response is sent. *)
Inductive Response :=
| status_200
| no_response.

Record Result := {
  state : State;
  effects : list Effect;
  response : Response
}.

(** ** Pieces shared by the handlers *)

Definition acked (σ : State) (es : list Effect) : Result :=
  {| state := σ; effects := es; response := status_200 |}.

Definition escaped (σ : State) (es : list Effect) : Result :=
  {| state := σ; effects := es; response := no_response |}.

Definition fadd (a b : JS.number) : JS.number := PrimFloat.add a b.
Definition fmul (a b : JS.number) : JS.number := PrimFloat.mul a b.
Definition fdiv (a b : JS.number) : JS.number := PrimFloat.div a b.

(** The decimal string of an integer, as string concatenation prints it. *)
Definition Z_to_string (z : Z) : string :=
  DecimalString.NilZero.string_of_int (Z.to_int z).

(** [`${customerData.address1 || ''} ${customerData.address2 || ''}`.trim()] *)
Definition address_line (c : Customer.t) : string :=
  Str.trim (str_or (Customer.address1 c) "" ++ " " ++ str_or (Customer.address2 c) "").

(** [customerData.pincode || customerData.pin || ''] *)
Definition dest_pin_of (c : Customer.t) : string :=
  str_or (Customer.pincode c) (str_or (Customer.pin c) "").

(** The weight loop of the cash-on-delivery branch:
    [total_wgt += getProductWeight[id] * quantity], where a product that is
    not in the table gives [undefined * quantity], that is [NaN]. *)
Definition total_wgt_cod (product_data : list OrderItem) : JS.number :=
  fold_left
    (fun total_wgt it =>
       fadd total_wgt
         (fmul (default nan (JS.of_Z <$> prop getProductWeight (product_retailer_id it)))
               (JS.of_Z (quantity it))))
    product_data 0%float.

(** The weight loop of [sendWhatsAppOrderDetails] and [finalizePaidOrder]:
    [total_wgt += (getProductWeight[id] || 0) * q] with
    [q = parseInt(quantity, 10) || 1]. *)
Definition total_wgt_prepaid (product_data : list OrderItem) : JS.number :=
  fold_left
    (fun total_wgt it =>
       fadd total_wgt
         (fmul (JS.of_Z (default 0 (prop getProductWeight (product_retailer_id it))))
               (JS.of_Z (JS.parseInt_or_1 (quantity it)))))
    product_data 0%float.

(** [final_product_name] of the cash-on-delivery branch. *)
Definition product_name_cod (product_data : list OrderItem) : string :=
  fold_left
    (fun acc it =>
       acc ++ default "undefined" (prop getProductName (product_retailer_id it))
           ++ "(" ++ Z_to_string (quantity it) ++ ")" ++ nl)
    product_data ""
  ++ "+ COD charge 150 + shipping charge".

(** [final_product_name] of [finalizePaidOrder]. *)
Definition product_name_prepaid (product_data : list OrderItem) : string :=
  fold_left
    (fun acc it =>
       acc ++ default "Item" (prop getProductName (product_retailer_id it))
           ++ "(" ++ Z_to_string (JS.parseInt_or_1 (quantity it)) ++ ")" ++ nl)
    product_data ""
  ++ "+ shipping charge".

(** [codChargePaise = 150 * 100] *)
Definition codChargePaise : JS.number := fmul 150%float 100%float.

(** The reading of the rate quote in the cash-on-delivery branch: the
    shipping charge in paise and the value [session.cod_error] is left with.
    The flag is set to [true] before the call.  A call that throws, and a
    [TypeError] on [chargesResp[0].total_amount] (empty array, missing element,
    a body that is not an array), end in the [catch], which sets the flag to
    [false]; so does a first [total_amount] that is missing or falsy.  A falsy
    body skips the whole [if (chargesResp)] and leaves the flag [true]. *)
Definition read_quote_cod (o : Outcome ChargesResp) : JS.number * bool :=
  match o with
  | Throws => (0%float, false)
  | Returns charges_falsy => (0%float, true)
  | Returns (charges_array (Some match_ :: _)) =>
      if JS.truthy match_ then (JS.round (fmul match_ 100%float), true)
      else (0%float, false)
  | Returns (charges_array _) => (0%float, false)
  | Returns (charges_object _) => (0%float, false)
  end.

(** The reading of the rate quote in [sendWhatsAppOrderDetails] and in
    [finalizePaidOrder]: the shipping charge in paise. *)
Definition read_quote_prepaid (o : Outcome ChargesResp) : JS.number :=
  match o with
  | Returns (charges_array (Some t :: _)) =>
      if JS.truthy t then JS.round (fmul t 100%float) else 0%float
  | Returns (charges_object (Some t)) =>
      if JS.truthy t then JS.round (fmul t 100%float) else 0%float
  | _ => 0%float
  end.

(** The payment mode test of the flow handler, on
    [(customerData.payment_mode || '').toLowerCase()]. *)
Definition is_cod (payment_mode : option string) : bool :=
  let paymentMode := Str.toLowerCase (str_or payment_mode "") in
  String.eqb paymentMode "cod"
  || String.eqb paymentMode "cash on delivery"
  || String.eqb paymentMode "cash-on-delivery".

(** ** The idle timer *)

(** [30 * 60 * 1000] milliseconds *)
Definition idle_delay : Z := 30 * 60 * 1000.

(** [clearTimeout(h)]: the timer with this handle, if it is still pending,
    is dropped. *)
Definition clearTimeout (h : nat) (p : list Timer) : list Timer :=
  List.filter (fun t => negb (Nat.eqb (handle t) h)) p.

(** The block under [---- Idle timer handling ----]. [setTimeout] returns a
    handle that was never returned before. *)
Definition rearm (t : Z) (from : string) (σ : State) : State :=
  if bool_decide (from ∈ completedUsers σ) then σ
  else
    let p := match idleTimers σ !! from with
             | Some h => clearTimeout h (pending σ)
             | None => pending σ
             end in
    let h := next_handle σ in
    set_timers (<[from := h]> (idleTimers σ))
      (p ++ [ {| handle := h; timer_phone := from; due := t + idle_delay |} ])
      (S h) σ.

(** The callback of the timer with handle [h] runs at time [t]: nothing
    happens unless that timer is pending and due.  The callback tests
    [completedUsers] and starts to send the reminder; it is then suspended at
    [await sendWhatsAppText(...)], and the phone is listed in [reminding]
    until it comes back. *)
Definition fire (t : Z) (h : nat) (σ : State) : State * list Effect :=
  match List.find (fun x => Nat.eqb (handle x) h) (pending σ) with
  | Some x =>
      if due x <=? t then
        let σ' := set_timers (idleTimers σ) (clearTimeout h (pending σ))
                    (next_handle σ) σ in
        if bool_decide (timer_phone x ∈ completedUsers σ) then (σ', [])
        else
          (set_reminding (reminding σ' ++ [timer_phone x]) σ',
           [ sendWhatsAppText (timer_phone x) reminder ])
      else (σ, [])
  | None => (σ, [])
  end.

(** [l] without the first occurrence of [phone]. *)
Fixpoint remove_first (phone : string) (l : list string) : list string :=
  match l with
  | [] => []
  | x :: l' => if String.eqb x phone then l' else x :: remove_first phone l'
  end.

(** A suspended callback for [phone] comes back from the [await]:
    [remindedUsers.add(from)].  [sendWhatsAppText] catches its errors, so the
    callback always goes on.  Handlers may have run in between. *)
Definition reminder_sent (phone : string) (σ : State) : State :=
  if existsb (String.eqb phone) (reminding σ) then
    set_users ({[ phone ]} ∪ remindedUsers σ) (completedUsers σ)
      (set_reminding (remove_first phone (reminding σ)) σ)
  else σ.

(** ** The delivery-details form: [if (msg?.interactive?.nfm_reply)] *)

(** The [shipment] object of the cash-on-delivery branch. *)
Definition cod_shipment (from : string) (customerData : Customer.t)
  (session : Session.t) (final_product_name : string) (total_wgt : JS.number)
  (t : Z) : Shipment.t :=
  {| Shipment.name := str_or (Customer.name customerData) "Customer";
     Shipment.add := address_line customerData;
     Shipment.pin := dest_pin_of customerData;
     Shipment.city := "";
     Shipment.state := "";
     Shipment.phone := str_or (Customer.phone customerData) from;
     Shipment.order :=
       "Order_" ++ str_or (Session.orderId session) (Z_to_string t);
     Shipment.payment_mode := COD;
     Shipment.products_desc := final_product_name;
     Shipment.cod_amount :=
       JS.round (fdiv (default nan (Session.amount session)) 100%float);
     Shipment.total_amount :=
       JS.round (fdiv (default nan (Session.amount session)) 100%float);
     Shipment.weight := Some total_wgt |}.

(** The row of a cash-on-delivery order. *)
Definition cod_row (from : string) (customerData : Customer.t)
  (session : Session.t) : SheetRow.t :=
  {| SheetRow.name := str_or (Customer.name customerData) "";
     SheetRow.phone := str_or (Customer.phone customerData) from;
     SheetRow.email := str_or (Customer.email customerData) "";
     SheetRow.address := address_line customerData;
     SheetRow.pincode := str_or (Customer.pincode customerData) "";
     SheetRow.items := Session.items session;
     SheetRow.mode := COD;
     SheetRow.status := "Pending";
     SheetRow.amount := fdiv (default nan (Session.amount session)) 100%float;
     SheetRow.shipping :=
       Some (fdiv (default nan (Session.shipping_charge session)) 100%float);
     SheetRow.cod := Some (fdiv codChargePaise 100%float);
     SheetRow.orderId := None |}.

(** The session as the cash-on-delivery branch leaves it, given the reading
    [q] of the rate quote: [cod_error], then
    [session.amount = (session.amount || 0) + codChargePaise + shippingChargePaise],
    [payment_mode] and [shipping_charge]. *)
Definition cod_session (q : JS.number * bool) (session : Session.t)
  : Session.t :=
  let '(shippingChargePaise, cod_error) := q in
  Session.set_shipping_charge shippingChargePaise
    (Session.set_payment_mode COD
       (Session.set_amount
          (fadd (fadd (Session.amount_or_0 session) codChargePaise)
                shippingChargePaise)
          (Session.set_cod_error cod_error session))).

(** The cash-on-delivery branch, from [session.cod_error = true] to its
    [return res.sendStatus(200)].  [σ] already holds [session] under
    [orderId]; [es] are the effects so far.  The call to
    [createDelhiveryShipment] stands outside any [try]: when it throws, and
    when it returns [null] so that reading [.success] throws, the exception
    leaves the handler. *)
Definition cod_branch (σ : State) (e : Env) (from orderId : string)
  (customerData : Customer.t) (session : Session.t) (es : list Effect)
  : Result :=
  let product_data := Session.items session in
  let total_wgt := total_wgt_cod product_data in
  let final_product_name := product_name_cod product_data in
  let quote := getDelhiveryCharges (dest_pin_of customerData) total_wgt "COD" in
  let q := read_quote_cod (charges e) in
  let session := cod_session q session in
  let σ := put_session orderId session σ in
  let shipment :=
    cod_shipment from customerData session final_product_name total_wgt (now e) in
  let es := (es ++ [quote; createDelhiveryShipment shipment])%list in
  match created e with
  | Throws => escaped σ es
  | Returns ship_null => escaped σ es
  | Returns (ship_object success) =>
      if success && snd q then
        acked σ
          (es ++ [ appendToSheet (cod_row from customerData session);
                   sendWhatsAppText from
                     (cod_placed (default nan (Session.amount session))) ])%list
      else acked σ (es ++ [ sendWhatsAppText from invalid_data ])%list
  end.

(** [sendWhatsAppOrderDetails(to, session)]: the session it leaves, the
    effects, and whether it returned ([true]) or threw ([false]). *)
Definition order_details (e : Env) (to : string) (session : Session.t)
  : Session.t * list Effect * bool :=
  if negb (str_truthy (PAYMENT_CONFIGURATION_NAME e)) then (session, [], false)
  else
    let product_data := Session.items session in
    let items :=
      map (fun it =>
             let unitPricePaise :=
               JS.or_else
                 (JS.round (fmul (JS.or_else (JS.or_else (item_price it) 0%float) 0%float)
                                 100%float))
                 0%float in
             let amountValue :=
               JS.or_else unitPricePaise
                 (JS.round
                    (fdiv (Session.amount_or_0 session)
                          (JS.of_Z (Z.max 1 (Z.of_nat (List.length product_data)))))) in
             {| retailer_id := product_retailer_id it;
                pay_name :=
                  default "Item" (prop getProductName (product_retailer_id it));
                value := amountValue;
                pay_quantity := JS.parseInt_or_1 (quantity it) |})
          product_data in
    let prod_cost :=
      JS.or_else (default nan (Session.amount session))
        (fold_left
           (fun s it =>
              fadd s (fmul (JS.or_else (value it) 0%float)
                           (JS.of_Z (JS.parseInt_or_1 (pay_quantity it)))))
           items 0%float) in
    let total_wgt := total_wgt_prepaid product_data in
    let dest_pin :=
      match Session.customer session with
      | Some c => dest_pin_of c
      | None => ""
      end in
    let shippingChargePaise := read_quote_prepaid (charges e) in
    let session := Session.set_shipping_charge shippingChargePaise session in
    let totalAmountValue := fadd prod_cost shippingChargePaise in
    let payload :=
      {| reference_id := Session.orderId session;
         total_amount := totalAmountValue;
         pay_items := items;
         subtotal := prod_cost;
         tax := 0%float;
         shipping :=
           JS.round (JS.or_else (default nan (Session.shipping_charge session)) 0%float) |} in
    (session,
     [ getDelhiveryCharges dest_pin total_wgt "Pre-paid";
       sendWhatsAppOrderDetails to payload ],
     order_details_posted e).

(** The row written while the payment is awaited. *)
Definition awaiting_row (from : string) (customerData : Customer.t)
  (session : Session.t) : SheetRow.t :=
  {| SheetRow.name := str_or (Customer.name customerData) "";
     SheetRow.phone := str_or (Customer.phone customerData) from;
     SheetRow.email := str_or (Customer.email customerData) "";
     SheetRow.address := address_line customerData;
     SheetRow.pincode := str_or (Customer.pincode customerData) "";
     SheetRow.items := Session.items session;
     SheetRow.mode := Prepaid;
     SheetRow.status := "Awaiting Payment";
     SheetRow.amount := fdiv (default nan (Session.amount session)) 100%float;
     SheetRow.shipping := None;
     SheetRow.cod := None;
     SheetRow.orderId := Session.orderId session |}.

(** The prepaid branch: everything stands inside a [try]. *)
Definition prepaid_branch (σ : State) (e : Env) (from orderId : string)
  (customerData : Customer.t) (session : Session.t) (es : list Effect)
  : Result :=
  let session := Session.set_payment_mode Prepaid session in
  let '(session, es', ok) := order_details e from session in
  let σ := put_session orderId session σ in
  if ok then
    acked σ
      (es ++ es'
          ++ [ sendWhatsAppText from (tap_review_and_pay (Session.orderId session));
               appendToSheet (awaiting_row from customerData session) ])%list
  else acked σ (es ++ es' ++ [ sendWhatsAppText from payment_not_initiated ])%list.

(** The flow submission handler.  [from] is the normalized phone, for which
    [phoneToOrderIds[from]] exists. *)
Definition flow_submission (σ : State) (e : Env) (from : string)
  (customerData : Customer.t) : Result :=
  if bool_decide (Customer.flow_token customerData = Some "test_101")
  then acked σ []
  else
    let orderId := new_orderId (random e) in
    let pending_selection := orderSessions σ !! from in
    let session :=
      {| Session.orderId := Some orderId;
         Session.phone := Some from;
         Session.customer := Some customerData;
         Session.step := Some 4;
         Session.catalogId := None;
         Session.productItems :=
           Some (default [] (pending_selection ≫= Session.productItems));
         Session.amount :=
           Some (JS.or_else (default nan (pending_selection ≫= Session.amount))
                            0%float);
         Session.cod_error := None;
         Session.payment_mode := None;
         Session.shipping_charge := None;
         Session.payment_status := None |} in
    let σ := put_session orderId session σ in
    let σ :=
      set_phoneToOrderIds
        (<[from := (default [] (phoneToOrderIds σ !! from) ++ [orderId])%list]>
           (phoneToOrderIds σ)) σ in
    let es := [ sendWhatsAppText from (received_details orderId) ] in
    let session := Session.set_amount (Session.amount_or_0 session) session in
    let σ := put_session orderId session σ in
    if is_cod (Customer.payment_mode customerData)
    then cod_branch σ e from orderId customerData session es
    else prepaid_branch σ e from orderId customerData session es.

(** ** The normal message handlers *)

(** [msgBody] as the top of the handler computes it from [msg.type]. *)
Definition msgBody_by_type (c : Content) : string :=
  match c with
  | text body => Str.trim (default "" body)
  | interactive (button_reply title) => Str.trim title
  | interactive (list_reply title) => Str.trim title
  | interactive _ => ""
  | order _ => "order_received"
  | button (Some t) => Str.trim (Str.toLowerCase t)
  | button None => ""
  | other_type => ""
  end.

(** [msgBody] after the first statement of the [try] block, which lowers the
    title of a button reply and a non-empty text body. *)
Definition msgBody_of (c : Content) : string :=
  match c with
  | interactive (button_reply title) => Str.trim (Str.toLowerCase title)
  | text (Some body) =>
      if Str.nonempty body then Str.trim (Str.toLowerCase body)
      else msgBody_by_type c
  | _ => msgBody_by_type c
  end.

(** [/pattern/i.test(s)] for a pattern made of lower-case letters and
    spaces. *)
Definition test_i (pattern s : string) : bool :=
  Str.includes (Str.toLowerCase s) pattern.

(** The branches of the [if / else if] chain, in the order of the source. *)
Inductive Case :=
| main_menu
| intent_reply (intentResponse : Intent)
| awb_tracking (awb : string)
| greeting
| sourcing_story
| nutrition_info
| view_products
| have_a_query
| how_are_you
| fine
| thanks
| praise
| catalog_order
| reminder_followup
| ai_fallback.

Definition is_order (c : Content) : bool :=
  match c with order _ => true | _ => false end.

(** The chain itself: which branch runs. *)
Definition dispatch (σ : State) (from : string) (c : Content) : Case :=
  let msgBody := msgBody_of c in
  let intentResponse := findIntentBasedResponse (intentBasedQA σ) msgBody in
  if String.eqb msgBody "main menu" then main_menu
  else if String.eqb msgBody "Main Menu" then main_menu
  else
    match intentResponse with
    | Some i => intent_reply i
    | None =>
        match Awb.match_ msgBody with
        | Some awb => awb_tracking awb
        | None =>
            if String.eqb msgBody "hi" || String.eqb msgBody "hello"
               || String.eqb msgBody "hey" then greeting
            else if test_i "sourcing story" msgBody
                    || test_i "back2 sourcing story" msgBody then sourcing_story
            else if test_i "nutrition info" msgBody
                    || test_i "back 2 nutri info" msgBody then nutrition_info
            else if test_i "view products" msgBody then view_products
            else if test_i "have a query" msgBody then have_a_query
            else if Str.includes msgBody "how are you" then how_are_you
            else if String.eqb msgBody "fine" then fine
            else if Str.includes msgBody "thank you"
                    || Str.includes msgBody "thanks" then thanks
            else if existsb (Str.includes msgBody) ["awesome"; "amazing"; "great"]
                 then praise
            else if is_order c || String.eqb msgBody "order_received"
                 then catalog_order
            else if bool_decide (from ∈ remindedUsers σ)
                    && negb (bool_decide (from ∈ completedUsers σ))
                 then reminder_followup
            else ai_fallback
        end
    end.

(** [totalAmount] of the catalog-order branch: for each item
    [totalAmount += priceRupees * 100 * qty], with
    [priceRupees = parseFloat(item.item_price) || 0] and
    [qty = parseInt(item.quantity, 10) || 1]. *)
Definition catalog_total (productItems : list OrderItem) : JS.number :=
  fold_left
    (fun totalAmount item =>
       let priceRupees := JS.or_else (item_price item) 0%float in
       let qty := JS.parseInt_or_1 (quantity item) in
       fadd totalAmount (fmul (fmul priceRupees 100%float) (JS.of_Z qty)))
    productItems 0%float.

(** [intent.toLowerCase().replace(/\s+/g, '_')] *)
Fixpoint underscore (in_run : bool) (s : string) : string :=
  match s with
  | EmptyString => EmptyString
  | String c s' =>
      if Str.is_space c
      then (if in_run then underscore true s'
            else String "_"%char (underscore true s'))
      else String c (underscore false s')
  end.

Definition button_of (intent : string) : string * string :=
  (underscore false (Str.toLowerCase intent), intent).

Definition fixed_reply_how_are_you : string :=
  "We're flourishing like the alpine blooms at Gangotri! 😊 How can we assist you today?".

Definition fixed_reply_fine : string :=
  "Glad to hear you're doing fine! At 2,300 m, our small-holder farmers nurture each seed with care. Would you like to learn about our traceability or geo-seed mapping?".

Definition fixed_reply_thanks : string :=
  "You're most welcome! Supporting Gangotri valley farmers means the world to us. Let us know if you'd like to know more about our ethical sourcing.".

Definition fixed_reply_praise : string :=
  "That's wonderful to hear! Just like our wild tempering spice—harvested ethically at altitude—your enthusiasm warms our hearts. 😊".

Definition fixed_reply_no_answer : string :=
  "At OrangUtan Organics, we stand against mislabelling and broken traceability. We empower local small‐holders, guarantee genuine Himalayan origin, and protect seeds via geo‐mapping. Feel free to ask about any of these!".

(** What the [try] block leaves behind: the state, the effects, and
    [replyText], [useInteractiveMessage], [buttons]. *)
Record Reply := {
  reply_state : State;
  reply_effects : list Effect;
  replyText : string;
  useInteractiveMessage : bool;
  buttons : list (string * string)
}.

Definition plain (σ : State) (es : list Effect) (t : string) : Reply :=
  {| reply_state := σ; reply_effects := es; replyText := t;
     useInteractiveMessage := false; buttons := [] |}.

(** The body of the branch [k]. *)
Definition run_case (σ : State) (e : Env) (from : string) (c : Content)
  (k : Case) : Reply :=
  let msgBody := msgBody_of c in
  match k with
  | main_menu => plain σ [sendWhatsAppList from] ""
  | intent_reply i =>
      match intents i with
      | Some (x :: l) =>
          {| reply_state := σ; reply_effects := []; replyText := answer i;
             useInteractiveMessage := true;
             buttons := map button_of (x :: l) |}
      | _ => plain σ [] (answer i)
      end
  | awb_tracking awb => plain σ [sendWhatsAppTrackingCTA from awb] ""
  | greeting => plain σ [sendWhatsAppList from] ""
  | sourcing_story => plain σ [sendWhatsAppList_ss from] ""
  | nutrition_info => plain σ [sendWhatsAppList_ni from] ""
  | view_products => plain σ [sendWhatsAppCatalog from] ""
  | have_a_query =>
      {| reply_state := σ; reply_effects := [sendWhatsAppTemplate from];
         replyText := ""; useInteractiveMessage := true; buttons := [] |}
  | how_are_you => plain σ [] fixed_reply_how_are_you
  | fine => plain σ [] fixed_reply_fine
  | thanks => plain σ [] fixed_reply_thanks
  | praise => plain σ [] fixed_reply_praise
  | catalog_order =>
      let o := match c with order o => o | _ => None end in
      let phoneKeySession := default Session.empty (orderSessions σ !! from) in
      let productItems := default [] (o ≫= product_items) in
      let totalAmount := catalog_total productItems in
      let phoneKeySession :=
        Session.set_catalog (o ≫= catalog_id) productItems totalAmount
          phoneKeySession in
      plain (put_session from phoneKeySession σ)
        [ sendWhatsAppFlow from;
          sendWhatsAppText from provide_delivery_details ] ""
  | reminder_followup =>
      match Email.match_ msgBody with
      | Some email =>
          if Nat.leb 2 (Email.words_length msgBody) then
            let name := Email.contact_name msgBody email in
            let σ' :=
              set_users (remindedUsers σ ∖ {[ from ]})
                        ({[ from ]} ∪ completedUsers σ) σ in
            if customer_sheet_appended e then
              plain σ'
                [ appendCustomerToSheet name email from;
                  sendWhatsAppText from (saved_details name) ] ""
            else plain σ' [ appendCustomerToSheet name email from ] ""
          else plain σ [] ""
      | None => plain σ [] ""
      end
  | ai_fallback =>
      let answer := gemini_answer e in
      plain σ [askGemini msgBody]
        (if Str.nonempty answer then answer else fixed_reply_no_answer)
  end.

(** The final [try]: the reply goes out as buttons or as text. *)
Definition send_reply (from : string) (r : Reply) : list Effect :=
  if useInteractiveMessage r && negb (Nat.eqb (List.length (buttons r)) 0)
  then [ sendWhatsAppInteractiveMessage from (replyText r) (buttons r) ]
  else [ sendWhatsAppText from (reply (replyText r)) ].

(** ** [app.post('/')] *)

(** The top of the handler: [phoneToOrderIds[from]] is created when it is
    missing, and the idle timer is armed again. *)
Definition arrive (t : Z) (from : string) (σ : State) : State :=
  let σ :=
    match phoneToOrderIds σ !! from with
    | Some _ => σ
    | None => set_phoneToOrderIds (<[from := []]> (phoneToOrderIds σ)) σ
    end in
  rearm t from σ.

Definition post_root (σ : State) (e : Env) (m : option Msg) : Result :=
  match m with
  | None => acked σ []
  | Some msg =>
      let from := normalizePhone (from msg) in
      let σ := arrive (now e) from σ in
      match content msg with
      | interactive (nfm_reply customerData) =>
          flow_submission σ e from customerData
      | c =>
          let r := run_case σ e from c (dispatch σ from c) in
          acked (reply_state r) (reply_effects r ++ send_reply from r)
      end
  end.

(** *** Messages that lack a field the handler reads without a guard

    [post_root] is the handler on the messages whose fields are there as
    their [type] announces.  Three kinds of message lack a field that the
    handler reads outside any [try]: the [TypeError] leaves the handler, and
    no response is sent. *)
Inductive Unguarded :=
| reply_object_missing
    (* [type] "interactive" without an [interactive] object, or with
       [interactive.type] "button_reply" or "list_reply" and without that
       object: [msg.interactive.type], [msg.interactive.button_reply.title],
       [msg.interactive.list_reply.title] *)
| button_text_missing
    (* [type] "button" with a [button] object that has no [text]:
       [msg.button?.text.toLowerCase()] *)
| answers_missing.
    (* an [nfm_reply] whose [response_json] is missing or is the JSON text
       [null], so that [customerData] is [undefined] or [null]:
       [customerData.payment_mode] *)

(** The handler on such a message.  The first two throw before the timer
    block, when [phoneToOrderIds[from]] has been created.  The third throws in
    the flow handler after the session has been stored, the order id recorded
    and the receipt sent. *)
Definition post_root_unguarded (σ : State) (e : Env) (from : option string)
  (u : Unguarded) : Result :=
  let from := normalizePhone from in
  match u with
  | reply_object_missing | button_text_missing =>
      escaped
        match phoneToOrderIds σ !! from with
        | Some _ => σ
        | None => set_phoneToOrderIds (<[from := []]> (phoneToOrderIds σ)) σ
        end
        []
  | answers_missing =>
      let σ := arrive (now e) from σ in
      let orderId := new_orderId (random e) in
      let pending_selection := orderSessions σ !! from in
      let session :=
        {| Session.orderId := Some orderId;
           Session.phone := Some from;
           Session.customer := None;
           Session.step := Some 4;
           Session.catalogId := None;
           Session.productItems :=
             Some (default [] (pending_selection ≫= Session.productItems));
           Session.amount :=
             Some (JS.or_else (default nan (pending_selection ≫= Session.amount))
                              0%float);
           Session.cod_error := None;
           Session.payment_mode := None;
           Session.shipping_charge := None;
           Session.payment_status := None |} in
      let σ := put_session orderId session σ in
      let σ :=
        set_phoneToOrderIds
          (<[from := (default [] (phoneToOrderIds σ !! from) ++ [orderId])%list]>
             (phoneToOrderIds σ)) σ in
      let session := Session.set_amount (Session.amount_or_0 session) session in
      let σ := put_session orderId session σ in
      escaped σ [ sendWhatsAppText from (received_details orderId) ]
  end.

(** A request to [app.post('/')]. *)
Inductive Request :=
| regular (m : option Msg)
| unguarded (from : option string) (u : Unguarded).

Definition app_post (σ : State) (e : Env) (q : Request) : Result :=
  match q with
  | regular m => post_root σ e m
  | unguarded from u => post_root_unguarded σ e from u
  end.

(** ** The order finalizer and [app.post('/payments-webhook')] *)

(** [payload.payment.entity] *)
Record Payment := {
  payment_reference_id : option string;
  notes_orderId : option string;
  contact : option string
}.

(** [payload.payment_link.entity] *)
Record PaymentLink := {
  link_reference_id : option string;
  customer_contact : option string
}.

(** The body of a payment webhook: [event] and the two entities of
    [payload]. *)
Record Webhook := {
  event : option string;
  payment : option Payment;
  payment_link : option PaymentLink
}.

(** The first truthy of two strings that may be missing: [a || b]. *)
Definition first_truthy (a b : option string) : option string :=
  if str_truthy a then a else if str_truthy b then b else None.

(** [payment_link?.reference_id || payment?.reference_id ||
     payment?.notes?.orderId || null] *)
Definition referenceId (w : Webhook) : option string :=
  first_truthy (payment_link w ≫= link_reference_id)
    (first_truthy (payment w ≫= payment_reference_id)
       (payment w ≫= notes_orderId)).

(** The phone of the fallback: the contact of the payment, and when that
    gives nothing the contact of the customer of the payment link. *)
Definition fallback_phone (w : Webhook) : string :=
  let phone :=
    match payment w with
    | Some p => normalizePhone (contact p)
    | None => ""
    end in
  if negb (Str.nonempty phone)
     && str_truthy (payment_link w ≫= customer_contact)
  then normalizePhone (payment_link w ≫= customer_contact)
  else phone.

(** The last order id recorded for the phone of the fallback. *)
Definition lastOrderId (σ : State) (w : Webhook) : option string :=
  let phone := fallback_phone w in
  if Str.nonempty phone then
    match phoneToOrderIds σ !! phone with
    | Some ids => List.last (Some <$> ids) None
    | None => None
    end
  else None.

(** The names every plain object inherits from [Object.prototype]: its
    methods and the accessor [__proto__]. *)
Definition inherited_names : list string :=
  [ "constructor"; "__defineGetter__"; "__defineSetter__"; "hasOwnProperty";
    "__lookupGetter__"; "__lookupSetter__"; "isPrototypeOf";
    "propertyIsEnumerable"; "toString"; "valueOf"; "__proto__";
    "toLocaleString" ].

(** What [orderSessions[key]] gives. *)
Inductive Lookup :=
| own_session (s : Session.t)
| inherited_object (s : Session.t)
| inherited_value (truthy : bool)
| not_found.

(** [orderSessions[key]].  [orderSessions] is a plain object: when [key] is
    no own property the lookup goes on in [Object.prototype].  There it finds
    a function under the name of a method and [Object.prototype] itself under
    ["__proto__"]: objects without any property of a session but those the
    handlers have written on them.  Once a handler has written
    [payment_status] or [shipping_charge] on [Object.prototype], these two
    keys are found as well: a string, and a number that is truthy or not. *)
Definition orderSessions_get (σ : State) (key : string) : Lookup :=
  match orderSessions σ !! key with
  | Some s => own_session s
  | None =>
      if existsb (String.eqb key) inherited_names
      then inherited_object (default Session.empty (inherited σ !! key))
      else
        let Object_prototype := default Session.empty (inherited σ !! "__proto__") in
        if String.eqb key "payment_status" then
          match Session.payment_status Object_prototype with
          | Some _ => inherited_value true
          | None => not_found
          end
        else if String.eqb key "shipping_charge" then
          match Session.shipping_charge Object_prototype with
          | Some x => inherited_value (JS.truthy x)
          | None => not_found
          end
        else not_found
  end.

(** Where the session of a webhook lives: in [orderSessions] under a key, or
    in [Object.prototype] under a name. *)
Inductive Place :=
| in_store (key : string)
| in_prototype (name : string).

(** The value of [session] when the webhook has looked for it. *)
Inductive Session_found :=
| an_object (p : Place) (s : Session.t)
| a_primitive
| no_session.

Definition found_under (σ : State) (key : string) : Session_found :=
  match orderSessions_get σ key with
  | own_session s => an_object (in_store key) s
  | inherited_object s => an_object (in_prototype key) s
  | inherited_value true => a_primitive
  | inherited_value false => no_session
  | not_found => no_session
  end.

(** [session] after the lookup by reference id and the fallback by phone. *)
Definition find_session (σ : State) (w : Webhook) : Session_found :=
  let by_reference :=
    match referenceId w with
    | Some r => found_under σ r
    | None => no_session
    end in
  match by_reference with
  | no_session =>
      match lastOrderId σ w with
      | Some k => found_under σ k
      | None => no_session
      end
  | found => found
  end.

(** The stored session the webhook is about, with the key it is stored
    under: [None] when the webhook finds no session, and when what it finds is
    no stored session. *)
Definition resolve_session (σ : State) (w : Webhook)
  : option (string * Session.t) :=
  match find_session σ w with
  | an_object (in_store key) s => Some (key, s)
  | _ => None
  end.

(** The object the webhook has worked on is the object it found: what was
    assigned to [session] is there afterwards. *)
Definition put_object (p : Place) (s : Session.t) (σ : State) : State :=
  match p with
  | in_store key => put_session key s σ
  | in_prototype name => set_inherited (<[name := s]> (inherited σ)) σ
  end.

(** The [shipment] object of [finalizePaidOrder]. *)
Definition prepaid_shipment (phone : string) (session : Session.t)
  (final_product_name : string) (t : Z) : Shipment.t :=
  let c := Session.customer session in
  {| Shipment.name := str_or (c ≫= Customer.name) "Customer";
     Shipment.add :=
       Str.trim (str_or (c ≫= Customer.address1) "" ++ " "
                   ++ str_or (c ≫= Customer.address2) "");
     Shipment.pin := str_or (c ≫= Customer.pincode) (str_or (c ≫= Customer.pin) "");
     Shipment.city := str_or (c ≫= Customer.city) "";
     Shipment.state := str_or (c ≫= Customer.state) "";
     Shipment.phone := str_or (c ≫= Customer.phone) phone;
     Shipment.order :=
       "Order_" ++ str_or (Session.orderId session) (Z_to_string t);
     Shipment.payment_mode := Prepaid;
     Shipment.products_desc := final_product_name;
     Shipment.cod_amount := 0%float;
     Shipment.total_amount :=
       JS.round (fdiv (default nan (Session.amount session)) 100%float);
     Shipment.weight := None |}.

(** The row of a paid order. *)
Definition paid_row (phone : string) (session : Session.t) : SheetRow.t :=
  let c := Session.customer session in
  {| SheetRow.name := str_or (c ≫= Customer.name) "";
     SheetRow.phone := str_or (c ≫= Customer.phone) phone;
     SheetRow.email := str_or (c ≫= Customer.email) "";
     SheetRow.address :=
       Str.trim (str_or (c ≫= Customer.address1) "" ++ " "
                   ++ str_or (c ≫= Customer.address2) "");
     SheetRow.pincode := str_or (c ≫= Customer.pincode) "";
     SheetRow.items := Session.items session;
     SheetRow.mode := Prepaid;
     SheetRow.status := "Paid";
     SheetRow.amount := fdiv (default nan (Session.amount session)) 100%float;
     SheetRow.shipping :=
       Some (fdiv (default nan (Session.shipping_charge session)) 100%float);
     SheetRow.cod := Some 0%float;
     SheetRow.orderId := Some (str_or (Session.orderId session) "") |}.

(** [finalizePaidOrder(session, paymentInfo)]: the session it leaves and the
    effects.  It catches everything. *)
Definition finalizePaidOrder (e : Env) (session : Session.t)
  : Session.t * list Effect :=
  let phone := str_or (Session.phone session) "" in
  let session := Session.set_payment_status paid session in
  let product_data := Session.items session in
  let total_wgt := total_wgt_prepaid product_data in
  let final_product_name := product_name_prepaid product_data in
  let dest_pin :=
    match Session.customer session with
    | Some c => dest_pin_of c
    | None => ""
    end in
  let shippingChargePaise := read_quote_prepaid (charges e) in
  let session := Session.set_shipping_charge shippingChargePaise session in
  let shipment := prepaid_shipment phone session final_product_name (now e) in
  (session,
   [ sendWhatsAppText phone payment_successful;
     getDelhiveryCharges dest_pin total_wgt "Pre-paid";
     createDelhiveryShipment shipment;
     sendWhatsAppText phone
       (match created e with
        | Returns _ => shipment_created
        | Throws => shipment_failed
        end);
     appendToSheet (paid_row phone session) ]).

(** [app.post('/payments-webhook')] on a body that has a [payload] and in
    which [event], the ids and the contacts are strings where they are
    present.  The file is a module, hence strict code: assigning a property
    to a string or to a number throws.  In [finalizePaidOrder] the assignment
    is the second statement, and the handler calls the finalizer inside a
    [try]; in the branch of the failed payment the assignment stands outside
    any [try]. *)
Definition payments_webhook (σ : State) (e : Env) (w : Webhook) : Result :=
  let status := Str.toLowerCase (str_or (event w) "") in
  match find_session σ w with
  | no_session => acked σ []
  | a_primitive =>
      if Str.includes status "paid" then acked σ []
      else if Str.includes status "failed" || Str.includes status "cancel"
              || Str.includes status "expired" then escaped σ []
      else acked σ []
  | an_object place session =>
      if Str.includes status "paid" then
        let '(session, es) := finalizePaidOrder e session in
        acked (put_object place session σ) es
      else if Str.includes status "failed" || Str.includes status "cancel"
              || Str.includes status "expired" then
        let session := Session.set_payment_status failed session in
        acked (put_object place session σ)
          [ sendWhatsAppText (default "" (Session.phone session)) payment_failed ]
      else acked σ []
  end.

(** ** Reading the effects *)

(** The rows handed to [appendToSheet]. *)
Fixpoint appended_rows (es : list Effect) : list SheetRow.t :=
  match es with
  | [] => []
  | appendToSheet row :: es' => row :: appended_rows es'
  | _ :: es' => appended_rows es'
  end.

(** The texts sent to [phone] with [sendWhatsAppText]. *)
Fixpoint texts_to (phone : string) (es : list Effect) : list Text :=
  match es with
  | [] => []
  | sendWhatsAppText to t :: es' =>
      if String.eqb to phone then t :: texts_to phone es'
      else texts_to phone es'
  | _ :: es' => texts_to phone es'
  end.

(** The shipment-creation requests. *)
Fixpoint shipments (es : list Effect) : list Shipment.t :=
  match es with
  | [] => []
  | createDelhiveryShipment s :: es' => s :: shipments es'
  | _ :: es' => shipments es'
  end.

(** ** Runs of the program *)

(** The table once the PDF is loaded and [parseIntentBasedQA()] has run. *)
Definition load_intents (σ : State) : State :=
  {| orderSessions := orderSessions σ; phoneToOrderIds := phoneToOrderIds σ;
     idleTimers := idleTimers σ; remindedUsers := remindedUsers σ;
     completedUsers := completedUsers σ; intentBasedQA := parseIntentBasedQA;
     pending := pending σ; next_handle := next_handle σ;
     reminding := reminding σ; inherited := inherited σ |}.

Definition populated : State := load_intents initial.

(** One step of the process: the table is loaded, a message arrives (one
    with its fields, or one that lacks a field read without a guard), a
    payment webhook arrives, the callback of a timer runs up to its [await],
    or a suspended callback goes on. *)
Inductive step : State -> State -> Prop :=
| step_load σ : step σ (load_intents σ)
| step_message σ e m : step σ (state (post_root σ e m))
| step_payment σ e w : step σ (state (payments_webhook σ e w))
| step_unguarded σ e from u : step σ (state (post_root_unguarded σ e from u))
| step_timer σ t h : step σ (fst (fire t h σ))
| step_reminded σ phone : step σ (reminder_sent phone σ).

Inductive reachable : State -> Prop :=
| reachable_initial : reachable initial
| reachable_step σ σ' : reachable σ -> step σ σ' -> reachable σ'.

(** The pending timers whose callback is for [phone]. *)
Definition timers_of (phone : string) (σ : State) : list Timer :=
  List.filter (fun t => String.eqb (timer_phone t) phone) (pending σ).

(** The reminders to [phone] among some effects. *)
Fixpoint reminders_to (phone : string) (es : list Effect) : nat :=
  match es with
  | [] => O
  | sendWhatsAppText to reminder :: es' =>
      ((if String.eqb to phone then 1 else 0) + reminders_to phone es')%nat
  | _ :: es' => reminders_to phone es'
  end.

(** Timer callbacks that run one after the other, each given by the time
    and the handle; the effects of all of them. *)
Fixpoint fire_all (schedule : list (Z * nat)) (σ : State)
  : State * list Effect :=
  match schedule with
  | [] => (σ, [])
  | (t, h) :: rest =>
      let '(σ1, es1) := fire t h σ in
      let '(σ2, es2) := fire_all rest σ1 in
      (σ2, (es1 ++ es2)%list)
  end.

(** A message of a given content. *)
Definition message (phone : option string) (c : Content) : option Msg :=
  Some {| from := phone; content := c |}.

(** A delivery-details submission. *)
Definition submission (phone : option string) (customerData : Customer.t)
  : option Msg := message phone (interactive (nfm_reply customerData)).

(** The timers are well kept: the handles of the pending timers are
    distinct and were all given out already, and a pending timer is the one
    recorded in [idleTimers] for its phone. *)
Definition timers_ok (σ : State) : Prop :=
  List.NoDup (map handle (pending σ))
  /\ forall x, In x (pending σ) ->
       (handle x < next_handle σ)%nat
       /\ idleTimers σ !! timer_phone x = Some (handle x).

(** What the handlers other than the timer block leave alone. *)
Definition timer_part (σ : State) : gmap string nat * list Timer * nat :=
  (idleTimers σ, pending σ, next_handle σ).

(** ** Reference definitions

    The notions the statements below compare the program with.
    [amount_by_spec], [priority] with [first_match], [first_present] with
    [reference_by_claim], [payer_phone], [session_by_phone] and
    [session_by_claim] follow the words of the specification; the others name
    parts of a state or of an environment. *)

(** The amount of a catalog order as the specification gives it: the sum
    over the items of [round(price * 100) * quantity]. *)
Definition amount_by_spec (productItems : list OrderItem) : JS.number :=
  fold_left
    (fun total item =>
       fadd total
         (fmul (JS.round (fmul (item_price item) 100%float))
               (JS.of_Z (quantity item))))
    productItems 0%float.

(** The total amount that can be read from a rate quote: the [total_amount]
    of the first element of the array, when there is one and it is truthy. *)
Definition quote_total (o : Outcome ChargesResp) : option JS.number :=
  match o with
  | Returns (charges_array (Some t :: _)) => if JS.truthy t then Some t else None
  | _ => None
  end.

(** The quote in paise, or 0 when no total can be read. *)
Definition quote_paise (o : Outcome ChargesResp) : JS.number :=
  match quote_total o with
  | Some t => JS.round (fmul t 100%float)
  | None => 0%float
  end.

(** The product subtotal a submission starts from: the amount of the
    catalog selection recorded for the phone, or 0. *)
Definition subtotal_of (σ : State) (phone : string) : JS.number :=
  JS.or_else (default nan (orderSessions σ !! phone ≫= Session.amount)) 0%float.

(** The session stored under the order id a submission generates. *)
Definition session_after (r : Result) (e : Env) : option Session.t :=
  orderSessions (state r) !! new_orderId (random e).

(** The required format of an order id: [OUO-] and five digits. *)
Definition orderId_format (s : string) : bool :=
  String.prefix "OUO-" s
  && Nat.eqb (String.length s) 9
  && forallb Str.is_digit (list_ascii_of_string (String.substring 4 5 s)).

(** The chain of the normal message handlers as an ordered list: each entry
    is the branch it selects when its condition holds. *)
Definition when (b : bool) (k : Case) : option Case :=
  if b then Some k else None.

Definition priority (σ : State) (from : string) (c : Content)
  : list (option Case) :=
  let msgBody := msgBody_of c in
  [ when (String.eqb msgBody "main menu") main_menu;
    when (String.eqb msgBody "Main Menu") main_menu;
    intent_reply <$> findIntentBasedResponse (intentBasedQA σ) msgBody;
    awb_tracking <$> Awb.match_ msgBody;
    when (String.eqb msgBody "hi" || String.eqb msgBody "hello"
          || String.eqb msgBody "hey") greeting;
    when (test_i "sourcing story" msgBody
          || test_i "back2 sourcing story" msgBody) sourcing_story;
    when (test_i "nutrition info" msgBody
          || test_i "back 2 nutri info" msgBody) nutrition_info;
    when (test_i "view products" msgBody) view_products;
    when (test_i "have a query" msgBody) have_a_query;
    when (Str.includes msgBody "how are you") how_are_you;
    when (String.eqb msgBody "fine") fine;
    when (Str.includes msgBody "thank you" || Str.includes msgBody "thanks") thanks;
    when (existsb (Str.includes msgBody) ["awesome"; "amazing"; "great"]) praise;
    when (is_order c || String.eqb msgBody "order_received") catalog_order;
    when (bool_decide (from ∈ remindedUsers σ)
          && negb (bool_decide (from ∈ completedUsers σ))) reminder_followup;
    Some ai_fallback ].

(** The first entry that selects a branch. *)
Fixpoint first_match (l : list (option Case)) : option Case :=
  match l with
  | [] => None
  | Some k :: _ => Some k
  | None :: rest => first_match rest
  end.

(** The message contains a key of the table. *)
Definition matches_phrase (table : list (string * Intent)) (msgBody : string)
  : bool :=
  existsb (fun kv => Str.includes (Str.trim (Str.toLowerCase msgBody)) (fst kv)) table.

(** The ten digits, and every string [OUO-] followed by five of them. *)
Definition ten_digits : list ascii := map digit_char (seq 0 10).

Definition orderId_of_digits (d : ascii * (ascii * (ascii * (ascii * ascii))))
  : string :=
  let '(a, (b, (c, (d, e)))) := d in
  "OUO-" ++ string_of_list_ascii [a; b; c; d; e].

Definition all_orderIds : list string :=
  map orderId_of_digits
    (list_prod ten_digits
       (list_prod ten_digits
          (list_prod ten_digits (list_prod ten_digits ten_digits)))).

(** The first of several strings that is present and not empty. *)
Fixpoint first_present (l : list (option string)) : option string :=
  match l with
  | [] => None
  | Some s :: rest => if Str.nonempty s then Some s else first_present rest
  | None :: rest => first_present rest
  end.

(** The reference id of a webhook as the specification has it: the first
    that is present among [payment_link.reference_id],
    [payment.reference_id] and [payment.notes.orderId]. *)
Definition reference_by_claim (w : Webhook) : option string :=
  first_present [ payment_link w ≫= link_reference_id;
                  payment w ≫= payment_reference_id;
                  payment w ≫= notes_orderId ].

(** The normalized contact phone of the payer: that of the payment, and when
    the payment gives no digit that of the customer of the payment link. *)
Definition payer_phone (w : Webhook) : string :=
  let of_payment := normalizePhone (payment w ≫= contact) in
  let of_link := normalizePhone (payment_link w ≫= customer_contact) in
  if Str.nonempty of_payment then of_payment else of_link.

(** The session found through the phone of the payer: the one stored under
    the order id created last for the normalized contact. *)
Definition session_by_phone (σ : State) (w : Webhook)
  : option (string * Session.t) :=
  let phone := payer_phone w in
  if Str.nonempty phone then
    ids ← phoneToOrderIds σ !! phone;
    k ← List.last (Some <$> ids) None;
    s ← orderSessions σ !! k;
    Some (k, s)
  else None.

(** The session of a webhook as the specification resolves it: the session
    stored under the reference id, and when none is stored under it the one
    found through the phone. *)
Definition session_by_claim (σ : State) (w : Webhook)
  : option (string * Session.t) :=
  match reference_by_claim w
        ≫= fun r => (fun s => (r, s)) <$> orderSessions σ !! r with
  | Some found => Some found
  | None => session_by_phone σ w
  end.

(** A key under which [orderSessions] has nothing but what was stored: no
    name of [Object.prototype], and none of the two properties the finalizer
    can have written there. *)
Definition only_own (key : string) : bool :=
  negb (existsb (String.eqb key) inherited_names
        || String.eqb key "payment_status"
        || String.eqb key "shipping_charge").

(** ** Sample inputs *)

Definition sample_phone : string := "919876543210".

(** A quote of 50.00 rupees, a shipment that is accepted. *)
Definition sample_env : Env :=
  {| now := 1000;
     random := [1; 2; 3; 4; 5]%nat;
     PAYMENT_CONFIGURATION_NAME := Some "upi_test";
     charges := Returns (charges_array [Some 50%float]);
     created := Returns (ship_object true);
     order_details_posted := true;
     customer_sheet_appended := true;
     gemini_answer := "Namaste" |}.

Definition with_services (q : Outcome ChargesResp) (s : Outcome ShipResp)
  (e : Env) : Env :=
  {| now := now e;
     random := random e;
     PAYMENT_CONFIGURATION_NAME := PAYMENT_CONFIGURATION_NAME e;
     charges := q;
     created := s;
     order_details_posted := order_details_posted e;
     customer_sheet_appended := customer_sheet_appended e;
     gemini_answer := gemini_answer e |}.

Definition at_time (t : Z) (e : Env) : Env :=
  {| now := t;
     random := random e;
     PAYMENT_CONFIGURATION_NAME := PAYMENT_CONFIGURATION_NAME e;
     charges := charges e;
     created := created e;
     order_details_posted := order_details_posted e;
     customer_sheet_appended := customer_sheet_appended e;
     gemini_answer := gemini_answer e |}.

Definition sample_customer : Customer.t :=
  {| Customer.flow_token := Some "flow-1";
     Customer.payment_mode := Some "Cash on Delivery";
     Customer.name := Some "Asha";
     Customer.address1 := Some "12 Hill Road";
     Customer.address2 := None;
     Customer.pincode := Some "249193";
     Customer.pin := None;
     Customer.city := None;
     Customer.state := None;
     Customer.phone := None;
     Customer.email := Some "asha@example.com" |}.

Definition sample_items : list OrderItem :=
  [ {| product_retailer_id := "m519x5gv9s"; item_price := 347%float;
       quantity := 2 |} ].

Definition sample_order (items : list OrderItem) : option Msg :=
  message (Some sample_phone)
    (order (Some {| catalog_id := Some "1262132998945503";
                    product_items := Some items |})).

(** The state after the sample catalog order. *)
Definition after_order : State :=
  state (post_root populated sample_env (sample_order sample_items)).

(** A webhook of a paid payment link, with a reference id in the notes
    and a contact. *)
Definition sample_webhook (ref contact : option string) : Webhook :=
  {| event := Some "payment_link.paid";
     payment := Some {| payment_reference_id := None; notes_orderId := ref;
                        contact := contact |};
     payment_link := None |}.

(** ** The checkout router: [/save-order], [/process-cod], [/process-prepaid]

    The first module of [src/checkout.js].  A request body is given by the
    fields the handlers read; [shipmentData] and [pickupLocation] are only
    passed on.  The two remote calls are the shipment creation and the post
    to the spreadsheet script; each returns or throws. *)

Module Checkout.

(** [orderData] *)
Record OrderData := {
  type : option string;
  orderId : option string
}.

(** [paymentDetails] *)
Record PaymentDetails := {
  payment_id : option string
}.

(** [req.body] of the two processing routes; [None] is a field that is not
    in the body. *)
Record Body := {
  orderData : option OrderData;
  paymentDetails : option PaymentDetails
}.

(** The messages of the JSON answers. *)
Inductive Message :=
| invalid_order_data
| order_id_required
| order_saved
| failed_to_save
| cod_processed
| failed_to_process_cod
| prepaid_processed
| failed_to_process_prepaid.

(** [res.status(code).json({ success, message, ... })]; [res.json] answers
    with 200. *)
Record Answer := {
  code : nat;
  success : bool;
  message : Message
}.

(** [delhiveryResponse]: the data of the provider, or the error object the
    inner [catch] builds. *)
Inductive DelhiveryResponse :=
| provider_data
| provider_error.

(** The remote calls: the shipment creation, and the post to the
    spreadsheet with the order id of the payload and, in the processing
    routes, the shipment response and the payment id it carries. *)
Inductive Call :=
| post_create_shipment
| post_sheet (orderId : option string)
    (delhiveryResponse : option DelhiveryResponse) (paymentId : option string).

(** [router.post('/save-order')]; [sheet] tells whether the post returns. *)
Definition save_order (body : option OrderData) (sheet : Outcome unit)
  : Answer * list Call :=
  match body with
  | None => ({| code := 500; success := false; message := failed_to_save |}, [])
  | Some orderData =>
      if negb (str_truthy (type orderData))
         || negb (bool_decide (type orderData = Some "checkout"))
      then ({| code := 400; success := false; message := invalid_order_data |}, [])
      else if negb (str_truthy (orderId orderData))
      then ({| code := 400; success := false; message := order_id_required |}, [])
      else
        match sheet with
        | Returns _ =>
            ({| code := 200; success := true; message := order_saved |},
             [post_sheet (orderId orderData) None None])
        | Throws =>
            ({| code := 500; success := false; message := failed_to_save |},
             [post_sheet (orderId orderData) None None])
        end
  end.

(** What the inner [try] around the shipment creation leaves in
    [delhiveryResponse]. *)
Definition shipment_response (delhivery : Outcome unit) : DelhiveryResponse :=
  match delhivery with
  | Returns _ => provider_data
  | Throws => provider_error
  end.

(** [router.post('/process-cod')].  A missing body or a missing [orderData]
    throws at [orderData.orderId], before any call, and ends in the outer
    [catch]. *)
Definition process_cod (body : option Body) (delhivery sheet : Outcome unit)
  : Answer * list Call :=
  match body ≫= orderData with
  | None =>
      ({| code := 500; success := false; message := failed_to_process_cod |}, [])
  | Some o =>
      let delhiveryResponse := shipment_response delhivery in
      ({| code := 200; success := true; message := cod_processed |},
       [post_create_shipment;
        post_sheet (orderId o) (Some delhiveryResponse) None])
  end.

(** [router.post('/process-prepaid')].  [paymentDetails.payment_id] is read
    after the shipment creation: when [paymentDetails] is missing, the
    exception ends in the outer [catch] with the shipment already asked for. *)
Definition process_prepaid (body : option Body) (delhivery sheet : Outcome unit)
  : Answer * list Call :=
  match body ≫= orderData with
  | None =>
      ({| code := 500; success := false; message := failed_to_process_prepaid |}, [])
  | Some o =>
      let delhiveryResponse := shipment_response delhivery in
      match body ≫= paymentDetails with
      | None =>
          ({| code := 500; success := false; message := failed_to_process_prepaid |},
           [post_create_shipment])
      | Some p =>
          ({| code := 200; success := true; message := prepaid_processed |},
           [post_create_shipment;
            post_sheet (orderId o) (Some delhiveryResponse) (payment_id p)])
      end
  end.

(** The posts to the spreadsheet among some calls. *)
Definition sheet_posts (calls : list Call) : list Call :=
  List.filter (fun c => match c with post_sheet _ _ _ => true | _ => false end) calls.

End Checkout.

(** ** [askGemini] of [gemini.js] *)

Module Gemini.

(** [response.data] as far as it is read: the text of the first part of the
    first candidate, and the [text] of the first candidate. *)
Record Response := {
  part_text : option string;
  candidate_text : option string
}.

Definition rephrase : string :=
  "I didn't quite understand that. Could you please rephrase your question?".

Definition unable : string :=
  "I'm currently unable to answer that question. Please contact our support team for assistance.".

Definition not_sure : string :=
  "I'm not sure how to answer that. Could you try asking differently?".

Definition trouble : string :=
  "I'm having trouble connecting to my knowledge base right now. Please try again in a moment or contact our support team.".

(** [askGemini(question, contextText)] for a question that is a string:
    the answer, given the configured key and what the post does. *)
Definition askGemini (GEMINI_API_KEY : option string) (question : string)
  (post : Outcome Response) : string :=
  if negb (Str.nonempty question) || negb (Str.nonempty (Str.trim question))
  then rephrase
  else if negb (str_truthy GEMINI_API_KEY) then unable
  else
    match post with
    | Throws => trouble
    | Returns response =>
        let answer :=
          str_or (part_text response)
            (str_or (candidate_text response) "No answer found.") in
        if negb (Str.nonempty answer) || String.eqb answer "No answer found."
        then not_sure
        else answer
    end.

(** The prompt the fallback branch of the message handler builds around
    [msgBody]. *)
Definition focusedPrompt (msgBody : string) : string :=
  nl ++ "As OrangUtan Organics representative, answer this question warmly and briefly (max 50 words)."
     ++ nl ++ "If the question is about traceability, origin, sourcing, or " ++ String (ascii_of_nat 34) "how it works"
     ++ String (ascii_of_nat 34) " - suggest they ask about "
     ++ String (ascii_of_nat 34) "Trace Your Products" ++ String (ascii_of_nat 34) "."
     ++ nl ++ nl ++ "Question: " ++ String (ascii_of_nat 34) msgBody ++ String (ascii_of_nat 34) ""
     ++ nl ++ "      ".

End Gemini.

(** ** Invariants of the store *)

(** Every order id recorded for a phone has the required format and names a
    stored session that carries this id. *)
Definition store_ok (σ : State) : Prop :=
  forall phone ids id,
    phoneToOrderIds σ !! phone = Some ids -> In id ids ->
    orderId_format id = true
    /\ exists s, orderSessions σ !! id = Some s /\ Session.orderId s = Some id.

(** From [σ] to [σ'] nothing is forgotten: stored sessions stay stored, the
    order ids of a phone are only added to, at the end, and a completed phone
    stays completed. *)
Definition grows (σ σ' : State) : Prop :=
  (forall k, is_Some (orderSessions σ !! k) -> is_Some (orderSessions σ' !! k))
  /\ (forall phone ids, phoneToOrderIds σ !! phone = Some ids ->
        exists more, phoneToOrderIds σ' !! phone = Some (ids ++ more)%list)
  /\ (forall phone, phone ∈ completedUsers σ -> phone ∈ completedUsers σ').

(** Two sessions that differ at most in [payment_status],
    [shipping_charge], [step] and [catalogId]. *)
Definition same_order (s s' : Session.t) : Prop :=
  Session.orderId s' = Session.orderId s
  /\ Session.phone s' = Session.phone s
  /\ Session.customer s' = Session.customer s
  /\ Session.productItems s' = Session.productItems s
  /\ Session.amount s' = Session.amount s
  /\ Session.payment_mode s' = Session.payment_mode s
  /\ Session.cod_error s' = Session.cod_error s.

(** The elementary updates the handlers make to the state: a session is
    stored under a key (carrying that key as its order id, or the order id of
    the session it replaces), an order id that names such a session is added
    at the end of the list of a phone, an empty list is created for a phone
    that has none, the timers are changed, a phone moves from reminded to
    completed, a phone is reminded, the intent table is loaded, the list of
    the suspended callbacks is changed, something is written on an object of
    [Object.prototype]. *)
Inductive update : State -> State -> Prop :=
| update_session σ k s :
    Session.orderId s = Some k
    \/ Session.orderId s = Session.orderId (default Session.empty (orderSessions σ !! k)) ->
    update σ (put_session k s σ)
| update_push σ phone id s :
    orderId_format id = true ->
    orderSessions σ !! id = Some s -> Session.orderId s = Some id ->
    update σ
      (set_phoneToOrderIds
         (<[phone := (default [] (phoneToOrderIds σ !! phone) ++ [id])%list]>
            (phoneToOrderIds σ)) σ)
| update_new_list σ phone :
    phoneToOrderIds σ !! phone = None ->
    update σ (set_phoneToOrderIds (<[phone := []]> (phoneToOrderIds σ)) σ)
| update_timers σ m p n : update σ (set_timers m p n σ)
| update_completed σ phone :
    update σ (set_users (remindedUsers σ ∖ {[ phone ]})
                        ({[ phone ]} ∪ completedUsers σ) σ)
| update_reminded σ phone :
    update σ (set_users ({[ phone ]} ∪ remindedUsers σ) (completedUsers σ) σ)
| update_intents σ : update σ (load_intents σ)
| update_reminding σ l : update σ (set_reminding l σ)
| update_inherited σ m : update σ (set_inherited m σ).

(** Some updates, one after the other. *)
Inductive updates : State -> State -> Prop :=
| updates_none σ : updates σ σ
| updates_more σ σ1 σ2 : update σ σ1 -> updates σ1 σ2 -> updates σ σ2.

(** The delivery-details form, which [app.post('/')] handles before the
    normal message handlers. *)
Definition is_submission (c : Content) : bool :=
  match c with interactive (nfm_reply _) => true | _ => false end.

(** The branches that send their message themselves and leave [replyText]
    empty. *)
Definition own_message (k : Case) : bool :=
  match k with
  | main_menu | awb_tracking _ | greeting | sourcing_story | nutrition_info
  | view_products | have_a_query | catalog_order | reminder_followup => true
  | intent_reply _ | how_are_you | fine | thanks | praise | ai_fallback => false
  end.

(** The state after a greeting and the reminder of the idle timer, sent
    and recorded; the answer with a name and an address; the state after it. *)
Definition reminded_state : State :=
  reminder_sent sample_phone
    (fst (fire (1000 + idle_delay) 0
            (state (post_root populated sample_env
                      (message (Some sample_phone) (text (Some "hi"))))))).

Definition contact_details : Content := text (Some "Asha asha@example.com").

Definition completed_state : State :=
  state (post_root reminded_state (at_time 2000000 sample_env)
           (message (Some sample_phone) contact_details)).

(** The state after the reminder and a further greeting, which arms the
    timer again. *)
Definition greeted_again_state : State :=
  state (post_root reminded_state (at_time 2000000 sample_env)
           (message (Some sample_phone) (text (Some "hi")))).

(** * Properties *)

(** ** Sanity checks of the embedding *)

Example round_ties_up : JS.round 2.5%float = 3%float.
Proof. reflexivity. Qed.

Example round_neg_tie : JS.round (-2.5)%float = (-2)%float.
Proof. reflexivity. Qed.

Example round_5000 : JS.round (50 * 100)%float = 5000%float.
Proof. reflexivity. Qed.

Example round_below_half : JS.round 0.49999999999999994%float = 0%float.
Proof. reflexivity. Qed.

Example round_small_neg : JS.round (-0.2)%float = neg_zero.
Proof. reflexivity. Qed.

Example round_nan : JS.round nan = nan.
Proof. reflexivity. Qed.

Example of_Z_15000 : JS.of_Z 15000 = 15000%float.
Proof. reflexivity. Qed.

Example awb_13_digits : Awb.test "1234567890123" = false.
Proof. reflexivity. Qed.

Example awb_14_digits : Awb.match_ "12345678901234" = Some "12345678901234".
Proof. reflexivity. Qed.

Example awb_15_digits : Awb.test "123456789012345" = false.
Proof. reflexivity. Qed.

Example awb_in_text :
  Awb.match_ "my awb: 12345678901234." = Some "12345678901234".
Proof. reflexivity. Qed.

Example awb_glued : Awb.test "awb12345678901234" = false.
Proof. reflexivity. Qed.

Example trim_lower : Str.trim (Str.toLowerCase "  Main Menu ") = "main menu".
Proof. reflexivity. Qed.

Example phone_digits :
  normalizePhone (Some "+91 98765-43210") = "919876543210".
Proof. reflexivity. Qed.

Example email_in_text :
  Email.match_ "asha rao asha.rao@example.co.in" = Some "asha.rao@example.co.in".
Proof. reflexivity. Qed.

Example email_second_at : Email.match_ "a@b c@d.com" = Some "c@d.com".
Proof. reflexivity. Qed.

Example email_short_tld : Email.match_ "x@y.c" = None.
Proof. reflexivity. Qed.

Example tracking_number_alone :
  dispatch populated sample_phone (text (Some "12345678901234"))
  = awb_tracking "12345678901234".
Proof. vm_compute. reflexivity. Qed.

Example thirteen_digits_are_no_tracking_number :
  dispatch populated sample_phone (text (Some "1234567890123")) = ai_fallback.
Proof. vm_compute. reflexivity. Qed.

Example greeting_hi : dispatch populated sample_phone (text (Some "Hi")) = greeting.
Proof. vm_compute. reflexivity. Qed.

Example order_event :
  dispatch populated sample_phone (order None) = catalog_order.
Proof. vm_compute. reflexivity. Qed.

Example scenario_A :
  catalog_total [ {| product_retailer_id := "X"; item_price := 100%float;
                     quantity := 2 |} ] = 20000%float.
Proof. reflexivity. Qed.

Example sample_order_amount :
  orderSessions after_order !! sample_phone ≫= Session.amount
  = Some 69400%float.
Proof. vm_compute. reflexivity. Qed.

Example codChargePaise_value : codChargePaise = 15000%float.
Proof. reflexivity. Qed.

(** ** Shared lemmas *)

Lemma or_else_idem x : JS.or_else (JS.or_else x 0%float) 0%float = JS.or_else x 0%float.
Proof.
  unfold JS.or_else. destruct (JS.truthy x) eqn:Hx.
  - now rewrite Hx.
  - reflexivity.
Qed.

Lemma orderSessions_rearm t from σ :
  orderSessions (rearm t from σ) = orderSessions σ.
Proof. unfold rearm. now destruct (bool_decide _). Qed.

Lemma orderSessions_arrive t from σ :
  orderSessions (arrive t from σ) = orderSessions σ.
Proof.
  unfold arrive. rewrite orderSessions_rearm.
  now destruct (phoneToOrderIds σ !! from).
Qed.

Lemma intentBasedQA_arrive t ph σ :
  intentBasedQA (arrive t ph σ) = intentBasedQA σ.
Proof.
  unfold arrive, rearm.
  destruct (phoneToOrderIds σ !! ph); now destruct (bool_decide _).
Qed.

Lemma is_cod_lower pm :
  In (Str.toLowerCase pm) ["cod"; "cash on delivery"; "cash-on-delivery"] ->
  is_cod (Some pm) = true.
Proof.
  intros Hin. unfold is_cod, str_or.
  destruct pm as [|c pm'].
  - simpl in Hin. intuition discriminate.
  - cbn [Str.nonempty].
    destruct Hin as [H | [H | [H | []]]]; rewrite <- H;
      rewrite String.eqb_refl; now rewrite ?orb_true_r.
Qed.

(** The session a cash-on-delivery submission leaves under its order id. *)
Lemma cod_branch_session σ e from oid cd s es :
  orderSessions (state (cod_branch σ e from oid cd s es)) !! oid
  = Some (cod_session (read_quote_cod (charges e)) s).
Proof.
  unfold cod_branch.
  destruct (created e) as [[|success]|]; cbn [state escaped acked].
  - apply lookup_insert_eq.
  - destruct (success && _); apply lookup_insert_eq.
  - apply lookup_insert_eq.
Qed.

Lemma submission_cod σ e ph cd :
  Customer.flow_token cd <> Some "test_101" ->
  is_cod (Customer.payment_mode cd) = true ->
  exists σ1 s,
    post_root σ e (submission ph cd)
    = cod_branch σ1 e (normalizePhone ph) (new_orderId (random e)) cd s
        [ sendWhatsAppText (normalizePhone ph)
            (received_details (new_orderId (random e))) ]
    /\ Session.amount s = Some (subtotal_of σ (normalizePhone ph))
    /\ Session.amount_or_0 s = subtotal_of σ (normalizePhone ph)
    /\ Session.orderId s = Some (new_orderId (random e)).
Proof.
  intros Htest Hcod.
  unfold post_root, submission, message. cbn [from content].
  unfold flow_submission.
  rewrite bool_decide_eq_false_2 by exact Htest.
  rewrite Hcod.
  eexists _, _. split; [reflexivity|].
  unfold Session.amount_or_0, Session.set_amount.
  cbn [Session.amount Session.orderId from_option id].
  rewrite orderSessions_arrive. unfold subtotal_of.
  rewrite !or_else_idem. auto.
Qed.

Lemma read_quote_cod_paise o : fst (read_quote_cod o) = quote_paise o.
Proof.
  unfold read_quote_cod, quote_paise, quote_total.
  destruct o as [[|[|[t|] l]|]|]; try reflexivity.
  now destruct (JS.truthy t).
Qed.

Lemma cod_session_amount q s :
  Session.amount (cod_session q s)
  = Some (fadd (fadd (Session.amount_or_0 s) codChargePaise) (fst q)).
Proof. now destruct q. Qed.

(** ** The catalog order *)

(** With the intent table of the source (loaded or not yet), a catalog
    order runs the catalog-order branch, which leaves [catalog_total] of the
    items as the amount recorded for the phone. *)
Lemma catalog_order_amount (σ : State) (e : Env) (ph : option string)
  (o : option Order) :
  intentBasedQA σ = parseIntentBasedQA \/ intentBasedQA σ = [] ->
  orderSessions (state (post_root σ e (message ph (order o))))
    !! normalizePhone ph ≫= Session.amount
  = Some (catalog_total (default [] (o ≫= product_items))).
Proof.
  intros Htable. unfold post_root, message. cbn [from content].
  assert (Hd : dispatch (arrive (now e) (normalizePhone ph) σ)
                 (normalizePhone ph) (order o) = catalog_order).
  { unfold dispatch. rewrite intentBasedQA_arrive.
    destruct Htable as [-> | ->]; vm_compute; reflexivity. }
  rewrite Hd. cbn [run_case plain reply_state state acked put_session
                   set_orderSessions orderSessions].
  rewrite lookup_insert_eq. reflexivity.
Qed.

(** C1 (the code departs from the claim).  A catalog order of one item at
    19.99 rupees leaves 1998.9999999999998 as the session amount, where the
    sum of [round(price * 100) * quantity] is 1999: the handler multiplies
    without rounding.  The amount also depends on the order of the items:
    the same three items give 3443.9999999999995 in one order and 3444 in
    another. *)
Theorem C1_catalog_amount_is_not_rounded :
  let item p := {| product_retailer_id := "m519x5gv9s"; item_price := p;
                   quantity := 1 |} in
  let r := post_root populated sample_env (sample_order [item 19.99%float]) in
  (orderSessions (state r) !! sample_phone ≫= Session.amount
   = Some 1998.9999999999998%float)
  /\ amount_by_spec [item 19.99%float] = 1999%float
  /\ catalog_total [item 19.99%float; item 4.35%float; item 10.1%float]
     = 3443.9999999999995%float
  /\ catalog_total [item 10.1%float; item 4.35%float; item 19.99%float]
     = 3444%float.
Proof. vm_compute. repeat split; reflexivity. Qed.

(** ** The cash-on-delivery branch *)

(** C2.  A delivery-details submission whose payment mode is, up to case,
    one of "cod", "cash on delivery", "cash-on-delivery" leaves under its
    order id a session whose amount is the product subtotal plus 15000 plus
    the quote in paise ([round(total_amount * 100)], or 0 when no total can be
    read from the quote); a quote of 50.00 adds 5000.  (A submission that
    carries the test token is ignored by the handler and opens no session.) *)
Theorem C2_cod_final_amount (σ : State) (e : Env) (ph : option string)
  (cd : Customer.t) (pm : string) :
  Customer.flow_token cd <> Some "test_101" ->
  Customer.payment_mode cd = Some pm ->
  In (Str.toLowerCase pm) ["cod"; "cash on delivery"; "cash-on-delivery"] ->
  let subtotal := subtotal_of σ (normalizePhone ph) in
  let r := post_root σ e (submission ph cd) in
  (session_after r e ≫= Session.amount
   = Some (fadd (fadd subtotal 15000%float) (quote_paise (charges e))))
  /\ (forall rest,
        charges e = Returns (charges_array (Some 50%float :: rest)) ->
        session_after r e ≫= Session.amount
        = Some (fadd (fadd subtotal 15000%float) 5000%float)).
Proof.
  intros Htest Hpm Hin subtotal r.
  assert (Hcod : is_cod (Customer.payment_mode cd) = true)
    by (rewrite Hpm; now apply is_cod_lower).
  destruct (submission_cod σ e ph cd Htest Hcod) as (σ1 & s & Hr & _ & Hs & _).
  assert (Hamount :
    session_after r e ≫= Session.amount
    = Some (fadd (fadd subtotal 15000%float) (quote_paise (charges e)))).
  { unfold session_after, r. rewrite Hr, cod_branch_session.
    cbn [mbind option_bind]. rewrite cod_session_amount, Hs, read_quote_cod_paise.
    reflexivity. }
  split; [exact Hamount|].
  intros rest Hq. rewrite Hamount, Hq. reflexivity.
Qed.

Lemma C2_cod_final_amount_witness :
  session_after
    (post_root after_order sample_env (submission (Some sample_phone) sample_customer))
    sample_env ≫= Session.amount
  = Some (fadd (fadd (subtotal_of after_order sample_phone) 15000%float) 5000%float).
Proof.
  refine (proj2 (C2_cod_final_amount after_order sample_env (Some sample_phone)
                   sample_customer "Cash on Delivery" _ _ _) [] _).
  - discriminate.
  - reflexivity.
  - vm_compute. tauto.
  - reflexivity.
Defined.

(** C5 (counterexample).  A quote of 50.00 rupees is read without trouble,
    and the flag of the session is [true] afterwards, where the claim wants
    [false]. *)
Lemma C5_flag_true_on_success :
  let r := post_root after_order sample_env
             (submission (Some sample_phone) sample_customer) in
  quote_total (charges sample_env) = Some 50%float
  /\ session_after r sample_env ≫= Session.cod_error = Some true.
Proof. vm_compute. split; reflexivity. Qed.

(** C5 (amended).  After a cash-on-delivery submission whose rate lookup
    threw or answered with a truthy body, the flag [cod_error] is [true]
    exactly when the total amount was read from the answer, and [false]
    exactly when the lookup threw or no total amount could be read.  (A lookup
    that answers with a falsy body is not covered.) *)
Theorem C5_cod_error_flag (σ : State) (e : Env) (ph : option string)
  (cd : Customer.t) :
  Customer.flow_token cd <> Some "test_101" ->
  is_cod (Customer.payment_mode cd) = true ->
  charges e <> Returns charges_falsy ->
  let flag := session_after (post_root σ e (submission ph cd)) e
              ≫= Session.cod_error in
  (flag = Some true <-> exists t, quote_total (charges e) = Some t)
  /\ (flag = Some false <->
        charges e = Throws
        \/ exists body, charges e = Returns body
                        /\ quote_total (charges e) = None).
Proof.
  intros Htest Hcod Hbody flag.
  destruct (submission_cod σ e ph cd Htest Hcod) as (σ1 & s & Hr & _).
  assert (Hflag : flag = Some (snd (read_quote_cod (charges e)))).
  { unfold flag, session_after. rewrite Hr, cod_branch_session.
    cbn [mbind option_bind]. now destruct (read_quote_cod (charges e)). }
  rewrite Hflag. clear Hflag flag Hr.
  unfold read_quote_cod, quote_total.
  destruct (charges e) as [[|[|[t|] l]|o]|]; cbn [snd];
    try destruct (JS.truthy t); cbn [snd]; naive_solver.
Qed.

Lemma C5_cod_error_flag_witness :
  session_after
    (post_root after_order sample_env (submission (Some sample_phone) sample_customer))
    sample_env ≫= Session.cod_error = Some true.
Proof.
  apply (proj1 (C5_cod_error_flag after_order sample_env (Some sample_phone)
                  sample_customer ltac:(discriminate) eq_refl
                  ltac:(discriminate))).
  exists 50%float. reflexivity.
Defined.

Lemma shipments_app es1 es2 :
  shipments (es1 ++ es2) = (shipments es1 ++ shipments es2)%list.
Proof.
  induction es1 as [|x es1 IH]; [reflexivity|].
  destruct x; cbn [shipments app]; now rewrite ?IH.
Qed.

(** The one shipment-creation request of the cash-on-delivery branch. *)
Lemma cod_branch_shipments σ e ph oid cd s es :
  shipments (effects (cod_branch σ e ph oid cd s es))
  = (shipments es
     ++ [ cod_shipment ph cd (cod_session (read_quote_cod (charges e)) s)
            (product_name_cod (Session.items s))
            (total_wgt_cod (Session.items s)) (now e) ])%list.
Proof.
  unfold cod_branch.
  destruct (created e) as [[|success]|]; try destruct (success && _);
    cbn [effects escaped acked];
    rewrite ?shipments_app; cbn [shipments app];
    rewrite ?app_nil_r; reflexivity.
Qed.

(** C10.  The shipment-creation request of a cash-on-delivery submission
    carries the same number as [cod_amount] and as [total_amount]: the final
    session amount (product subtotal, plus the 15000 paise of the fee, plus the
    shipping charge in paise) divided by 100 and rounded. *)
Theorem C10_cod_amount_is_grand_total (σ : State) (e : Env)
  (ph : option string) (cd : Customer.t) :
  Customer.flow_token cd <> Some "test_101" ->
  is_cod (Customer.payment_mode cd) = true ->
  let r := post_root σ e (submission ph cd) in
  let total :=
    fadd (fadd (subtotal_of σ (normalizePhone ph)) 15000%float)
         (quote_paise (charges e)) in
  exists shipment,
    shipments (effects r) = [shipment]
    /\ session_after r e ≫= Session.amount = Some total
    /\ Shipment.cod_amount shipment = Shipment.total_amount shipment
    /\ Shipment.cod_amount shipment = JS.round (fdiv total 100%float)
    /\ Shipment.payment_mode shipment = COD.
Proof.
  intros Htest Hcod r total.
  destruct (submission_cod σ e ph cd Htest Hcod) as (σ1 & s & Hr & _ & Hs & _).
  eexists. unfold r, session_after. rewrite Hr, cod_branch_shipments, cod_branch_session.
  cbn [shipments app mbind option_bind].
  split; [reflexivity|].
  rewrite cod_session_amount, Hs, read_quote_cod_paise.
  cbn [cod_shipment Shipment.cod_amount Shipment.total_amount Shipment.payment_mode].
  rewrite cod_session_amount, Hs, read_quote_cod_paise.
  repeat split; reflexivity.
Qed.

Lemma C10_cod_amount_is_grand_total_witness :
  exists shipment,
    shipments
      (effects (post_root after_order sample_env
                  (submission (Some sample_phone) sample_customer)))
    = [shipment]
    /\ Shipment.cod_amount shipment = 894%float
    /\ Shipment.total_amount shipment = 894%float.
Proof.
  destruct (C10_cod_amount_is_grand_total after_order sample_env
              (Some sample_phone) sample_customer ltac:(discriminate) eq_refl)
    as (shipment & Hs & _ & Heq & Hv & _).
  exists shipment. split; [exact Hs|].
  rewrite <- Heq, Hv. split; reflexivity.
Defined.

(** ** The acknowledgement *)

(** Whenever the shipment creation of a cash-on-delivery submission throws,
    the exception leaves the handler: no status is sent. *)
Lemma cod_shipment_throw_escapes (σ : State) (e : Env) (ph : option string)
  (cd : Customer.t) :
  Customer.flow_token cd <> Some "test_101" ->
  is_cod (Customer.payment_mode cd) = true ->
  created e = Throws ->
  response (post_root σ e (submission ph cd)) = no_response.
Proof.
  intros Htest Hcod Hthrow.
  destruct (submission_cod σ e ph cd Htest Hcod) as (σ1 & s & Hr & _).
  rewrite Hr. unfold cod_branch. now rewrite Hthrow.
Qed.

(** C4 (the code departs from the claim).  A cash-on-delivery submission
    whose shipment creation throws ends without any response: the handler
    does not acknowledge with 200. *)
Theorem C4_shipment_throw_is_not_acknowledged :
  let e := with_services (charges sample_env) Throws sample_env in
  response (post_root after_order e (submission (Some sample_phone) sample_customer))
  = no_response.
Proof. vm_compute. reflexivity. Qed.

(** C6 (the code departs from the claim).  When the rate quote throws and
    the shipment creation throws as well, the amount is the previous amount
    plus 15000 and no row is appended, but the only text the user gets is the
    receipt of the details: the "invalid data" message is not sent, and the
    handler ends without a response. *)
Theorem C6_quote_and_shipment_throw :
  let e := with_services Throws Throws sample_env in
  let r := post_root after_order e (submission (Some sample_phone) sample_customer) in
  subtotal_of after_order sample_phone = 69400%float
  /\ session_after r e ≫= Session.amount = Some 84400%float
  /\ appended_rows (effects r) = []
  /\ texts_to sample_phone (effects r) = [received_details "OUO-12345"]
  /\ response r = no_response.
Proof. vm_compute. repeat split; reflexivity. Qed.

(** What the claim says does hold when the shipment creation answers with an
    object: the amount is the subtotal plus 15000, no row is appended, and the
    user gets the "invalid data" message. *)
Lemma quote_throw_shipment_answers (σ : State) (e : Env) (ph : option string)
  (cd : Customer.t) (success : bool) :
  Customer.flow_token cd <> Some "test_101" ->
  is_cod (Customer.payment_mode cd) = true ->
  charges e = Throws ->
  created e = Returns (ship_object success) ->
  let r := post_root σ e (submission ph cd) in
  session_after r e ≫= Session.amount
  = Some (fadd (fadd (subtotal_of σ (normalizePhone ph)) 15000%float) 0%float)
  /\ appended_rows (effects r) = []
  /\ texts_to (normalizePhone ph) (effects r)
     = [ received_details (new_orderId (random e)); invalid_data ]
  /\ response r = status_200.
Proof.
  intros Htest Hcod Hq Hc r.
  destruct (submission_cod σ e ph cd Htest Hcod) as (σ1 & s & Hr & _ & Hs & _).
  unfold r, session_after. rewrite Hr, cod_branch_session.
  cbn [mbind option_bind]. rewrite cod_session_amount, Hs.
  unfold cod_branch. rewrite Hq, Hc. cbn [read_quote_cod fst snd].
  rewrite andb_false_r. cbn [effects response acked app appended_rows texts_to].
  rewrite String.eqb_refl. repeat split; reflexivity.
Qed.

(** ** Where the acknowledgement is sent *)

(** X2.  A request to the message handler ends without a response in two
    cases only: the message lacks a field the handler reads without a guard,
    or it is a cash-on-delivery submission whose shipment creation throws or
    answers [null].  Every other request is answered with 200. *)
Lemma post_root_acknowledges (σ : State) (e : Env) (q : Request) :
  response (app_post σ e q) = no_response <->
  (exists ph u, q = unguarded ph u)
  \/ exists ph cd,
       q = regular (submission ph cd)
       /\ Customer.flow_token cd <> Some "test_101"
       /\ is_cod (Customer.payment_mode cd) = true
       /\ (created e = Throws \/ created e = Returns ship_null).
Proof.
  split.
  - destruct q as [m|ph u]; [|intros _; left; eauto].
    cbn [app_post]. intros H. right. revert H.
    destruct m as [[ph c]|]; [|discriminate].
    unfold post_root. cbn [from content].
    destruct c as [b|[t|t|cd|]|o|t|]; try discriminate.
    unfold flow_submission.
    destruct (bool_decide _) eqn:Htest; [discriminate|].
    apply bool_decide_eq_false_1 in Htest.
    destruct (is_cod _) eqn:Hcod.
    + unfold cod_branch.
      destruct (created e) as [[|success]|] eqn:Hc;
        try destruct (success && _); try discriminate;
        intros _; exists ph, cd; auto.
    + unfold prepaid_branch.
      destruct (order_details e _ _) as [[s es] ok]. now destruct ok.
  - intros [(ph & u & ->) | (ph & cd & -> & Htest & Hcod & Hc)].
    + cbn [app_post]. unfold post_root_unguarded. now destruct u.
    + cbn [app_post].
      destruct (submission_cod σ e ph cd Htest Hcod) as (σ1 & s & Hr & _).
      rewrite Hr. unfold cod_branch. now destruct Hc as [-> | ->].
Qed.

(** ** The dispatcher *)

Lemma first_match_skip l : first_match (None :: l) = first_match l.
Proof. reflexivity. Qed.

Lemma first_match_take k l : first_match (Some k :: l) = Some k.
Proof. reflexivity. Qed.

(** The chain of the source selects the first entry of the ordered list. *)
Lemma dispatch_first_match σ ph c :
  first_match (priority σ ph c) = Some (dispatch σ ph c).
Proof.
  unfold dispatch, priority, when. cbv zeta.
  repeat
    match goal with
    | |- context [first_match ((if ?b then _ else _) :: _)] =>
        destruct b;
        [ rewrite first_match_take; reflexivity | rewrite first_match_skip ]
    | |- context [first_match ((_ <$> ?o) :: _)] =>
        destruct o; cbn [fmap option_fmap option_map];
        [ rewrite first_match_take; reflexivity | rewrite first_match_skip ]
    end.
  reflexivity.
Qed.

(** A message that contains a key of the table gets an answer from it. *)
Lemma partial_match_phrase table m :
  existsb (fun kv => Str.includes m (fst kv)) table = true ->
  is_Some (partial_match table m).
Proof.
  induction table as [|[key value] table IH]; cbn [existsb partial_match fst].
  - discriminate.
  - destruct (Str.includes m key); cbn [orb]; [eauto|].
    destruct (Str.includes key m); [eauto|]. exact IH.
Qed.

Lemma phrase_has_response table m :
  matches_phrase table m = true ->
  is_Some (findIntentBasedResponse table m).
Proof.
  intros H. apply partial_match_phrase in H. unfold findIntentBasedResponse.
  destruct (intent_get table _); [eauto|].
  destruct H as [v ->]. eauto.
Qed.

(** C3 (counterexample).  The text "track your order 12345678901234"
    contains a 14-digit number and a phrase of the intent table; it is
    answered from the intent table, and no tracking link is sent. *)
Lemma C3_intent_wins_over_awb :
  let c := text (Some "track your order 12345678901234") in
  let r := post_root populated sample_env (message (Some sample_phone) c) in
  Awb.match_ (msgBody_of c) = Some "12345678901234"
  /\ matches_phrase (intentBasedQA populated) (msgBody_of c) = true
  /\ dispatch populated sample_phone c
     = intent_reply {| answer := "Please type your 14 digit AWB in chat";
                       intents := None |}
  /\ effects r
     = [ sendWhatsAppText sample_phone
           (reply "Please type your 14 digit AWB in chat") ].
Proof. vm_compute. repeat split; reflexivity. Qed.

(** C3 (amended).  A delivery-details submission is handled first, by the
    flow handler alone.  Every other message runs exactly one branch, the
    first of the ordered list [priority] whose condition holds: main menu,
    intent table, 14-digit tracking number, greeting, sourcing story,
    nutrition info, view products, have a query, the four small-talk replies,
    catalog order, reminder follow-up, and the AI fallback last.  The payment
    webhook is another endpoint and no part of this chain.  In particular a
    text that contains a 14-digit number and a phrase of the intent table is
    answered from the intent table, not with a tracking link. *)
Theorem C3_dispatch_priority (σ : State) (e : Env) (ph : option string)
  (c : Content) :
  let phone := normalizePhone ph in
  let σ1 := arrive (now e) phone σ in
  (forall cd,
      post_root σ e (message ph (interactive (nfm_reply cd)))
      = flow_submission σ1 e phone cd)
  /\ ((forall cd, c <> interactive (nfm_reply cd)) ->
      first_match (priority σ1 phone c) = Some (dispatch σ1 phone c)
      /\ post_root σ e (message ph c)
         = let r := run_case σ1 e phone c (dispatch σ1 phone c) in
           acked (reply_state r) (reply_effects r ++ send_reply phone r))
  /\ (Awb.test (msgBody_of c) = true ->
      matches_phrase (intentBasedQA σ) (msgBody_of c) = true ->
      (forall cd, c <> interactive (nfm_reply cd)) ->
      exists i,
        dispatch σ1 phone c = intent_reply i
        /\ effects (post_root σ e (message ph c))
           = send_reply phone (run_case σ1 e phone c (intent_reply i))).
Proof.
  intros phone σ1.
  assert (Hpost : (forall cd, c <> interactive (nfm_reply cd)) ->
    post_root σ e (message ph c)
    = let r := run_case σ1 e phone c (dispatch σ1 phone c) in
      acked (reply_state r) (reply_effects r ++ send_reply phone r)).
  { intros Hc. unfold post_root, message. cbn [from content].
    destruct c as [b|[t|t|cd|]|o|t|]; try reflexivity.
    now destruct (Hc cd). }
  split; [reflexivity|]. split.
  - intros Hc. split; [apply dispatch_first_match | now apply Hpost].
  - intros Hawb Hphrase Hc.
    apply phrase_has_response in Hphrase. destruct Hphrase as [i Hi].
    exists i.
    assert (Hd : dispatch σ1 phone c = intent_reply i).
    { unfold dispatch. unfold σ1 at 1. rewrite intentBasedQA_arrive, Hi.
      destruct (String.eqb_spec (msgBody_of c) "main menu") as [Heq|_].
      { rewrite Heq in Hawb. discriminate Hawb. }
      destruct (String.eqb_spec (msgBody_of c) "Main Menu") as [Heq|_].
      { rewrite Heq in Hawb. discriminate Hawb. }
      reflexivity. }
    split; [exact Hd|].
    rewrite (Hpost Hc), Hd. cbn zeta. cbn [effects acked].
    unfold run_case. destruct (intents i) as [[|x l]|]; reflexivity.
Qed.

(** ** The payment webhook *)

Lemma referenceId_order w :
  referenceId w
  = first_present [ payment_link w ≫= link_reference_id;
                    payment w ≫= payment_reference_id;
                    payment w ≫= notes_orderId ].
Proof.
  unfold referenceId, first_truthy, str_truthy. cbn [first_present].
  destruct (payment_link w ≫= link_reference_id) as [a|];
    destruct (payment w ≫= payment_reference_id) as [b|];
    destruct (payment w ≫= notes_orderId) as [c|];
    repeat match goal with
           | |- context [Str.nonempty ?s] => destruct (Str.nonempty s) eqn:?
           end; congruence.
Qed.

(** The handler does resolve a stored session as the specification says:
    by the reference id when a session is stored under it. *)
Lemma resolve_by_reference σ w r s :
  referenceId w = Some r -> orderSessions σ !! r = Some s ->
  find_session σ w = an_object (in_store r) s
  /\ resolve_session σ w = Some (r, s).
Proof.
  intros Hr Hs.
  assert (H : find_session σ w = an_object (in_store r) s).
  { unfold find_session, found_under, orderSessions_get. now rewrite Hr, Hs. }
  split; [exact H|]. unfold resolve_session. now rewrite H.
Qed.

(** C7 (the code departs from the claim).  [orderSessions] is a plain
    object, and the handler looks the reference id up in it with
    [orderSessions[referenceId]].  For the reference id "toString" no session
    is stored and the phone gives none, so the claim has the handler do
    nothing; but the lookup finds the method every object inherits, takes it
    for the session and runs the finalizer on it: the confirmation goes to an
    empty recipient, a quote and a prepaid shipment for "Customer" are asked
    for, a "Paid" row is appended, and [payment_status] and [shipping_charge]
    are written on the function.  With "__proto__" they are written on
    [Object.prototype] itself. *)
Theorem C7_inherited_reference_id :
  let w := sample_webhook (Some "toString") None in
  let r := payments_webhook populated sample_env w in
  let r' := payments_webhook populated sample_env
              (sample_webhook (Some "__proto__") None) in
  referenceId w = Some "toString"
  /\ orderSessions populated = ∅
  /\ session_by_claim populated w = None
  /\ response r = status_200
  /\ texts_to "" (effects r) = [payment_successful; shipment_created]
  /\ map Shipment.name (shipments (effects r)) = ["Customer"]
  /\ map SheetRow.status (appended_rows (effects r)) = ["Paid"]
  /\ inherited (state r) !! "toString" ≫= Session.payment_status = Some paid
  /\ inherited (state r') !! "__proto__" ≫= Session.payment_status = Some paid
  /\ inherited (state r') !! "__proto__" ≫= Session.shipping_charge
     = Some 5000%float.
Proof. vm_compute. repeat split; reflexivity. Qed.

Example webhook_by_reference :
  let σ := state (post_root after_order sample_env
                    (submission (Some sample_phone) sample_customer)) in
  fst <$> resolve_session σ (sample_webhook (Some "OUO-12345") None)
  = Some "OUO-12345".
Proof. vm_compute. reflexivity. Qed.

Example webhook_by_phone :
  let σ := state (post_root after_order sample_env
                    (submission (Some sample_phone) sample_customer)) in
  fst <$> resolve_session σ (sample_webhook (Some "OUO-00000") (Some "+91 98765 43210"))
  = Some "OUO-12345".
Proof. vm_compute. reflexivity. Qed.

Example webhook_unknown :
  payments_webhook after_order sample_env (sample_webhook (Some "OUO-00000") None)
  = acked after_order [].
Proof. vm_compute. reflexivity. Qed.

(** The phone of the fallback is the phone of the payer. *)
Lemma fallback_phone_payer w : fallback_phone w = payer_phone w.
Proof.
  assert (Hempty : forall s, Str.nonempty s = false -> s = "")
    by (intros [|c s] H; [reflexivity|discriminate H]).
  unfold fallback_phone, payer_phone, str_truthy.
  destruct (payment w) as [p|]; cbn [mbind option_bind].
  - destruct (Str.nonempty (normalizePhone (contact p))) eqn:Hp;
      cbn [negb andb]; [reflexivity|].
    apply Hempty in Hp. rewrite Hp.
    destruct (payment_link w ≫= customer_contact) as [c|]; [|reflexivity].
    destruct (Str.nonempty c) eqn:Hc; [reflexivity|].
    apply Hempty in Hc. now subst c.
  - change (Str.nonempty (normalizePhone None)) with false. cbn [negb andb].
    destruct (payment_link w ≫= customer_contact) as [c|]; [|reflexivity].
    destruct (Str.nonempty c) eqn:Hc; [reflexivity|].
    apply Hempty in Hc. now subst c.
Qed.

Lemma found_under_only_own σ key :
  only_own key = true ->
  found_under σ key
  = match orderSessions σ !! key with
    | Some s => an_object (in_store key) s
    | None => no_session
    end.
Proof.
  unfold only_own, found_under, orderSessions_get. intros H.
  destruct (orderSessions σ !! key); [reflexivity|].
  destruct (existsb (String.eqb key) inherited_names); [discriminate H|].
  destruct (String.eqb key "payment_status"); [discriminate H|].
  destruct (String.eqb key "shipping_charge"); [discriminate H|].
  reflexivity.
Qed.

(** X26.  Away from the names of [Object.prototype] the webhook resolves its
    session as the specification says.  When neither the reference id nor the
    order id created last for the phone of the payer is such a name, the
    session is the one stored under the first reference id present among
    [payment_link.reference_id], [payment.reference_id] and
    [payment.notes.orderId]; when none is stored under it, the one stored
    under the order id created last for the phone; and when there is none
    either way the handler changes nothing, asks nothing of any service and
    answers 200. *)
Theorem webhook_resolves_stored_sessions (σ : State) (e : Env) (w : Webhook) :
  (forall key, referenceId w = Some key \/ lastOrderId σ w = Some key ->
               only_own key = true) ->
  referenceId w = reference_by_claim w
  /\ find_session σ w
     = match session_by_claim σ w with
       | Some (key, s) => an_object (in_store key) s
       | None => no_session
       end
  /\ resolve_session σ w = session_by_claim σ w
  /\ (session_by_claim σ w = None -> payments_webhook σ e w = acked σ []).
Proof.
  intros Hown.
  assert (Hfind : find_session σ w
                  = match session_by_claim σ w with
                    | Some (key, s) => an_object (in_store key) s
                    | None => no_session
                    end).
  { unfold find_session, session_by_claim, session_by_phone.
    rewrite <- fallback_phone_payer.
    unfold reference_by_claim. rewrite <- referenceId_order.
    assert (Hlast : match lastOrderId σ w with
                    | Some k => found_under σ k
                    | None => no_session
                    end
                    = match (if Str.nonempty (fallback_phone w)
                             then ids ← phoneToOrderIds σ !! fallback_phone w;
                                  k ← List.last (Some <$> ids) None;
                                  s ← orderSessions σ !! k;
                                  Some (k, s)
                             else None) with
                      | Some (key, s) => an_object (in_store key) s
                      | None => no_session
                      end).
    { destruct (lastOrderId σ w) as [k|] eqn:Hk.
      - rewrite (found_under_only_own σ k (Hown k (or_intror eq_refl))).
        unfold lastOrderId in Hk.
        destruct (Str.nonempty (fallback_phone w)); [|discriminate Hk].
        destruct (phoneToOrderIds σ !! fallback_phone w) as [ids|];
          [|discriminate Hk].
        cbn [mbind option_bind]. rewrite Hk. cbn [mbind option_bind].
        now destruct (orderSessions σ !! k).
      - unfold lastOrderId in Hk.
        destruct (Str.nonempty (fallback_phone w)); [|reflexivity].
        destruct (phoneToOrderIds σ !! fallback_phone w) as [ids|];
          [|reflexivity].
        cbn [mbind option_bind]. now rewrite Hk. }
    destruct (referenceId w) as [r|] eqn:Hr; cbn [mbind option_bind].
    - rewrite (found_under_only_own σ r (Hown r (or_introl eq_refl))).
      destruct (orderSessions σ !! r) as [s|];
        cbn [fmap option_fmap option_map]; [reflexivity|exact Hlast].
    - exact Hlast. }
  split; [apply referenceId_order|]. split; [exact Hfind|]. split.
  - unfold resolve_session. rewrite Hfind.
    now destruct (session_by_claim σ w) as [[key s]|].
  - intros Hnone. unfold payments_webhook. now rewrite Hfind, Hnone.
Qed.

Lemma webhook_resolves_stored_sessions_witness :
  let σ := state (post_root after_order sample_env
                    (submission (Some sample_phone) sample_customer)) in
  let w := sample_webhook (Some "OUO-00000") (Some "+91 98765 43210") in
  fst <$> session_by_claim σ w = Some "OUO-12345"
  /\ fst <$> resolve_session σ w = Some "OUO-12345".
Proof.
  intros σ w. split; [vm_compute; reflexivity|].
  assert (Hown : forall key,
             referenceId w = Some key \/ lastOrderId σ w = Some key ->
             only_own key = true)
    by (intros key [H|H]; vm_compute in H; inversion H; reflexivity).
  rewrite (proj1 (proj2 (proj2
             (webhook_resolves_stored_sessions σ sample_env w Hown)))).
  vm_compute. reflexivity.
Defined.

(** ** Order ids *)

Lemma digit_char_mod d : digit_char (d mod 10) = digit_char d.
Proof. unfold digit_char. now rewrite Nat.Div0.mod_mod. Qed.

Lemma digit_char_is_digit d : Str.is_digit (digit_char d) = true.
Proof.
  rewrite <- digit_char_mod.
  pose proof (Nat.mod_upper_bound d 10 ltac:(lia)) as Hlt.
  set (k := (d mod 10)%nat) in *.
  do 10 (destruct k as [|k]; [reflexivity|]). lia.
Qed.

Lemma digit_char_in_ten d : In (digit_char d) ten_digits.
Proof.
  rewrite <- digit_char_mod. apply in_map, in_seq.
  pose proof (Nat.mod_upper_bound d 10 ltac:(lia)). lia.
Qed.

Lemma new_orderId_format draws : orderId_format (new_orderId draws) = true.
Proof.
  unfold orderId_format, new_orderId, randomUUID.
  unfold String.append. cbn -[digit_char Str.is_digit]. now rewrite !digit_char_is_digit.
Qed.

Lemma new_orderId_in_all draws : In (new_orderId draws) all_orderIds.
Proof.
  unfold all_orderIds, new_orderId, randomUUID.
  apply in_map_iff.
  exists (digit_char (hd O draws),
          (digit_char (hd O (tl draws)),
           (digit_char (hd O (tl (tl draws))),
            (digit_char (hd O (tl (tl (tl draws)))),
             digit_char (hd O (tl (tl (tl (tl draws))))))))).
  split; [reflexivity|].
  repeat (apply in_prod; [apply digit_char_in_ten|]).
  apply digit_char_in_ten.
Qed.

Lemma all_orderIds_length : Z.of_nat (List.length all_orderIds) = 100000.
Proof.
  unfold all_orderIds. rewrite length_map, !length_prod.
  change (List.length ten_digits) with 10%nat. lia.
Qed.

Lemma phoneToOrderIds_arrive t phone σ :
  phoneToOrderIds (arrive t phone σ) !! phone
  = Some (default [] (phoneToOrderIds σ !! phone)).
Proof.
  unfold arrive, rearm.
  destruct (phoneToOrderIds σ !! phone) as [ids|] eqn:Hids;
    destruct (bool_decide _); cbn; rewrite ?Hids; try reflexivity;
    apply lookup_insert_eq.
Qed.

Lemma submission_records_orderId σ e ph cd :
  Customer.flow_token cd <> Some "test_101" ->
  let r := post_root σ e (submission ph cd) in
  phoneToOrderIds (state r) !! normalizePhone ph
  = Some (default [] (phoneToOrderIds σ !! normalizePhone ph)
          ++ [new_orderId (random e)])%list
  /\ session_after r e ≫= Session.orderId = Some (new_orderId (random e)).
Proof.
  intros Htest r. unfold r, session_after, post_root, submission, message.
  cbn [from content]. unfold flow_submission.
  rewrite bool_decide_eq_false_2 by exact Htest.
  destruct (is_cod _).
  - unfold cod_branch.
    destruct (created e) as [[|success]|]; try destruct (success && _);
      cbn [state escaped acked put_session set_orderSessions
           set_phoneToOrderIds phoneToOrderIds orderSessions];
      rewrite !lookup_insert_eq, phoneToOrderIds_arrive;
      (split; [reflexivity|]);
      now destruct (read_quote_cod (charges e)).
  - unfold prepaid_branch.
    destruct (order_details e _ _) as [[s es] ok] eqn:Hod.
    assert (Hs : Session.orderId s = Some (new_orderId (random e))).
    { unfold order_details in Hod.
      destruct (negb _); now inversion Hod. }
    destruct ok;
      cbn [state acked put_session set_orderSessions
           set_phoneToOrderIds phoneToOrderIds orderSessions];
      rewrite !lookup_insert_eq, phoneToOrderIds_arrive;
      (split; [reflexivity|]); exact Hs.
Qed.

(** C8 (the code departs from the claim).  The order id is drawn at random
    among the 100000 strings [OUO-] and five digits, and the handler stores
    the session under it without looking whether a session is stored there
    already.  When the draws of two submissions are the same, here for two
    phones, both are given the order id OUO-12345, and the session of the
    second replaces that of the first: the first order can no longer be found
    under its id.  The ids do have the format, so that whatever the draws
    are, the ids of more than 100000 submissions are not all distinct. *)
Theorem C8_repeated_orderId_replaces_session :
  let r1 := post_root after_order sample_env
              (submission (Some sample_phone) sample_customer) in
  let r2 := post_root (state r1) (at_time 2000 sample_env)
              (submission (Some "918888888888") sample_customer) in
  orderSessions (state r1) !! "OUO-12345" ≫= Session.phone = Some sample_phone
  /\ phoneToOrderIds (state r2) !! sample_phone = Some ["OUO-12345"]
  /\ phoneToOrderIds (state r2) !! "918888888888" = Some ["OUO-12345"]
  /\ orderSessions (state r2) !! "OUO-12345" ≫= Session.phone
     = Some "918888888888"
  /\ (forall draws, orderId_format (new_orderId draws) = true)
  /\ (forall l : list (list nat),
        100000 < Z.of_nat (List.length l) -> ~ List.NoDup (map new_orderId l)).
Proof.
  split; [vm_compute; reflexivity|]. split; [vm_compute; reflexivity|].
  split; [vm_compute; reflexivity|]. split; [vm_compute; reflexivity|].
  split; [exact new_orderId_format|].
  intros l Hlen Hnodup.
  apply NoDup_incl_length with (l' := all_orderIds) in Hnodup.
  - rewrite length_map in Hnodup. pose proof all_orderIds_length. lia.
  - intros id Hin. apply in_map_iff in Hin as (d & <- & _).
    apply new_orderId_in_all.
Qed.

(** ** The idle timer *)

Lemma timers_ok_part σ σ' :
  timer_part σ' = timer_part σ -> timers_ok σ -> timers_ok σ'.
Proof.
  unfold timer_part, timers_ok. intros H. injection H as -> -> ->. auto.
Qed.

Lemma timers_of_part phone σ σ' :
  timer_part σ' = timer_part σ -> timers_of phone σ' = timers_of phone σ.
Proof. unfold timer_part, timers_of. now intros [= _ -> _]. Qed.

Lemma in_clearTimeout x h p :
  In x (clearTimeout h p) <-> In x p /\ handle x <> h.
Proof.
  unfold clearTimeout. rewrite filter_In, negb_true_iff, Nat.eqb_neq. tauto.
Qed.

Lemma NoDup_handles_filter (f : Timer -> bool) p :
  List.NoDup (map handle p) -> List.NoDup (map handle (List.filter f p)).
Proof.
  induction p as [|x p IH]; cbn [List.filter map]; [auto|].
  intros H. inversion H as [|? ? Hnotin Hnodup]; subst.
  destruct (f x); cbn [map]; [|now apply IH].
  constructor; [|now apply IH].
  intros Hin. apply Hnotin. apply in_map_iff in Hin as (y & Hy & Hin).
  apply in_map_iff. exists y. split; [exact Hy|].
  now apply filter_In in Hin.
Qed.

Lemma timers_ok_rearm t phone σ : timers_ok σ -> timers_ok (rearm t phone σ).
Proof.
  intros [Hnodup Hall]. unfold rearm.
  destruct (bool_decide _); [now split|].
  set (p := match idleTimers σ !! phone with
            | Some h => clearTimeout h (pending σ)
            | None => pending σ
            end).
  assert (Hp : forall x, In x p ->
            In x (pending σ) /\ timer_phone x <> phone).
  { intros x Hx. unfold p in Hx.
    destruct (idleTimers σ !! phone) as [h|] eqn:Hh.
    - apply in_clearTimeout in Hx as [Hx Hne]. split; [exact Hx|].
      intros Heq. destruct (Hall x Hx) as [_ Hrec].
      rewrite Heq, Hh in Hrec. congruence.
    - split; [exact Hx|]. intros Heq. destruct (Hall x Hx) as [_ Hrec].
      rewrite Heq, Hh in Hrec. discriminate. }
  assert (Hnodup_p : List.NoDup (map handle p)).
  { unfold p. destruct (idleTimers σ !! phone);
      [now apply NoDup_handles_filter | exact Hnodup]. }
  unfold timers_ok, set_timers; cbn [pending next_handle idleTimers]. split.
  - rewrite map_app. cbn [map handle].
    apply List.NoDup_app; [exact Hnodup_p | |].
    { constructor; [intros [] | constructor]. }
    intros a Hin [<-|[]]. apply in_map_iff in Hin as (y & Hy & Hin).
    destruct (Hp y Hin) as [Hin' _]. destruct (Hall y Hin') as [Hlt _]. lia.
  - intros x Hx. apply in_app_iff in Hx as [Hx|[<-|[]]].
    + destruct (Hp x Hx) as [Hin Hne]. destruct (Hall x Hin) as [Hlt Hrec].
      split; [lia|]. rewrite lookup_insert_ne by congruence. exact Hrec.
    + cbn [handle timer_phone]. split; [lia|]. apply lookup_insert_eq.
Qed.

(** After the timer block ran for a phone that has not completed, the phone
    has exactly the timer that was just armed. *)
Lemma timers_of_rearm t phone σ :
  timers_ok σ -> phone ∉ completedUsers σ ->
  timers_of phone (rearm t phone σ)
  = [ {| handle := next_handle σ; timer_phone := phone;
         due := t + idle_delay |} ].
Proof.
  intros [_ Hall] Hnot. unfold rearm.
  rewrite bool_decide_eq_false_2 by exact Hnot.
  unfold timers_of, set_timers; cbn [pending].
  rewrite List.filter_app. cbn [List.filter timer_phone]. rewrite String.eqb_refl.
  replace (List.filter _ _) with (@nil Timer); [reflexivity|].
  symmetry.
  match goal with |- List.filter ?f ?p = [] =>
    assert (Hnone : forall x, In x p -> f x = false) end.
  { intros x Hx. apply String.eqb_neq. intros Heq.
    destruct (idleTimers σ !! phone) as [h|] eqn:Hh.
    - apply in_clearTimeout in Hx as [Hx Hne].
      destruct (Hall x Hx) as [_ Hrec]. rewrite Heq, Hh in Hrec. congruence.
    - destruct (Hall x Hx) as [_ Hrec]. rewrite Heq, Hh in Hrec. discriminate. }
  match goal with |- List.filter ?f ?p = [] => induction p as [|y q IH] end;
    cbn [List.filter]; [reflexivity|].
  rewrite Hnone by (now left). apply IH. intros x Hx. apply Hnone. now right.
Qed.

Lemma timer_part_flow σ e phone cd :
  timer_part (state (flow_submission σ e phone cd)) = timer_part σ.
Proof.
  unfold flow_submission. destruct (bool_decide _); [reflexivity|].
  destruct (is_cod _).
  - unfold cod_branch.
    now destruct (created e) as [[|success]|]; try destruct (success && _).
  - unfold prepaid_branch.
    destruct (order_details e _ _) as [[s es] ok]. now destruct ok.
Qed.

Lemma timer_part_run_case σ e phone c k :
  timer_part (reply_state (run_case σ e phone c k)) = timer_part σ.
Proof.
  unfold run_case. destruct k; try reflexivity.
  - now destruct (intents _) as [[|x l]|].
  - destruct (Email.match_ _); [|reflexivity].
    destruct (Nat.leb _ _); [|reflexivity].
    now destruct (customer_sheet_appended e).
Qed.

Lemma timer_part_payments σ e w :
  timer_part (state (payments_webhook σ e w)) = timer_part σ.
Proof.
  unfold payments_webhook.
  destruct (find_session σ w) as [[key|name] s| |]; [ | | |reflexivity];
    (destruct (Str.includes _ "paid");
     [ try reflexivity; now destruct (finalizePaidOrder e s)
     | now destruct (_ || _) ]).
Qed.

Lemma timer_part_arrive t phone σ :
  timer_part (arrive t phone σ) = timer_part (rearm t phone σ).
Proof.
  unfold arrive. destruct (phoneToOrderIds σ !! phone); [reflexivity|].
  unfold rearm. cbn [completedUsers set_phoneToOrderIds].
  now destruct (bool_decide _).
Qed.

Lemma timer_part_post_root σ e ph c :
  timer_part (state (post_root σ e (message ph c)))
  = timer_part (rearm (now e) (normalizePhone ph) σ).
Proof.
  rewrite <- timer_part_arrive. unfold post_root, message. cbn [from content].
  destruct c as [b|[t|t|cd|]|o|t|];
    try (cbn [state acked]; apply timer_part_run_case).
  apply timer_part_flow.
Qed.

Lemma completedUsers_arrive t phone σ :
  completedUsers (arrive t phone σ) = completedUsers σ.
Proof.
  unfold arrive, rearm.
  destruct (phoneToOrderIds σ !! phone); now destruct (bool_decide _).
Qed.

Lemma timers_ok_fire t h σ : timers_ok σ -> timers_ok (fst (fire t h σ)).
Proof.
  intros Hok. unfold fire.
  destruct (List.find _ _) as [x|]; [|exact Hok].
  destruct (due x <=? t); [|exact Hok].
  assert (Hok' : timers_ok
            (set_timers (idleTimers σ) (clearTimeout h (pending σ))
               (next_handle σ) σ)).
  { destruct Hok as [Hnodup Hall]. split; cbn [pending set_timers].
    - now apply NoDup_handles_filter.
    - intros y Hy. apply in_clearTimeout in Hy as [Hy _]. now apply Hall. }
  destruct (bool_decide _); exact Hok'.
Qed.

Lemma timer_part_unguarded σ e ph u :
  timer_part (state (post_root_unguarded σ e ph u))
  = match u with
    | answers_missing => timer_part (rearm (now e) (normalizePhone ph) σ)
    | _ => timer_part σ
    end.
Proof.
  unfold post_root_unguarded.
  destruct u; cbn [state escaped];
    try (now destruct (phoneToOrderIds σ !! normalizePhone ph)).
  rewrite <- timer_part_arrive. reflexivity.
Qed.

Lemma timer_part_reminder_sent phone σ :
  timer_part (reminder_sent phone σ) = timer_part σ.
Proof. unfold reminder_sent. now destruct (existsb _ _). Qed.

Lemma timers_ok_step σ σ' : step σ σ' -> timers_ok σ -> timers_ok σ'.
Proof.
  intros Hstep Hok.
  destruct Hstep as [σ|σ e [msg|]|σ e w|σ e ph u|σ t h|σ phone].
  - exact Hok.
  - destruct msg as [ph c].
    apply (timers_ok_part (rearm (now e) (normalizePhone ph) σ)).
    + apply (timer_part_post_root σ e ph c).
    + now apply timers_ok_rearm.
  - exact Hok.
  - apply (timers_ok_part σ); [apply timer_part_payments | exact Hok].
  - destruct u.
    + apply (timers_ok_part σ); [apply (timer_part_unguarded σ e ph) | exact Hok].
    + apply (timers_ok_part σ); [apply (timer_part_unguarded σ e ph) | exact Hok].
    + apply (timers_ok_part (rearm (now e) (normalizePhone ph) σ)).
      * apply (timer_part_unguarded σ e ph answers_missing).
      * now apply timers_ok_rearm.
  - now apply timers_ok_fire.
  - apply (timers_ok_part σ); [apply timer_part_reminder_sent | exact Hok].
Qed.

Lemma timers_ok_initial : timers_ok initial.
Proof. split; [constructor | intros x []]. Qed.

Lemma reachable_timers_ok σ : reachable σ -> timers_ok σ.
Proof.
  induction 1 as [|σ σ' _ IH Hstep]; [apply timers_ok_initial|].
  now apply (timers_ok_step σ).
Qed.

(** At most one timer is pending for a phone. *)
Lemma one_timer_per_phone phone σ :
  timers_ok σ -> (List.length (timers_of phone σ) <= 1)%nat.
Proof.
  intros [Hnodup Hall].
  assert (Hsame : forall x y, In x (timers_of phone σ) ->
            In y (timers_of phone σ) -> handle x = handle y).
  { intros x y Hx Hy. unfold timers_of in *.
    apply filter_In in Hx as [Hx Hpx], Hy as [Hy Hpy].
    apply String.eqb_eq in Hpx, Hpy.
    destruct (Hall x Hx) as [_ Hrx], (Hall y Hy) as [_ Hry].
    rewrite Hpx in Hrx. rewrite Hpy in Hry. congruence. }
  assert (Hnd : List.NoDup (map handle (timers_of phone σ)))
    by now apply NoDup_handles_filter.
  destruct (timers_of phone σ) as [|x [|y l]]; cbn [List.length]; try lia.
  exfalso. inversion Hnd as [|? ? Hnotin _]; subst. apply Hnotin.
  left. symmetry. apply Hsame; cbn; auto.
Qed.

(** *** Counting the reminders to one phone *)

Section Reminders.

Variable phone : string.

Lemma reminders_to_app es1 es2 :
  reminders_to phone (es1 ++ es2)
  = (reminders_to phone es1 + reminders_to phone es2)%nat.
Proof.
  induction es1 as [|x es1 IH]; [reflexivity|].
  destruct x as [to t| | | | | | | | | | | | | |]; cbn [reminders_to app];
    try exact IH.
  destruct t; try exact IH. rewrite IH. lia.
Qed.

(** The callback of a timer uses up the timer: the reminders it sends to a
    phone and the timers the phone still has are together no more than the
    timers the phone had. *)
Lemma fire_uses_timer t h σ :
  (reminders_to phone (snd (fire t h σ))
   + List.length (timers_of phone (fst (fire t h σ)))
   <= List.length (timers_of phone σ))%nat.
Proof.
  unfold fire.
  destruct (List.find _ _) as [x|] eqn:Hfind; [|cbn; lia].
  destruct (due x <=? t); [|cbn; lia].
  apply find_some in Hfind as [Hin Hx]. apply Nat.eqb_eq in Hx.
  assert (Hlen :
    ((if String.eqb (timer_phone x) phone then 1 else 0)
     + List.length
         (List.filter (fun y => String.eqb (timer_phone y) phone)
            (clearTimeout h (pending σ)))
     <= List.length
          (List.filter (fun y => String.eqb (timer_phone y) phone) (pending σ)))%nat).
  { clear -Hin Hx. induction (pending σ) as [|y p IH]; [destruct Hin|].
    cbn [clearTimeout List.filter].
    assert (Hmono :
      (List.length
         (List.filter (fun y => String.eqb (timer_phone y) phone)
            (clearTimeout h p))
       <= List.length
            (List.filter (fun y => String.eqb (timer_phone y) phone) p))%nat).
    { clear. induction p as [|z p IH]; [reflexivity|].
      cbn [clearTimeout List.filter].
      destruct (negb (Nat.eqb (handle z) h)); cbn [List.filter];
        destruct (String.eqb (timer_phone z) phone); cbn [List.length];
        fold (clearTimeout h p); lia. }
    destruct Hin as [->|Hin].
    - rewrite Hx, Nat.eqb_refl. cbn [negb]. fold (clearTimeout h p).
      destruct (String.eqb (timer_phone x) phone); cbn [List.length]; lia.
    - specialize (IH Hin). fold (clearTimeout h p).
      destruct (negb (Nat.eqb (handle y) h)); cbn [List.filter];
        destruct (String.eqb (timer_phone y) phone); cbn [List.length]; lia. }
  destruct (bool_decide _); unfold timers_of;
    cbn [fst snd pending set_timers set_reminding reminders_to];
    destruct (String.eqb (timer_phone x) phone); lia.
Qed.

Lemma fire_all_uses_timers schedule σ :
  (reminders_to phone (snd (fire_all schedule σ))
   + List.length (timers_of phone (fst (fire_all schedule σ)))
   <= List.length (timers_of phone σ))%nat.
Proof.
  revert σ. induction schedule as [|[t h] rest IH]; intros σ; [cbn; lia|].
  cbn [fire_all].
  pose proof (fire_uses_timer t h σ) as H1.
  destruct (fire t h σ) as [σ1 es1]. cbn [fst snd] in H1.
  specialize (IH σ1). destruct (fire_all rest σ1) as [σ2 es2].
  cbn [fst snd] in *. rewrite reminders_to_app. lia.
Qed.

Lemma timers_of_fire_incl t h σ x :
  In x (timers_of phone (fst (fire t h σ))) -> In x (timers_of phone σ).
Proof.
  unfold fire.
  destruct (List.find _ _) as [y|]; [|auto].
  destruct (due y <=? t); [|auto].
  destruct (bool_decide _); unfold timers_of; cbn [fst pending set_timers set_reminding];
    intros Hx; apply filter_In in Hx as [Hx Hp];
    apply (proj1 (in_clearTimeout x h (pending σ))) in Hx as [Hx _];
    apply filter_In; now split.
Qed.

(** No reminder goes to a phone while none of its timers is due. *)
Lemma no_reminder_before_due T schedule σ :
  (forall x, In x (timers_of phone σ) -> T < due x) ->
  (forall t h, In (t, h) schedule -> t <= T) ->
  reminders_to phone (snd (fire_all schedule σ)) = O.
Proof.
  revert σ. induction schedule as [|[t h] rest IH]; intros σ Hdue Hsched;
    [reflexivity|].
  cbn [fire_all].
  assert (Hfire : reminders_to phone (snd (fire t h σ)) = O).
  { unfold fire.
    destruct (List.find _ _) as [x|] eqn:Hfind; [|reflexivity].
    destruct (due x <=? t) eqn:Hle; [|reflexivity].
    destruct (bool_decide _); [reflexivity|].
    cbn [snd reminders_to].
    destruct (String.eqb_spec (timer_phone x) phone) as [Heq|_]; [|reflexivity].
    exfalso. apply find_some in Hfind as [Hin _].
    assert (Hx : In x (timers_of phone σ)).
    { apply filter_In. split; [exact Hin|]. now apply String.eqb_eq. }
    specialize (Hdue x Hx). specialize (Hsched t h (or_introl eq_refl)).
    apply Z.leb_le in Hle. lia. }
  assert (Hrest : reminders_to phone (snd (fire_all rest (fst (fire t h σ)))) = O).
  { apply IH.
    - intros x Hx. apply Hdue. now apply (timers_of_fire_incl t h σ).
    - intros t' h' Hin. apply (Hsched t' h'). now right. }
  destruct (fire t h σ) as [σ1 es1]. cbn [fst snd] in *.
  destruct (fire_all rest σ1) as [σ2 es2]. cbn [fst snd] in *.
  rewrite reminders_to_app. lia.
Qed.

End Reminders.

Lemma find_handle p x :
  List.NoDup (map handle p) -> In x p ->
  List.find (fun y => Nat.eqb (handle y) (handle x)) p = Some x.
Proof.
  induction p as [|y p IH]; intros Hnodup Hin; [destruct Hin|].
  inversion Hnodup as [|? ? Hnotin Hnodup']; subst. cbn [List.find].
  destruct Hin as [->|Hin]; [now rewrite Nat.eqb_refl|].
  destruct (Nat.eqb_spec (handle y) (handle x)) as [Heq|_]; [|now apply IH].
  exfalso. apply Hnotin. rewrite Heq. now apply in_map.
Qed.

(** The callback of a pending timer that is due sends one reminder, unless
    the phone has completed. *)
Lemma fire_due_timer t σ x :
  timers_ok σ -> In x (pending σ) -> due x <= t ->
  timer_phone x ∉ completedUsers σ ->
  snd (fire t (handle x) σ) = [ sendWhatsAppText (timer_phone x) reminder ].
Proof.
  intros [Hnodup _] Hin Hdue Hnot. unfold fire.
  rewrite (find_handle _ _ Hnodup Hin).
  rewrite (proj2 (Z.leb_le _ _) Hdue).
  now rewrite bool_decide_eq_false_2 by exact Hnot.
Qed.

(** C9.  In a state the process can reach, a message from a phone that has
    not completed leaves the phone with exactly one pending timer, the one
    armed by this message: the timer armed before is cancelled.  No phone
    ever has more than one pending timer.  After two messages from the phone
    within the delay, whatever timers expire and whenever, at most one
    reminder goes to the phone, none before the delay has passed since the
    second message, and exactly one when the timer of the second message
    expires after that. *)
Theorem C9_one_idle_timer (σ : State) (e1 e2 : Env) (ph : option string)
  (c1 c2 : Content) :
  reachable σ ->
  let phone := normalizePhone ph in
  let σ1 := state (post_root σ e1 (message ph c1)) in
  let σ2 := state (post_root σ1 e2 (message ph c2)) in
  phone ∉ completedUsers σ ->
  phone ∉ completedUsers σ1 ->
  now e1 <= now e2 < now e1 + idle_delay ->
  timers_of phone σ1
  = [ {| handle := next_handle σ; timer_phone := phone;
         due := now e1 + idle_delay |} ]
  /\ timers_of phone σ2
     = [ {| handle := next_handle σ1; timer_phone := phone;
            due := now e2 + idle_delay |} ]
  /\ (forall σ' p, reachable σ' -> (List.length (timers_of p σ') <= 1)%nat)
  /\ (forall schedule,
        (reminders_to phone (snd (fire_all schedule σ2)) <= 1)%nat)
  /\ (forall schedule,
        (forall t h, In (t, h) schedule -> t < now e2 + idle_delay) ->
        reminders_to phone (snd (fire_all schedule σ2)) = O)
  /\ (forall t,
        now e2 + idle_delay <= t ->
        phone ∉ completedUsers σ2 ->
        reminders_to phone (snd (fire t (next_handle σ1) σ2)) = 1%nat).
Proof.
  intros Hreach phone σ1 σ2 Hnot Hnot1 Hwindow.
  pose proof (reachable_timers_ok σ Hreach) as Hok.
  assert (Hreach1 : reachable σ1)
    by (apply (reachable_step σ); [exact Hreach | apply step_message]).
  assert (Hreach2 : reachable σ2)
    by (apply (reachable_step σ1); [exact Hreach1 | apply step_message]).
  pose proof (reachable_timers_ok σ1 Hreach1) as Hok1.
  pose proof (reachable_timers_ok σ2 Hreach2) as Hok2.
  assert (H1 : timers_of phone σ1
               = [ {| handle := next_handle σ; timer_phone := phone;
                      due := now e1 + idle_delay |} ]).
  { unfold σ1. rewrite (timers_of_part phone _ _ (timer_part_post_root σ e1 ph c1)).
    now apply timers_of_rearm. }
  assert (H2 : timers_of phone σ2
               = [ {| handle := next_handle σ1; timer_phone := phone;
                      due := now e2 + idle_delay |} ]).
  { unfold σ2. rewrite (timers_of_part phone _ _ (timer_part_post_root σ1 e2 ph c2)).
    now apply timers_of_rearm. }
  split; [exact H1|]. split; [exact H2|]. split; [|split; [|split]].
  - intros σ' p Hr. apply one_timer_per_phone. now apply reachable_timers_ok.
  - intros schedule. pose proof (fire_all_uses_timers phone schedule σ2) as H.
    rewrite H2 in H. cbn [List.length] in H. lia.
  - intros schedule Hsched.
    apply (no_reminder_before_due phone (now e2 + idle_delay - 1)).
    + intros x Hx. rewrite H2 in Hx. destruct Hx as [<-|[]]. cbn [due]. lia.
    + intros t h Hin. specialize (Hsched t h Hin). lia.
  - intros t Hdue Hnot2.
    set (x := {| handle := next_handle σ1; timer_phone := phone;
                 due := now e2 + idle_delay |}).
    assert (Hx : In x (pending σ2)).
    { assert (Hin : In x (timers_of phone σ2)) by (rewrite H2; now left).
      now apply filter_In in Hin. }
    change (next_handle σ1) with (handle x).
    rewrite (fire_due_timer t σ2 x Hok2 Hx Hdue Hnot2).
    cbn [reminders_to timer_phone x]. now rewrite String.eqb_refl.
Qed.

Lemma reachable_populated : reachable populated.
Proof. apply (reachable_step initial); [constructor | apply step_load]. Qed.

Lemma C9_one_idle_timer_witness :
  let σ1 := state (post_root populated sample_env
                     (message (Some sample_phone) (text (Some "hi")))) in
  let σ2 := state (post_root σ1 (at_time 2000 sample_env)
                     (message (Some sample_phone) (text (Some "view products")))) in
  timers_of sample_phone σ2
  = [ {| handle := 1; timer_phone := sample_phone; due := 2000 + idle_delay |} ]
  /\ reminders_to sample_phone (snd (fire (2000 + idle_delay) 1 σ2)) = 1%nat.
Proof.
  assert (Hnot : normalizePhone (Some sample_phone) ∉ completedUsers populated)
    by (vm_compute; set_solver).
  assert (Hnot1 : normalizePhone (Some sample_phone)
                  ∉ completedUsers
                      (state (post_root populated sample_env
                                (message (Some sample_phone) (text (Some "hi"))))))
    by (vm_compute; set_solver).
  assert (Hwin : now sample_env <= now (at_time 2000 sample_env)
                 < now sample_env + idle_delay) by (vm_compute; split; congruence).
  destruct (C9_one_idle_timer populated sample_env (at_time 2000 sample_env)
              (Some sample_phone) (text (Some "hi")) (text (Some "view products"))
              reachable_populated Hnot Hnot1 Hwin)
    as (_ & H2 & _ & _ & _ & Hfire).
  split; [exact H2|].
  apply (Hfire (2000 + idle_delay)); [vm_compute; congruence|].
  vm_compute; set_solver.
Defined.

(** * Further properties of the code *)

(** ** The checkout router *)

(** X3.  [/save-order] posts to the spreadsheet exactly when the body has
    [type] "checkout" and a non-empty order id; a body that fails the checks
    is answered with 400 and nothing is posted, and otherwise the answer is
    200 or 500 as the post returns or throws. *)
Theorem save_order_validates (orderData : Checkout.OrderData)
  (sheet : Outcome unit) :
  let valid :=
    bool_decide (Checkout.type orderData = Some "checkout")
    && str_truthy (Checkout.orderId orderData) in
  let r := Checkout.save_order (Some orderData) sheet in
  (valid = false -> Checkout.code (fst r) = 400%nat /\ snd r = [])
  /\ (valid = true ->
      snd r = [Checkout.post_sheet (Checkout.orderId orderData) None None]
      /\ Checkout.code (fst r) = match sheet with
                                 | Returns _ => 200%nat
                                 | Throws => 500%nat
                                 end).
Proof.
  unfold Checkout.save_order.
  destruct orderData as [ty oid]; cbn [Checkout.type Checkout.orderId].
  destruct (bool_decide (ty = Some "checkout")) eqn:Hty.
  - apply bool_decide_eq_true_1 in Hty. subst ty.
    cbn [str_truthy Str.nonempty negb orb andb].
    destruct (str_truthy oid); cbn [negb]; split; intros H; try discriminate H.
    + now destruct sheet.
    + now split.
  - cbn [andb]. rewrite orb_true_r. split; [now split | discriminate].
Qed.

(** X4.  [/process-cod] with an [orderData] answers 200 with [success: true]
    whatever the shipment creation and the spreadsheet do, and it has asked
    for the shipment and posted the order, with the error of a failed
    shipment creation inside the posted order. *)
Theorem process_cod_reports_success (b : Checkout.Body) (o : Checkout.OrderData)
  (delhivery sheet : Outcome unit) :
  Checkout.orderData b = Some o ->
  let r := Checkout.process_cod (Some b) delhivery sheet in
  Checkout.code (fst r) = 200%nat
  /\ Checkout.success (fst r) = true
  /\ snd r = [ Checkout.post_create_shipment;
               Checkout.post_sheet (Checkout.orderId o)
                 (Some (Checkout.shipment_response delhivery)) None ]
  /\ (delhivery = Throws ->
      snd r = [ Checkout.post_create_shipment;
                Checkout.post_sheet (Checkout.orderId o)
                  (Some Checkout.provider_error) None ]).
Proof.
  intros Ho. unfold Checkout.process_cod. cbn [mbind option_bind]. rewrite Ho.
  repeat split. now intros ->.
Qed.

Lemma process_cod_reports_success_witness :
  Checkout.success
    (fst (Checkout.process_cod
            (Some {| Checkout.orderData :=
                       Some {| Checkout.type := Some "checkout";
                               Checkout.orderId := Some "OUO-12345" |};
                     Checkout.paymentDetails := None |})
            Throws Throws)) = true.
Proof.
  refine (proj1 (proj2 (process_cod_reports_success _ _ Throws Throws _))).
  reflexivity.
Defined.

(** X5.  [/process-prepaid] reads [paymentDetails] only after the shipment
    creation: with an [orderData] but no [paymentDetails] it asks for the
    shipment, posts nothing to the spreadsheet and answers 500. *)
Theorem process_prepaid_without_payment (b : Checkout.Body)
  (o : Checkout.OrderData) (delhivery sheet : Outcome unit) :
  Checkout.orderData b = Some o ->
  Checkout.paymentDetails b = None ->
  let r := Checkout.process_prepaid (Some b) delhivery sheet in
  Checkout.code (fst r) = 500%nat
  /\ Checkout.success (fst r) = false
  /\ snd r = [Checkout.post_create_shipment]
  /\ Checkout.sheet_posts (snd r) = [].
Proof.
  intros Ho Hp. unfold Checkout.process_prepaid. cbn [mbind option_bind].
  rewrite Ho, Hp. repeat split.
Qed.

Lemma process_prepaid_without_payment_witness :
  snd (Checkout.process_prepaid
         (Some {| Checkout.orderData :=
                    Some {| Checkout.type := Some "checkout";
                            Checkout.orderId := Some "OUO-12345" |};
                  Checkout.paymentDetails := None |})
         (Returns tt) (Returns tt))
  = [Checkout.post_create_shipment].
Proof.
  refine (proj1 (proj2 (proj2 (process_prepaid_without_payment _ _ (Returns tt)
                                 (Returns tt) _ _))));
    reflexivity.
Defined.

(** ** [askGemini] *)

Lemma str_or_nonempty a d : Str.nonempty d = true -> Str.nonempty (str_or a d) = true.
Proof.
  intros Hd. unfold str_or. destruct a as [s|]; [|exact Hd].
  now destruct (Str.nonempty s) eqn:Hs.
Qed.


(** ** The delivery-details form *)

(** X7.  A submission that carries the test token is dropped after the timer
    block: no order id is made, no session is stored, nothing is sent, and the
    answer is 200. *)
Theorem test_payload_is_ignored (σ : State) (e : Env) (ph : option string)
  (cd : Customer.t) :
  Customer.flow_token cd = Some "test_101" ->
  let r := post_root σ e (submission ph cd) in
  effects r = []
  /\ response r = status_200
  /\ orderSessions (state r) = orderSessions σ
  /\ phoneToOrderIds (state r) !! normalizePhone ph
     = Some (default [] (phoneToOrderIds σ !! normalizePhone ph)).
Proof.
  intros Htest r. unfold r, post_root, submission, message. cbn [from content].
  unfold flow_submission. rewrite bool_decide_eq_true_2 by exact Htest.
  cbn [effects response state acked].
  rewrite orderSessions_arrive, phoneToOrderIds_arrive. auto.
Qed.

Lemma test_payload_is_ignored_witness :
  effects (post_root after_order sample_env
             (submission (Some sample_phone)
                {| Customer.flow_token := Some "test_101";
                   Customer.payment_mode := Some "cod";
                   Customer.name := None; Customer.address1 := None;
                   Customer.address2 := None; Customer.pincode := None;
                   Customer.pin := None; Customer.city := None;
                   Customer.state := None; Customer.phone := None;
                   Customer.email := None |})) = [].
Proof.
  refine (proj1 (test_payload_is_ignored after_order sample_env
                   (Some sample_phone) _ _)).
  reflexivity.
Defined.

Lemma appended_rows_app es1 es2 :
  appended_rows (es1 ++ es2) = (appended_rows es1 ++ appended_rows es2)%list.
Proof.
  induction es1 as [|x es1 IH]; [reflexivity|].
  destruct x; cbn [appended_rows app]; now rewrite ?IH.
Qed.

Lemma texts_to_app phone es1 es2 :
  texts_to phone (es1 ++ es2) = (texts_to phone es1 ++ texts_to phone es2)%list.
Proof.
  induction es1 as [|x es1 IH]; [reflexivity|].
  destruct x as [to t| | | | | | | | | | | | | |]; cbn [texts_to app];
    try exact IH.
  destruct (String.eqb to phone); cbn [app]; now rewrite IH.
Qed.

(** X8.  A cash-on-delivery order is written to the sheet exactly when the
    shipment creation answers with [success] and the rate lookup left the flag
    [true].  Then the user is told the total; in every other case in which the
    shipment creation answers with an object the user gets the "invalid data"
    text and nothing is written.  A rate lookup that answers with a falsy body
    leaves the flag [true]: such an order is written, with no shipping
    charge. *)
Theorem cod_row_is_written_iff (σ : State) (e : Env) (ph : option string)
  (cd : Customer.t) :
  Customer.flow_token cd <> Some "test_101" ->
  is_cod (Customer.payment_mode cd) = true ->
  let r := post_root σ e (submission ph cd) in
  let phone := normalizePhone ph in
  let total := fadd (fadd (subtotal_of σ phone) 15000%float)
                    (quote_paise (charges e)) in
  let accepted :=
    match created e with
    | Returns (ship_object true) => snd (read_quote_cod (charges e))
    | _ => false
    end in
  (accepted = true ->
   (exists row, appended_rows (effects r) = [row]
                /\ SheetRow.status row = "Pending"
                /\ SheetRow.mode row = COD
                /\ SheetRow.amount row = fdiv total 100%float)
   /\ texts_to phone (effects r)
      = [received_details (new_orderId (random e)); cod_placed total])
  /\ (accepted = false -> appended_rows (effects r) = [])
  /\ (accepted = false -> forall success, created e = Returns (ship_object success) ->
      texts_to phone (effects r)
      = [received_details (new_orderId (random e)); invalid_data])
  /\ (charges e = Returns charges_falsy ->
      created e = Returns (ship_object true) ->
      exists row, appended_rows (effects r) = [row]
                  /\ SheetRow.shipping row = Some (fdiv 0%float 100%float)).
Proof.
  intros Htest Hcod r phone total accepted.
  destruct (submission_cod σ e ph cd Htest Hcod) as (σ1 & s & Hr & _ & Hs & _).
  assert (Hamount :
    default nan (Session.amount (cod_session (read_quote_cod (charges e)) s))
    = total).
  { rewrite cod_session_amount, Hs, read_quote_cod_paise. reflexivity. }
  unfold r, accepted. rewrite Hr. unfold cod_branch.
  destruct (created e) as [[|success]|] eqn:Hc.
  - cbn [effects escaped]. repeat split; discriminate.
  - destruct success; cbn [andb].
    + destruct (snd (read_quote_cod (charges e))) eqn:Hflag;
        cbn [effects acked];
        rewrite ?appended_rows_app, ?texts_to_app;
        cbn [appended_rows texts_to app]; rewrite ?String.eqb_refl;
        cbn [app]; rewrite ?Hamount.
      * split; [intros _; split; [|reflexivity]|].
        { eexists. split; [reflexivity|].
          cbn [cod_row SheetRow.status SheetRow.mode SheetRow.amount].
          rewrite Hamount. auto. }
        split; [discriminate|]. split; [discriminate|].
        intros Hq _. eexists. split; [reflexivity|].
        cbn [cod_row SheetRow.shipping]. rewrite Hq. reflexivity.
      * split; [discriminate|]. split; [reflexivity|]. split; [reflexivity|].
        intros Hq _. rewrite Hq in Hflag. discriminate Hflag.
    + cbn [effects acked]. rewrite ?appended_rows_app, ?texts_to_app.
      cbn [appended_rows texts_to app]. rewrite ?String.eqb_refl. cbn [app].
      split; [discriminate|]. split; [reflexivity|]. split; [reflexivity|].
      intros _ Hd. discriminate Hd.
  - cbn [effects escaped]. repeat split; discriminate.
Qed.

Lemma cod_row_is_written_iff_witness :
  exists row,
    appended_rows
      (effects (post_root after_order sample_env
                  (submission (Some sample_phone) sample_customer))) = [row]
    /\ SheetRow.amount row = 894%float.
Proof.
  destruct (cod_row_is_written_iff after_order sample_env (Some sample_phone)
              sample_customer ltac:(discriminate) eq_refl)
    as (Hacc & _).
  destruct (Hacc eq_refl) as ((row & Hrow & _ & _ & Hamount) & _).
  exists row. split; [exact Hrow|]. rewrite Hamount. reflexivity.
Defined.

Lemma submission_prepaid σ e ph cd :
  Customer.flow_token cd <> Some "test_101" ->
  is_cod (Customer.payment_mode cd) = false ->
  exists σ1 s,
    post_root σ e (submission ph cd)
    = prepaid_branch σ1 e (normalizePhone ph) (new_orderId (random e)) cd s
        [ sendWhatsAppText (normalizePhone ph)
            (received_details (new_orderId (random e))) ]
    /\ Session.amount s = Some (subtotal_of σ (normalizePhone ph))
    /\ Session.orderId s = Some (new_orderId (random e))
    /\ Session.shipping_charge s = None.
Proof.
  intros Htest Hcod.
  unfold post_root, submission, message. cbn [from content].
  unfold flow_submission.
  rewrite bool_decide_eq_false_2 by exact Htest.
  rewrite Hcod.
  eexists _, _. split; [reflexivity|].
  unfold Session.amount_or_0, Session.set_amount.
  cbn [Session.amount Session.orderId Session.shipping_charge from_option id].
  rewrite orderSessions_arrive. unfold subtotal_of.
  rewrite !or_else_idem. auto.
Qed.

(** X9.  A submission with any other payment mode is a prepaid one.  It is
    always answered with 200; the session keeps the product subtotal as its
    amount (no fee and no shipping charge are added to it), and no shipment is
    asked for.  Without a payment configuration name nothing is asked of the
    shipping or the messaging service beyond the two texts, and nothing is
    written; with one, the quoted shipping charge is kept in the session, and
    the "Awaiting Payment" row is written exactly when the order-details
    message went out. *)
Theorem prepaid_submission (σ : State) (e : Env) (ph : option string)
  (cd : Customer.t) :
  Customer.flow_token cd <> Some "test_101" ->
  is_cod (Customer.payment_mode cd) = false ->
  let r := post_root σ e (submission ph cd) in
  let phone := normalizePhone ph in
  let id := new_orderId (random e) in
  response r = status_200
  /\ session_after r e ≫= Session.amount = Some (subtotal_of σ phone)
  /\ session_after r e ≫= Session.payment_mode = Some Prepaid
  /\ shipments (effects r) = []
  /\ (str_truthy (PAYMENT_CONFIGURATION_NAME e) = false ->
      effects r = [ sendWhatsAppText phone (received_details id);
                    sendWhatsAppText phone payment_not_initiated ]
      /\ session_after r e ≫= Session.shipping_charge = None)
  /\ (str_truthy (PAYMENT_CONFIGURATION_NAME e) = true ->
      session_after r e ≫= Session.shipping_charge
      = Some (read_quote_prepaid (charges e))
      /\ (order_details_posted e = true ->
          exists row, appended_rows (effects r) = [row]
                      /\ SheetRow.status row = "Awaiting Payment"
                      /\ SheetRow.orderId row = Some id)
      /\ (order_details_posted e = false ->
          appended_rows (effects r) = []
          /\ texts_to phone (effects r)
             = [received_details id; payment_not_initiated])).
Proof.
  intros Htest Hcod r phone id.
  destruct (submission_prepaid σ e ph cd Htest Hcod)
    as (σ1 & s & Hr & Hs & Hid & Hship).
  unfold r, session_after. rewrite Hr. unfold prepaid_branch, order_details.
  destruct (str_truthy (PAYMENT_CONFIGURATION_NAME e)); cbn [negb].
  - destruct (order_details_posted e);
      cbn [effects response state acked put_session set_orderSessions
           orderSessions];
      rewrite !lookup_insert_eq; cbn [mbind option_bind];
      cbn [app shipments appended_rows texts_to awaiting_row
           SheetRow.status SheetRow.orderId
           Session.set_shipping_charge Session.set_payment_mode
           Session.amount Session.payment_mode Session.shipping_charge
           Session.orderId];
      rewrite ?String.eqb_refl, ?Hs, ?Hid;
      repeat split; try discriminate; eauto.
  - cbn [effects response state acked put_session set_orderSessions
         orderSessions app shipments].
    rewrite !lookup_insert_eq. cbn [mbind option_bind].
    cbn [Session.set_payment_mode Session.amount Session.payment_mode
         Session.shipping_charge].
    rewrite Hs, Hship. repeat split; discriminate.
Qed.

Lemma prepaid_submission_witness :
  session_after
    (post_root after_order sample_env
       (submission (Some sample_phone)
          {| Customer.flow_token := None;
             Customer.payment_mode := Some "UPI";
             Customer.name := None; Customer.address1 := None;
             Customer.address2 := None; Customer.pincode := Some "249193";
             Customer.pin := None; Customer.city := None;
             Customer.state := None; Customer.phone := None;
             Customer.email := None |}))
    sample_env ≫= Session.amount
  = Some (subtotal_of after_order sample_phone).
Proof.
  refine (proj1 (proj2 (prepaid_submission after_order sample_env
                          (Some sample_phone) _ _ _)));
    [discriminate | reflexivity].
Defined.

(** ** The payment webhook and the finalizer *)

Lemma finalize_session e s :
  fst (finalizePaidOrder e s)
  = Session.set_shipping_charge (read_quote_prepaid (charges e))
      (Session.set_payment_status paid s).
Proof. reflexivity. Qed.

(** The finalizer reads nothing of what it wrote: run on the session it
    left, it asks for the same things again. *)
Lemma finalize_again e s :
  finalizePaidOrder e (fst (finalizePaidOrder e s)) = finalizePaidOrder e s.
Proof. destruct s. reflexivity. Qed.

(** What a lookup finds in the store is an own property. *)
Lemma found_under_store σ k key s :
  found_under σ k = an_object (in_store key) s ->
  key = k /\ orderSessions σ !! k = Some s.
Proof.
  unfold found_under, orderSessions_get.
  destruct (orderSessions σ !! k) as [sk|]; [now intros [= <- <-]|].
  destruct (existsb _ _); [discriminate|].
  destruct (String.eqb k "payment_status").
  { destruct (Session.payment_status _); discriminate. }
  destruct (String.eqb k "shipping_charge"); [|discriminate].
  destruct (Session.shipping_charge _) as [x|]; [|discriminate].
  destruct (JS.truthy x); discriminate.
Qed.

Lemma found_under_own σ k s :
  orderSessions σ !! k = Some s -> found_under σ k = an_object (in_store k) s.
Proof. intros H. unfold found_under, orderSessions_get. now rewrite H. Qed.

(** Storing a session under a key changes no other lookup. *)
Lemma found_under_put_ne σ key s' k :
  k <> key -> found_under (put_session key s' σ) k = found_under σ k.
Proof.
  intros Hne. unfold found_under, orderSessions_get, put_session.
  cbn [orderSessions inherited set_orderSessions].
  now rewrite lookup_insert_ne by congruence.
Qed.

Lemma find_session_store σ w key s :
  find_session σ w = an_object (in_store key) s ->
  orderSessions σ !! key = Some s.
Proof.
  unfold find_session.
  destruct (referenceId w) as [r|].
  - destruct (found_under σ r) as [p sr| |] eqn:Hr.
    + intros [= -> ->]. now apply found_under_store in Hr as [-> Hr].
    + discriminate.
    + destruct (lastOrderId σ w) as [k|]; [|discriminate].
      intros Hk. now apply found_under_store in Hk as [-> Hk].
  - destruct (lastOrderId σ w) as [k|]; [|discriminate].
    intros Hk. now apply found_under_store in Hk as [-> Hk].
Qed.

Lemma find_session_after_put σ w key s s' :
  find_session σ w = an_object (in_store key) s ->
  find_session (put_session key s' σ) w = an_object (in_store key) s'.
Proof.
  intros H. pose proof (find_session_store σ w key s H) as Hkey.
  assert (Hput : found_under (put_session key s' σ) key
                 = an_object (in_store key) s')
    by (apply found_under_own; apply lookup_insert_eq).
  revert H. unfold find_session.
  assert (Hlast : lastOrderId (put_session key s' σ) w = lastOrderId σ w)
    by reflexivity.
  rewrite Hlast.
  destruct (referenceId w) as [r|].
  - destruct (decide (r = key)) as [->|Hne].
    + rewrite Hput. now rewrite (found_under_own σ key s Hkey).
    + rewrite (found_under_put_ne σ key s' r Hne).
      destruct (found_under σ r) as [p sr| |] eqn:Hr.
      * intros [= -> ->]. apply found_under_store in Hr as [Heq _]. congruence.
      * discriminate.
      * destruct (lastOrderId σ w) as [k|]; [|discriminate].
        intros Hk. apply found_under_store in Hk as [-> _]. exact Hput.
  - destruct (lastOrderId σ w) as [k|]; [|discriminate].
    intros Hk. apply found_under_store in Hk as [-> _]. exact Hput.
Qed.

Lemma resolve_session_find σ w key s :
  resolve_session σ w = Some (key, s) <->
  find_session σ w = an_object (in_store key) s.
Proof.
  unfold resolve_session.
  destruct (find_session σ w) as [[k|n] sk| |]; split; intros H;
    try discriminate H; now inversion H.
Qed.

(** After the handler stored [s'] under the key it resolved, the same
    webhook resolves to that key again. *)
Lemma resolve_after_put σ w key s s' :
  resolve_session σ w = Some (key, s) ->
  resolve_session (put_session key s' σ) w = Some (key, s').
Proof.
  rewrite !resolve_session_find. apply find_session_after_put.
Qed.

(** X10.  A webhook whose event name contains "paid", for a session that is
    found, is answered with 200 after the whole finalizer ran: the session is
    marked paid and keeps the quoted shipping charge, while its amount is left
    as it was; one prepaid shipment with nothing to collect is asked for; and
    one "Paid" row is written, also when the shipment creation throws, in
    which case the user is told that the shipment failed. *)
Theorem paid_webhook_finalizes (σ : State) (e : Env) (w : Webhook)
  (key : string) (s : Session.t) :
  resolve_session σ w = Some (key, s) ->
  Str.includes (Str.toLowerCase (str_or (event w) "")) "paid" = true ->
  let r := payments_webhook σ e w in
  let phone := str_or (Session.phone s) "" in
  response r = status_200
  /\ (exists s',
        orderSessions (state r) !! key = Some s'
        /\ Session.payment_status s' = Some paid
        /\ Session.shipping_charge s' = Some (read_quote_prepaid (charges e))
        /\ Session.amount s' = Session.amount s
        /\ Session.payment_mode s' = Session.payment_mode s)
  /\ (exists shipment,
        shipments (effects r) = [shipment]
        /\ Shipment.payment_mode shipment = Prepaid
        /\ Shipment.cod_amount shipment = 0%float)
  /\ (exists row,
        appended_rows (effects r) = [row]
        /\ SheetRow.status row = "Paid"
        /\ SheetRow.orderId row = Some (str_or (Session.orderId s) ""))
  /\ texts_to phone (effects r)
     = [ payment_successful;
         match created e with
         | Returns _ => shipment_created
         | Throws => shipment_failed
         end ].
Proof.
  intros Hres Hpaid r phone. unfold r, payments_webhook.
  apply resolve_session_find in Hres.
  rewrite Hres, Hpaid. unfold finalizePaidOrder.
  cbn [effects response state acked put_object put_session set_orderSessions
       orderSessions shipments appended_rows texts_to].
  rewrite String.eqb_refl, lookup_insert_eq.
  split; [reflexivity|]. split; [eexists; repeat split|].
  split; [eexists; repeat split|]. split; [eexists; repeat split|].
  reflexivity.
Qed.

Lemma paid_webhook_finalizes_witness :
  let σ := state (post_root after_order sample_env
                    (submission (Some sample_phone) sample_customer)) in
  exists row,
    appended_rows
      (effects (payments_webhook σ (with_services Throws Throws sample_env)
                  (sample_webhook (Some "OUO-12345") None))) = [row]
    /\ SheetRow.status row = "Paid".
Proof.
  intros σ.
  assert (Hres : exists s,
             resolve_session σ (sample_webhook (Some "OUO-12345") None)
             = Some ("OUO-12345", s))
    by (vm_compute; eexists; reflexivity).
  destruct Hres as [s Hs].
  destruct (paid_webhook_finalizes σ (with_services Throws Throws sample_env)
              (sample_webhook (Some "OUO-12345") None) "OUO-12345" s Hs eq_refl)
    as (_ & _ & _ & (row & Hrow & Hstatus & _) & _).
  exists row. now split.
Defined.

(** X11.  The finalizer is run again for every further "paid" webhook of the same
    session: a second delivery of the webhook asks for a second shipment and
    writes a second row, the same as the first. *)
Theorem paid_webhook_repeats (σ : State) (e : Env) (w : Webhook)
  (key : string) (s : Session.t) :
  resolve_session σ w = Some (key, s) ->
  Str.includes (Str.toLowerCase (str_or (event w) "")) "paid" = true ->
  let r1 := payments_webhook σ e w in
  let r2 := payments_webhook (state r1) e w in
  effects r2 = effects r1
  /\ List.length (shipments (effects r1 ++ effects r2)) = 2%nat
  /\ List.length (appended_rows (effects r1 ++ effects r2)) = 2%nat.
Proof.
  intros Hres Hpaid r1 r2.
  apply resolve_session_find in Hres.
  assert (H1 : r1 = acked (put_session key (fst (finalizePaidOrder e s)) σ)
                      (snd (finalizePaidOrder e s))).
  { unfold r1, payments_webhook. rewrite Hres, Hpaid.
    now destruct (finalizePaidOrder e s). }
  assert (H2 : effects r2 = effects r1).
  { unfold r2, payments_webhook. rewrite H1. cbn [state acked effects].
    rewrite (find_session_after_put σ w key s _ Hres), Hpaid, finalize_again.
    now destruct (finalizePaidOrder e s). }
  split; [exact H2|]. rewrite H2, H1. cbn [effects acked].
  rewrite shipments_app, appended_rows_app, !length_app.
  unfold finalizePaidOrder. cbn [snd shipments appended_rows List.length].
  split; reflexivity.
Qed.

Lemma paid_webhook_repeats_witness :
  let σ := state (post_root after_order sample_env
                    (submission (Some sample_phone) sample_customer)) in
  let w := sample_webhook (Some "OUO-12345") None in
  effects (payments_webhook (state (payments_webhook σ sample_env w)) sample_env w)
  = effects (payments_webhook σ sample_env w).
Proof.
  intros σ w.
  assert (Hres : exists s, resolve_session σ w = Some ("OUO-12345", s))
    by (vm_compute; eexists; reflexivity).
  destruct Hres as [s Hs].
  exact (proj1 (paid_webhook_repeats σ sample_env w "OUO-12345" s Hs eq_refl)).
Defined.

(** X12.  A webhook whose event name contains none of "paid", "failed", "cancel"
    and "expired" changes nothing and sends nothing, whether or not a session
    is found; "payment.captured" is such a name.  One that contains "failed",
    "cancel" or "expired", and not "paid", marks the session failed and tells
    the user, and asks for no shipment and writes no row.  Such a webhook is
    answered with 200 unless what the lookup finds is a string or a number
    written on [Object.prototype]: marking that fails, outside any [try]. *)
Theorem other_webhook_events (σ : State) (e : Env) (w : Webhook) :
  let status := Str.toLowerCase (str_or (event w) "") in
  Str.includes status "paid" = false ->
  let r := payments_webhook σ e w in
  (response r = no_response <->
     find_session σ w = a_primitive
     /\ Str.includes status "failed" || Str.includes status "cancel"
        || Str.includes status "expired" = true)
  /\ (find_session σ w <> a_primitive -> response r = status_200)
  /\ shipments (effects r) = []
  /\ appended_rows (effects r) = []
  /\ (Str.includes status "failed" || Str.includes status "cancel"
      || Str.includes status "expired" = false ->
      r = acked σ [])
  /\ (Str.includes status "failed" || Str.includes status "cancel"
      || Str.includes status "expired" = true ->
      forall key s, resolve_session σ w = Some (key, s) ->
      effects r = [ sendWhatsAppText (default "" (Session.phone s)) payment_failed ]
      /\ orderSessions (state r) !! key
         = Some (Session.set_payment_status failed s)).
Proof.
  intros status Hpaid r. unfold r, payments_webhook, resolve_session.
  fold status. rewrite Hpaid.
  destruct (find_session σ w) as [[key|name] s| |];
    destruct (Str.includes status "failed" || Str.includes status "cancel"
              || Str.includes status "expired");
    cbn [response effects acked escaped shipments appended_rows];
    (split; [split; [discriminate || (intros _; now split)
                    | intros [H1 H2]; discriminate || reflexivity]|]);
    (split; [intros H; reflexivity || (exfalso; now apply H)|]);
    (split; [reflexivity|]); (split; [reflexivity|]);
    (split; [reflexivity || discriminate|]);
    try discriminate; intros _ key' s' H; try discriminate H.
  inversion H; subst. split; [reflexivity|].
  cbn [state acked put_object put_session set_orderSessions orderSessions].
  apply lookup_insert_eq.
Qed.

Lemma other_webhook_events_witness :
  let σ := state (post_root after_order sample_env
                    (submission (Some sample_phone) sample_customer)) in
  let w := {| event := Some "payment.captured";
              payment := Some {| payment_reference_id := None;
                                 notes_orderId := Some "OUO-12345";
                                 contact := None |};
              payment_link := None |} in
  payments_webhook σ sample_env w = acked σ [].
Proof.
  intros σ w.
  refine (proj1 (proj2 (proj2 (proj2 (proj2
            (other_webhook_events σ sample_env w _))))) _);
    reflexivity.
Defined.

Lemma resolve_session_stored σ w key s :
  resolve_session σ w = Some (key, s) -> orderSessions σ !! key = Some s.
Proof. rewrite resolve_session_find. apply find_session_store. Qed.

Lemma same_order_refl s : same_order s s.
Proof. repeat split. Qed.

(** What the webhook writes is the object it found, changed at most in
    [payment_status] and [shipping_charge]. *)
Lemma payments_webhook_state σ e w :
  state (payments_webhook σ e w) = σ
  \/ exists place s s',
       find_session σ w = an_object place s
       /\ state (payments_webhook σ e w) = put_object place s' σ
       /\ same_order s s'.
Proof.
  unfold payments_webhook.
  destruct (find_session σ w) as [place s| |]; [| |now left].
  - destruct (Str.includes _ "paid").
    + right. exists place, s, (fst (finalizePaidOrder e s)).
      split; [reflexivity|]. split; [now destruct (finalizePaidOrder e s)|].
      repeat split.
    + destruct (_ || _); [|now left].
      right. exists place, s, (Session.set_payment_status failed s).
      repeat split.
  - destruct (Str.includes _ "paid"); [now left|].
    destruct (_ || _); now left.
Qed.

(** An object of [Object.prototype] is found under a key only when the key
    is one of the inherited names and no session is stored under it. *)
Lemma found_under_prototype σ k name s :
  found_under σ k = an_object (in_prototype name) s ->
  name = k /\ In k inherited_names /\ orderSessions σ !! k = None
  /\ s = default Session.empty (inherited σ !! k).
Proof.
  unfold found_under, orderSessions_get.
  destruct (orderSessions σ !! k) as [sk|]; [discriminate|].
  destruct (existsb _ _) eqn:Hin.
  - intros [= <- <-]. split; [reflexivity|]. split; [|now split].
    apply existsb_exists in Hin as (x & Hx & Heq).
    apply String.eqb_eq in Heq. now subst.
  - destruct (String.eqb k "payment_status").
    { destruct (Session.payment_status _); discriminate. }
    destruct (String.eqb k "shipping_charge"); [|discriminate].
    destruct (Session.shipping_charge _) as [x|]; [|discriminate].
    destruct (JS.truthy x); discriminate.
Qed.

Lemma find_session_prototype σ w name s :
  find_session σ w = an_object (in_prototype name) s ->
  In name inherited_names /\ orderSessions σ !! name = None
  /\ s = default Session.empty (inherited σ !! name)
  /\ (referenceId w = Some name \/ lastOrderId σ w = Some name).
Proof.
  unfold find_session.
  destruct (referenceId w) as [r|].
  - destruct (found_under σ r) as [p sr| |] eqn:Hr.
    + intros [= -> ->]. apply found_under_prototype in Hr as (-> & H1 & H2 & H3).
      auto.
    + discriminate.
    + destruct (lastOrderId σ w) as [k|]; [|discriminate].
      intros Hk. apply found_under_prototype in Hk as (-> & H1 & H2 & H3). auto.
  - destruct (lastOrderId σ w) as [k|]; [|discriminate].
    intros Hk. apply found_under_prototype in Hk as (-> & H1 & H2 & H3). auto.
Qed.

(** X13.  The payment webhook writes on one object at most, the one it found,
    and in it neither the amount nor the payment mode nor the order itself.
    It adds no session and removes none, and it leaves the order ids of the
    phones, the timers and the reminder sets as they are.  The object is a
    stored session, or, when the key looked up is an inherited name under
    which no session is stored, a method of [Object.prototype] or
    [Object.prototype] itself: the stored sessions are then as they were, and
    what is written is kept under that name. *)
Theorem payments_webhook_frame (σ : State) (e : Env) (w : Webhook) :
  let σ' := state (payments_webhook σ e w) in
  phoneToOrderIds σ' = phoneToOrderIds σ
  /\ timer_part σ' = timer_part σ
  /\ remindedUsers σ' = remindedUsers σ
  /\ completedUsers σ' = completedUsers σ
  /\ (forall k, orderSessions σ !! k = None -> orderSessions σ' !! k = None)
  /\ (forall k s, orderSessions σ !! k = Some s ->
        exists s', orderSessions σ' !! k = Some s'
                   /\ same_order s s'
                   /\ (resolve_session σ w <> Some (k, s) -> s' = s))
  /\ (inherited σ' = inherited σ
      \/ exists name s',
           In name inherited_names
           /\ orderSessions σ !! name = None
           /\ (referenceId w = Some name \/ lastOrderId σ w = Some name)
           /\ orderSessions σ' = orderSessions σ
           /\ inherited σ' = <[name := s']> (inherited σ)
           /\ same_order (default Session.empty (inherited σ !! name)) s').
Proof.
  intros σ'. unfold σ'.
  destruct (payments_webhook_state σ e w)
    as [-> | ([key|name] & s & s' & Hres & -> & Hsame)].
  - repeat split; auto. intros k s Hs. exists s. repeat split; auto.
  - pose proof (find_session_store σ w key s Hres) as Hkey.
    cbn [put_object put_session set_orderSessions phoneToOrderIds remindedUsers
         completedUsers orderSessions inherited].
    split; [reflexivity|]. split; [reflexivity|]. split; [reflexivity|].
    split; [reflexivity|]. split; [|split; [|now left]].
    + intros k Hk. rewrite lookup_insert_ne by congruence. exact Hk.
    + intros k sk Hk. destruct (decide (key = k)) as [<-|Hne].
      * rewrite lookup_insert_eq. exists s'.
        assert (sk = s) by congruence. subst sk.
        split; [reflexivity|]. split; [exact Hsame|].
        intros Hcontra. exfalso. apply Hcontra.
        now apply resolve_session_find.
      * rewrite lookup_insert_ne by exact Hne. exists sk.
        split; [exact Hk|]. split; [apply same_order_refl | reflexivity].
  - apply find_session_prototype in Hres as (Hin & Hnone & -> & Href).
    cbn [put_object set_inherited phoneToOrderIds remindedUsers
         completedUsers orderSessions inherited].
    split; [reflexivity|]. split; [reflexivity|]. split; [reflexivity|].
    split; [reflexivity|]. split; [auto|]. split.
    + intros k sk Hk. exists sk. split; [exact Hk|].
      split; [apply same_order_refl | reflexivity].
    + right. exists name, s'. repeat split; auto; apply Hsame.
Qed.

(** ** What the handlers keep *)

Lemma updates_one σ σ' : update σ σ' -> updates σ σ'.
Proof. intros H. eapply updates_more; [exact H | apply updates_none]. Qed.

Lemma updates_trans σ σ1 σ2 : updates σ σ1 -> updates σ1 σ2 -> updates σ σ2.
Proof.
  induction 1 as [|σ σa σb Hu _ IH]; [auto|].
  intros H. eapply updates_more; [exact Hu | now apply IH].
Qed.

Lemma updates_rearm t phone σ : updates σ (rearm t phone σ).
Proof.
  unfold rearm. destruct (bool_decide _); [apply updates_none|].
  apply updates_one, update_timers.
Qed.

Lemma updates_arrive t phone σ : updates σ (arrive t phone σ).
Proof.
  unfold arrive. destruct (phoneToOrderIds σ !! phone) eqn:Hp.
  - apply updates_rearm.
  - eapply updates_more; [exact (update_new_list σ phone Hp) | apply updates_rearm].
Qed.

Lemma updates_flow σ e phone cd : updates σ (state (flow_submission σ e phone cd)).
Proof.
  unfold flow_submission. destruct (bool_decide _); [apply updates_none|].
  set (id := new_orderId (random e)).
  set (s0 := {| Session.orderId := Some id; Session.phone := Some phone;
                Session.customer := Some cd; Session.step := Some 4;
                Session.catalogId := None;
                Session.productItems := _; Session.amount := _;
                Session.cod_error := None; Session.payment_mode := None;
                Session.shipping_charge := None;
                Session.payment_status := None |}).
  eapply updates_more; [apply (update_session σ id s0); now left|].
  eapply updates_more.
  { apply (update_push _ phone id s0);
      [apply new_orderId_format | apply lookup_insert_eq | reflexivity]. }
  eapply updates_more.
  { apply (update_session _ id (Session.set_amount (Session.amount_or_0 s0) s0)).
    now left. }
  destruct (is_cod _).
  - unfold cod_branch.
    set (s1 := cod_session _ _).
    assert (Hs1 : Session.orderId s1 = Some id)
      by (unfold s1; now destruct (read_quote_cod (charges e))).
    destruct (created e) as [[|success]|]; try destruct (success && _);
      cbn [state escaped acked];
      apply updates_one, update_session; now left.
  - unfold prepaid_branch.
    destruct (order_details e _ _) as [[s es] ok] eqn:Hod.
    assert (Hs : Session.orderId s = Some id).
    { unfold order_details in Hod. destruct (negb _); now inversion Hod. }
    destruct ok; cbn [state acked]; apply updates_one, update_session; now left.
Qed.

Lemma updates_run_case σ e phone c k :
  updates σ (reply_state (run_case σ e phone c k)).
Proof.
  unfold run_case. destruct k; try apply updates_none.
  - destruct (intents _) as [[|x l]|]; apply updates_none.
  - cbn [reply_state plain]. apply updates_one, update_session. right.
    now destruct (orderSessions σ !! phone).
  - destruct (Email.match_ _); [|apply updates_none].
    destruct (Nat.leb _ _); [|apply updates_none].
    destruct (customer_sheet_appended e); cbn [reply_state plain];
      apply updates_one, update_completed.
Qed.

Lemma updates_post_root σ e m : updates σ (state (post_root σ e m)).
Proof.
  destruct m as [[ph c]|]; [|apply updates_none].
  unfold post_root. cbn [from content].
  eapply updates_trans; [apply updates_arrive|].
  destruct c as [b|[t|t|cd|]|o|t|];
    try (cbn [state acked]; apply updates_run_case).
  apply updates_flow.
Qed.

Lemma updates_payments σ e w : updates σ (state (payments_webhook σ e w)).
Proof.
  destruct (payments_webhook_state σ e w)
    as [-> | ([key|name] & s & s' & Hres & -> & Hsame)];
    [apply updates_none| |].
  - apply updates_one, update_session. right.
    rewrite (find_session_store σ w key s Hres). apply Hsame.
  - apply updates_one, update_inherited.
Qed.

Lemma updates_unguarded σ e ph u :
  updates σ (state (post_root_unguarded σ e ph u)).
Proof.
  assert (Hinit : updates σ
            match phoneToOrderIds σ !! normalizePhone ph with
            | Some _ => σ
            | None =>
                set_phoneToOrderIds
                  (<[normalizePhone ph := []]> (phoneToOrderIds σ)) σ
            end).
  { destruct (phoneToOrderIds σ !! normalizePhone ph) eqn:Hp;
      [apply updates_none | apply updates_one, update_new_list, Hp]. }
  unfold post_root_unguarded. destruct u; cbn [state escaped]; try exact Hinit.
  apply (updates_trans σ (arrive (now e) (normalizePhone ph) σ));
    [apply updates_arrive|].
  set (σ1 := arrive _ _ σ). set (id := new_orderId (random e)).
  set (s0 := {| Session.orderId := Some id; Session.phone := _;
                Session.customer := None; Session.step := Some 4;
                Session.catalogId := None;
                Session.productItems := _; Session.amount := _;
                Session.cod_error := None; Session.payment_mode := None;
                Session.shipping_charge := None;
                Session.payment_status := None |}).
  eapply updates_more; [apply (update_session σ1 id s0); now left|].
  eapply updates_more.
  { apply (update_push _ (normalizePhone ph) id s0);
      [apply new_orderId_format | apply lookup_insert_eq | reflexivity]. }
  apply updates_one.
  apply (update_session _ id (Session.set_amount (Session.amount_or_0 s0) s0)).
  now left.
Qed.

Lemma updates_fire t h σ : updates σ (fst (fire t h σ)).
Proof.
  unfold fire. destruct (List.find _ _) as [x|]; [|apply updates_none].
  destruct (due x <=? t); [|apply updates_none].
  destruct (bool_decide _) eqn:Hc; cbn [fst].
  - apply updates_one, update_timers.
  - eapply updates_more; [apply update_timers|].
    apply updates_one, update_reminding.
Qed.

Lemma updates_reminder_sent phone σ : updates σ (reminder_sent phone σ).
Proof.
  unfold reminder_sent. destruct (existsb _ _); [|apply updates_none].
  apply (updates_more _ (set_reminding (remove_first phone (reminding σ)) σ));
    [apply update_reminding|].
  apply updates_one.
  exact (update_reminded (set_reminding (remove_first phone (reminding σ)) σ) phone).
Qed.

Lemma updates_step σ σ' : step σ σ' -> updates σ σ'.
Proof.
  intros [σ0|σ0 e m|σ0 e w|σ0 e ph u|σ0 t h|σ0 phone].
  - apply updates_one, update_intents.
  - apply updates_post_root.
  - apply updates_payments.
  - apply updates_unguarded.
  - apply updates_fire.
  - apply updates_reminder_sent.
Qed.

(** *** The store of sessions and order ids *)

Lemma store_ok_update σ σ' : update σ σ' -> store_ok σ -> store_ok σ'.
Proof.
  intros Hu Hok.
  destruct Hu as [σ k s Hs|σ p id s Hf Hl Hid|σ p Hp|σ m p n|σ p|σ p|σ|σ l|σ m];
    try exact Hok.
  - intros phone ids id Hids Hin.
    destruct (Hok phone ids id Hids Hin) as (Hf & s0 & Hs0 & Hid). split; [exact Hf|].
    cbn [put_session set_orderSessions orderSessions].
    destruct (decide (id = k)) as [->|Hne].
    + exists s. rewrite lookup_insert_eq. split; [reflexivity|].
      destruct Hs as [Hs|Hs]; [exact Hs|]. rewrite Hs, Hs0. exact Hid.
    + exists s0. now rewrite lookup_insert_ne by congruence.
  - intros phone ids id' Hids Hin.
    cbn [set_phoneToOrderIds phoneToOrderIds orderSessions] in *.
    destruct (decide (phone = p)) as [->|Hne].
    + rewrite lookup_insert_eq in Hids. inversion Hids; subst ids; clear Hids.
      apply in_app_or in Hin as [Hin|[<-|[]]].
      * destruct (phoneToOrderIds σ !! p) as [old|] eqn:Hold; [|destruct Hin].
        exact (Hok p old id' Hold Hin).
      * split; [exact Hf|]. now exists s.
    + rewrite lookup_insert_ne in Hids by congruence. exact (Hok phone ids id' Hids Hin).
  - intros phone ids id Hids Hin.
    cbn [set_phoneToOrderIds phoneToOrderIds orderSessions] in *.
    destruct (decide (phone = p)) as [->|Hne].
    + rewrite lookup_insert_eq in Hids. inversion Hids; subst ids. destruct Hin.
    + rewrite lookup_insert_ne in Hids by congruence. exact (Hok phone ids id Hids Hin).
Qed.

Lemma store_ok_updates σ σ' : updates σ σ' -> store_ok σ -> store_ok σ'.
Proof.
  induction 1 as [|σ σ1 σ2 Hu _ IH]; [auto|].
  intros Hok. apply IH. exact (store_ok_update σ σ1 Hu Hok).
Qed.

Lemma grows_refl σ : grows σ σ.
Proof.
  split; [auto|]. split; [|auto].
  intros phone ids H. exists []. now rewrite app_nil_r.
Qed.

Lemma grows_trans σ1 σ2 σ3 : grows σ1 σ2 -> grows σ2 σ3 -> grows σ1 σ3.
Proof.
  intros (Ha & Hb & Hc) (Ha' & Hb' & Hc'). split; [auto|]. split; [|auto].
  intros phone ids H. destruct (Hb phone ids H) as [more Hm].
  destruct (Hb' phone _ Hm) as [more' Hm']. exists (more ++ more')%list.
  now rewrite app_assoc.
Qed.

Lemma grows_update σ σ' : update σ σ' -> grows σ σ'.
Proof.
  intros Hu.
  destruct Hu as [σ k s Hs|σ p id s Hf Hl Hid|σ p Hp|σ m p n|σ p|σ p|σ|σ l|σ m].
  - split; [|split; [|auto]].
    + intros k' Hk'. cbn [put_session set_orderSessions orderSessions].
      destruct (decide (k' = k)) as [->|Hne].
      * rewrite lookup_insert_eq. now exists s.
      * now rewrite lookup_insert_ne by congruence.
    + intros phone ids H. exists []. now rewrite app_nil_r.
  - split; [auto|]. split; [|auto].
    intros phone ids H. cbn [set_phoneToOrderIds phoneToOrderIds].
    destruct (decide (phone = p)) as [->|Hne].
    + rewrite lookup_insert_eq, H. now exists [id].
    + rewrite lookup_insert_ne by congruence. exists []. now rewrite app_nil_r.
  - split; [auto|]. split; [|auto].
    intros phone ids H. cbn [set_phoneToOrderIds phoneToOrderIds].
    destruct (decide (phone = p)) as [->|Hne]; [congruence|].
    rewrite lookup_insert_ne by congruence. exists []. now rewrite app_nil_r.
  - split; [auto|]. split; [|auto].
    intros phone ids H. exists []. now rewrite app_nil_r.
  - split; [auto|]. split; [|].
    + intros phone ids H. exists []. now rewrite app_nil_r.
    + intros phone H. cbn [set_users completedUsers]. set_solver.
  - split; [auto|]. split; [|auto].
    intros phone ids H. exists []. now rewrite app_nil_r.
  - split; [auto|]. split; [|auto].
    intros phone ids H. exists []. now rewrite app_nil_r.
  - split; [auto|]. split; [|auto].
    intros phone ids H. exists []. now rewrite app_nil_r.
  - split; [auto|]. split; [|auto].
    intros phone ids H. exists []. now rewrite app_nil_r.
Qed.

Lemma grows_updates σ σ' : updates σ σ' -> grows σ σ'.
Proof.
  induction 1 as [|σ σ1 σ2 Hu _ IH]; [apply grows_refl|].
  eapply grows_trans; [apply grows_update; exact Hu | exact IH].
Qed.

Lemma reachable_after_submission :
  reachable (state (post_root after_order sample_env
                      (submission (Some sample_phone) sample_customer))).
Proof.
  eapply reachable_step; [|apply step_message].
  eapply reachable_step; [|apply step_message].
  apply reachable_populated.
Qed.

(** X14.  Every order id recorded for a phone, in any state the program reaches,
    is [OUO-] and five digits and is the key of a stored session that carries
    this id. *)
Theorem recorded_orders_are_stored (σ : State) :
  reachable σ -> store_ok σ.
Proof.
  induction 1 as [|σ σ' _ IH Hstep].
  - intros phone ids id H. cbn in H. now rewrite lookup_empty in H.
  - exact (store_ok_updates σ σ' (updates_step σ σ' Hstep) IH).
Qed.

Lemma recorded_orders_are_stored_witness :
  let σ := state (post_root after_order sample_env
                    (submission (Some sample_phone) sample_customer)) in
  phoneToOrderIds σ !! sample_phone = Some ["OUO-12345"]
  /\ store_ok σ.
Proof.
  split; [vm_compute; reflexivity|].
  apply (recorded_orders_are_stored _ reachable_after_submission).
Defined.

(** X16.  A step of the program forgets nothing: the stored sessions stay stored,
    the order ids of a phone are only added to, at the end of its list, and a
    completed phone stays completed. *)
Theorem step_forgets_nothing (σ σ' : State) :
  step σ σ' -> grows σ σ'.
Proof. intros H. apply grows_updates, updates_step, H. Qed.

Lemma step_forgets_nothing_witness :
  grows after_order
    (state (post_root after_order sample_env
              (submission (Some sample_phone) sample_customer))).
Proof. apply step_forgets_nothing, step_message. Defined.

(** ** The reminder and the contact details *)

Lemma dispatch_reminder σ ph c :
  dispatch σ ph c = reminder_followup ->
  ph ∈ remindedUsers σ /\ ph ∉ completedUsers σ.
Proof.
  unfold dispatch. cbv zeta.
  repeat match goal with
         | |- (if ?b then _ else _) = _ -> _ => destruct b; [discriminate|]
         | |- match ?o with Some _ => _ | None => _ end = _ -> _ =>
             destruct o; [discriminate|]
         end.
  destruct (bool_decide (ph ∈ remindedUsers σ)) eqn:Hr; [|discriminate].
  destruct (bool_decide (ph ∈ completedUsers σ)) eqn:Hc; [discriminate|].
  intros _. split.
  - now apply bool_decide_eq_true_1 in Hr.
  - now apply bool_decide_eq_false_1 in Hc.
Qed.

Lemma remindedUsers_arrive t phone σ :
  remindedUsers (arrive t phone σ) = remindedUsers σ.
Proof.
  unfold arrive, rearm.
  destruct (phoneToOrderIds σ !! phone); now destruct (bool_decide _).
Qed.

Lemma users_flow σ e phone cd :
  remindedUsers (state (flow_submission σ e phone cd)) = remindedUsers σ
  /\ completedUsers (state (flow_submission σ e phone cd)) = completedUsers σ.
Proof.
  unfold flow_submission. destruct (bool_decide _); [now split|].
  destruct (is_cod _).
  - unfold cod_branch.
    destruct (created e) as [[|success]|]; try destruct (success && _); now split.
  - unfold prepaid_branch.
    destruct (order_details e _ _) as [[s es] ok]. now destruct ok.
Qed.

Lemma users_run_case σ e phone c k :
  k <> reminder_followup ->
  remindedUsers (reply_state (run_case σ e phone c k)) = remindedUsers σ
  /\ completedUsers (reply_state (run_case σ e phone c k)) = completedUsers σ.
Proof.
  intros Hk. unfold run_case. destruct k; try (now split); try congruence.
  destruct (intents _) as [[|x l]|]; now split.
Qed.

Lemma rearm_completed t phone σ :
  phone ∈ completedUsers σ -> rearm t phone σ = σ.
Proof.
  intros H. unfold rearm. now rewrite (bool_decide_eq_true_2 _ H).
Qed.

Lemma fire_completed t h σ phone :
  phone ∈ completedUsers σ -> reminders_to phone (snd (fire t h σ)) = 0%nat.
Proof.
  intros H. unfold fire.
  destruct (List.find _ _) as [x|]; [|reflexivity].
  destruct (due x <=? t); [|reflexivity].
  destruct (bool_decide _) eqn:Hc; [reflexivity|].
  apply bool_decide_eq_false_1 in Hc. cbn [snd reminders_to].
  destruct (String.eqb_spec (timer_phone x) phone) as [Heq|_]; [|reflexivity].
  now subst phone.
Qed.

Lemma completed_stays σ σ' phone :
  rtc step σ σ' -> phone ∈ completedUsers σ -> phone ∈ completedUsers σ'.
Proof.
  induction 1 as [|σ σ1 σ2 Hstep _ IH]; [auto|].
  intros H. apply IH.
  now apply (grows_updates σ σ1 (updates_step σ σ1 Hstep)).
Qed.

Lemma fire_all_completed schedule σ phone :
  phone ∈ completedUsers σ ->
  reminders_to phone (snd (fire_all schedule σ)) = 0%nat.
Proof.
  revert σ. induction schedule as [|[t h] rest IH]; intros σ H; [reflexivity|].
  cbn [fire_all].
  destruct (fire t h σ) as [σ1 es1] eqn:Hf.
  destruct (fire_all rest σ1) as [σ2 es2] eqn:Hr. cbn [snd].
  rewrite reminders_to_app.
  assert (H1 : reminders_to phone es1 = 0%nat)
    by (change es1 with (snd (σ1, es1)); rewrite <- Hf; now apply fire_completed).
  assert (Hc : phone ∈ completedUsers σ1).
  { change σ1 with (fst (σ1, es1)). rewrite <- Hf.
    apply (completed_stays σ); [|exact H].
    apply rtc_once, step_timer. }
  specialize (IH σ1 Hc). rewrite Hr in IH. cbn [snd] in IH. lia.
Qed.

(** X17.  Once a phone is completed it gets no reminder any more: whatever steps
    the program takes afterwards and whichever timer callbacks then run, none
    of them sends the reminder to this phone. *)
Theorem completed_phone_gets_no_reminder (σ σ' : State) (phone : string)
  (schedule : list (Z * nat)) :
  phone ∈ completedUsers σ ->
  rtc step σ σ' ->
  reminders_to phone (snd (fire_all schedule σ')) = 0%nat.
Proof.
  intros H Hsteps. apply fire_all_completed. exact (completed_stays σ σ' phone Hsteps H).
Qed.

(** X18.  A message of a completed phone arms no timer, and it leaves the timers
    and the two sets of phones as they are. *)
Theorem completed_phone_arms_no_timer (σ : State) (e : Env)
  (ph : option string) (c : Content) :
  normalizePhone ph ∈ completedUsers σ ->
  let r := post_root σ e (message ph c) in
  timer_part (state r) = timer_part σ
  /\ remindedUsers (state r) = remindedUsers σ
  /\ completedUsers (state r) = completedUsers σ.
Proof.
  intros H r. split.
  - unfold r. rewrite timer_part_post_root. now rewrite rearm_completed.
  - unfold r, post_root, message. cbn [from content].
    set (σ1 := arrive (now e) (normalizePhone ph) σ).
    assert (H1 : remindedUsers σ1 = remindedUsers σ) by apply remindedUsers_arrive.
    assert (H2 : completedUsers σ1 = completedUsers σ) by apply completedUsers_arrive.
    assert (Hk : dispatch σ1 (normalizePhone ph) c <> reminder_followup).
    { intros Hd. apply dispatch_reminder in Hd as [_ Hd]. apply Hd. now rewrite H2. }
    rewrite <- H1, <- H2.
    destruct c as [b|[t|t|cd|]|o|t|];
      try (cbn [state acked]; apply users_run_case; exact Hk).
    apply users_flow.
Qed.

Lemma completed_phone_gets_no_reminder_witness :
  reminders_to sample_phone
    (snd (fire_all [(5000000, 1%nat); (5000000, 2%nat)]
            (state (post_root completed_state (at_time 3000000 sample_env)
                      (message (Some sample_phone) (text (Some "hi")))))))
  = 0%nat.
Proof.
  apply (completed_phone_gets_no_reminder completed_state).
  - apply (bool_decide_eq_true_1 (sample_phone ∈ completedUsers completed_state)).
    vm_compute. reflexivity.
  - apply rtc_once, step_message.
Defined.

Lemma completed_phone_arms_no_timer_witness :
  timer_part (state (post_root completed_state (at_time 3000000 sample_env)
                       (message (Some sample_phone) (text (Some "hi")))))
  = timer_part completed_state.
Proof.
  refine (proj1 (completed_phone_arms_no_timer completed_state
                   (at_time 3000000 sample_env) (Some sample_phone)
                   (text (Some "hi")) _)).
  apply (bool_decide_eq_true_1 (sample_phone ∈ completedUsers completed_state)).
  vm_compute. reflexivity.
Defined.

Lemma dispatch_arrive t phone σ ph c :
  dispatch (arrive t phone σ) ph c = dispatch σ ph c.
Proof.
  unfold dispatch.
  now rewrite intentBasedQA_arrive, remindedUsers_arrive, completedUsers_arrive.
Qed.

Lemma post_root_normal σ e ph c :
  is_submission c = false ->
  post_root σ e (message ph c)
  = let σ1 := arrive (now e) (normalizePhone ph) σ in
    let r := run_case σ1 e (normalizePhone ph) c
               (dispatch σ (normalizePhone ph) c) in
    acked (reply_state r) (reply_effects r ++ send_reply (normalizePhone ph) r).
Proof.
  intros Hc. unfold post_root, message. cbn [from content]. cbv zeta.
  destruct c as [b|[t|t|cd|]|o|t|]; try discriminate Hc;
    now rewrite dispatch_arrive.
Qed.

(** X19.  When the chain selects the reminder branch for a text of ASCII
    characters, the phone is completed exactly when the text holds an address
    and at least two words: then the phone leaves the reminded set, and a row
    with the name, the address and the phone is appended to the customer
    sheet, the name being what stands before the address without the
    connectors and with its words capitalised; the user is told so when the
    row was appended.  Otherwise the sets stay as they are and the only thing
    sent is an empty text.  The stored sessions are untouched in both
    cases. *)
Theorem contact_details_complete_the_phone (σ : State) (e : Env)
  (ph : option string) (body : string) :
  let from := normalizePhone ph in
  let c := text (Some body) in
  Str.is_ascii body = true ->
  dispatch σ from c = reminder_followup ->
  let r := post_root σ e (message ph c) in
  let given :=
    bool_decide (is_Some (Email.match_ (msgBody_of c)))
    && Nat.leb 2 (Email.words_length (msgBody_of c)) in
  orderSessions (state r) = orderSessions σ
  /\ (given = true ->
      from ∈ completedUsers (state r) /\ (from ∉ remindedUsers (state r))
      /\ exists email,
           Email.match_ (msgBody_of c) = Some email
           /\ let name := Email.contact_name (msgBody_of c) email in
              effects r
              = (appendCustomerToSheet name email from
                 :: (if customer_sheet_appended e
                     then [sendWhatsAppText from (saved_details name)]
                     else [])
                 ++ [sendWhatsAppText from (reply "")])%list)
  /\ (given = false ->
      remindedUsers (state r) = remindedUsers σ
      /\ completedUsers (state r) = completedUsers σ
      /\ effects r = [sendWhatsAppText from (reply "")]).
Proof.
  intros from c _ Hd r given. unfold r, given.
  rewrite (post_root_normal σ e ph c eq_refl). cbv zeta. fold from. rewrite Hd.
  unfold run_case.
  destruct (Email.match_ (msgBody_of c)) as [email|] eqn:Hm.
  - assert (Hb : bool_decide (is_Some (Some email)) = true)
      by (apply bool_decide_eq_true_2; eauto).
    rewrite Hb. cbn [andb].
    destruct (Nat.leb 2 _).
    + split; [|split; [|discriminate]].
      * destruct (customer_sheet_appended e); cbn; apply orderSessions_arrive.
      * intros _.
        assert (Hc : from ∈ {[ from ]} ∪ completedUsers (arrive (now e) from σ))
          by set_solver.
        assert (Hr : from ∉ remindedUsers (arrive (now e) from σ) ∖ {[ from ]})
          by set_solver.
        destruct (customer_sheet_appended e);
          cbn [reply_state plain state acked set_users completedUsers remindedUsers
               reply_effects effects];
          (split; [exact Hc|]; split; [exact Hr|]);
          exists email; (split; [reflexivity|]); reflexivity.
    + split; [|split; [discriminate|]].
      * cbn. apply orderSessions_arrive.
      * intros _. cbn [reply_state plain state acked].
        rewrite remindedUsers_arrive, completedUsers_arrive. repeat split.
  - assert (Hb : bool_decide (is_Some (@None string)) = false)
      by (apply bool_decide_eq_false_2; intros [x Hx]; discriminate).
    rewrite Hb. cbn [andb]. split; [|split; [discriminate|]].
    + cbn. apply orderSessions_arrive.
    + intros _. cbn [reply_state plain state acked].
      rewrite remindedUsers_arrive, completedUsers_arrive. repeat split.
Qed.

Lemma contact_details_complete_the_phone_witness :
  sample_phone ∈ completedUsers completed_state
  /\ Email.contact_name "asha asha@example.com" "asha@example.com" = "Asha".
Proof.
  split; [|vm_compute; reflexivity].
  refine (proj1 (proj1 (proj2 (contact_details_complete_the_phone reminded_state
                                 (at_time 2000000 sample_env) (Some sample_phone)
                                 "Asha asha@example.com" _ _)) _));
    vm_compute; reflexivity.
Defined.

(** ** The reminder that is overtaken by the answer *)

Lemma reminding_arrive t phone σ : reminding (arrive t phone σ) = reminding σ.
Proof.
  unfold arrive, rearm.
  destruct (phoneToOrderIds σ !! phone); now destruct (bool_decide _).
Qed.

Lemma existsb_last phone l : existsb (String.eqb phone) (l ++ [phone]) = true.
Proof.
  rewrite existsb_app. cbn [existsb]. rewrite String.eqb_refl.
  now rewrite orb_true_r.
Qed.

(** X15.  [remindedUsers] and [completedUsers] do not stay apart.  The
    callback of a timer tests [completedUsers] and starts to send the
    reminder; it adds the phone to [remindedUsers] only when the send has come
    back.  When a phone that was reminded before sends its name and address
    in between, the answer completes the phone and takes it out of
    [remindedUsers], and the callback then puts it back: the phone ends in
    both sets, in a state the program reaches. *)
Theorem reminder_overtaken_by_the_answer (σ : State) (e : Env)
  (ph : option string) (body : string) (x : Timer) (t : Z) :
  let phone := normalizePhone ph in
  let c := text (Some body) in
  Str.is_ascii body = true ->
  reachable σ ->
  In x (pending σ) -> timer_phone x = phone -> due x <= t ->
  dispatch σ phone c = reminder_followup ->
  bool_decide (is_Some (Email.match_ (msgBody_of c)))
  && Nat.leb 2 (Email.words_length (msgBody_of c)) = true ->
  let σ1 := fst (fire t (handle x) σ) in
  let σ2 := state (post_root σ1 e (message ph c)) in
  let σ3 := reminder_sent phone σ2 in
  snd (fire t (handle x) σ) = [ sendWhatsAppText phone reminder ]
  /\ phone ∈ completedUsers σ2
  /\ (phone ∉ remindedUsers σ2)
  /\ phone ∈ remindedUsers σ3
  /\ phone ∈ completedUsers σ3
  /\ reachable σ3.
Proof.
  intros phone c _ Hreach Hin Hphone Hdue Hd Hgiven σ1 σ2 σ3.
  pose proof (reachable_timers_ok σ Hreach) as Hok.
  destruct (dispatch_reminder σ phone c Hd) as [Hrem Hnot].
  assert (Hfire : fire t (handle x) σ
                  = (set_reminding (reminding σ ++ [phone])
                       (set_timers (idleTimers σ)
                          (clearTimeout (handle x) (pending σ)) (next_handle σ) σ),
                     [ sendWhatsAppText phone reminder ])).
  { unfold fire. destruct Hok as [Hnodup _].
    rewrite (find_handle _ _ Hnodup Hin), (proj2 (Z.leb_le _ _) Hdue), Hphone.
    now rewrite bool_decide_eq_false_2 by exact Hnot. }
  assert (Hd1 : dispatch σ1 phone c = reminder_followup).
  { unfold σ1. rewrite Hfire. cbn [fst]. exact Hd. }
  assert (Hr1 : remindedUsers σ1 = remindedUsers σ)
    by (unfold σ1; now rewrite Hfire).
  assert (Hc1 : completedUsers σ1 = completedUsers σ)
    by (unfold σ1; now rewrite Hfire).
  assert (H2 : σ2 = set_users (remindedUsers σ ∖ {[ phone ]})
                      ({[ phone ]} ∪ completedUsers σ)
                      (arrive (now e) phone σ1)
               \/ False).
  { left. unfold σ2. rewrite (post_root_normal σ1 e ph c eq_refl). cbv zeta.
    fold phone. rewrite Hd1. unfold run_case.
    destruct (Email.match_ (msgBody_of c)) as [email|].
    - assert (Hb : bool_decide (is_Some (Some email)) = true)
        by (apply bool_decide_eq_true_2; eauto).
      rewrite Hb in Hgiven. cbn [andb] in Hgiven. rewrite Hgiven.
      rewrite remindedUsers_arrive, completedUsers_arrive, Hr1, Hc1.
      now destruct (customer_sheet_appended e).
    - assert (Hb : bool_decide (is_Some (@None string)) = false)
        by (apply bool_decide_eq_false_2; intros [y Hy]; discriminate).
      rewrite Hb in Hgiven. discriminate Hgiven. }
  destruct H2 as [H2|[]].
  assert (Hrem2 : reminding σ2 = (reminding σ ++ [phone])%list).
  { rewrite H2. cbn [reminding set_users]. rewrite reminding_arrive.
    unfold σ1. rewrite Hfire. reflexivity. }
  assert (H3 : σ3 = set_users ({[ phone ]} ∪ remindedUsers σ2) (completedUsers σ2)
                      (set_reminding (remove_first phone (reminding σ2)) σ2)).
  { unfold σ3, reminder_sent. now rewrite Hrem2, existsb_last. }
  assert (Hc2 : phone ∈ completedUsers σ2)
    by (rewrite H2; cbn [completedUsers set_users]; set_solver).
  split; [now rewrite Hfire|]. split; [exact Hc2|]. split.
  { rewrite H2. cbn [remindedUsers set_users]. set_solver. }
  split; [rewrite H3; cbn [remindedUsers set_users]; set_solver|].
  split; [rewrite H3; cbn [completedUsers set_users]; exact Hc2|].
  apply (reachable_step σ2); [|apply step_reminded].
  apply (reachable_step σ1); [|apply step_message].
  apply (reachable_step σ); [exact Hreach | apply step_timer].
Qed.

Lemma reachable_greeted_again : reachable greeted_again_state.
Proof.
  apply (reachable_step reminded_state); [|apply step_message].
  eapply reachable_step; [|apply step_reminded].
  eapply reachable_step; [|apply step_timer].
  eapply reachable_step; [|apply step_message].
  apply reachable_populated.
Qed.

Lemma reminder_overtaken_by_the_answer_witness :
  let σ1 := fst (fire (2000000 + idle_delay) 1 greeted_again_state) in
  let σ2 := state (post_root σ1 (at_time 4000000 sample_env)
                     (message (Some sample_phone) contact_details)) in
  let σ3 := reminder_sent sample_phone σ2 in
  sample_phone ∈ remindedUsers σ3 /\ sample_phone ∈ completedUsers σ3.
Proof.
  intros σ1 σ2 σ3.
  destruct (reminder_overtaken_by_the_answer greeted_again_state
              (at_time 4000000 sample_env) (Some sample_phone)
              "Asha asha@example.com"
              {| handle := 1; timer_phone := sample_phone;
                 due := 2000000 + idle_delay |}
              (2000000 + idle_delay))
    as (_ & _ & _ & H3 & H4 & _).
  - reflexivity.
  - exact reachable_greeted_again.
  - vm_compute. left. reflexivity.
  - reflexivity.
  - vm_compute. discriminate.
  - vm_compute. reflexivity.
  - vm_compute. reflexivity.
  - split; [exact H3 | exact H4].
Defined.

(** ** The helpers of the dispatcher *)

Lemma digits_only_digits s :
  Forall (fun c => Str.is_digit c = true)
    (list_ascii_of_string (Str.digits_only s)).
Proof.
  induction s as [|c s IH]; cbn [Str.digits_only list_ascii_of_string].
  - constructor.
  - destruct (Str.is_digit c) eqn:Hc; [|exact IH].
    cbn [list_ascii_of_string]. now constructor.
Qed.

Lemma digits_only_fixed s :
  Forall (fun c => Str.is_digit c = true) (list_ascii_of_string s) ->
  Str.digits_only s = s.
Proof.
  induction s as [|c s IH]; [reflexivity|].
  cbn [list_ascii_of_string Str.digits_only]. intros H.
  apply Forall_cons in H as [Hc Hs]. rewrite Hc. now rewrite IH.
Qed.

(** X20.  [normalizePhone] keeps the digits only, so normalizing twice changes
    nothing, and the message handler treats a sender and the normalized sender
    alike: the spelling of the number makes no difference to the state, the
    effects and the response. *)
Theorem normalizePhone_spelling (ph : option string) :
  Forall (fun c => Str.is_digit c = true)
    (list_ascii_of_string (normalizePhone ph))
  /\ normalizePhone (Some (normalizePhone ph)) = normalizePhone ph
  /\ forall σ e c,
       post_root σ e (message (Some (normalizePhone ph)) c)
       = post_root σ e (message ph c).
Proof.
  assert (Hd := digits_only_digits (default "" ph)).
  assert (Hi : normalizePhone (Some (normalizePhone ph)) = normalizePhone ph)
    by (unfold normalizePhone at 1; cbn [from_option id];
        now apply digits_only_fixed).
  split; [exact Hd|]. split; [exact Hi|].
  intros σ e c. unfold post_root, message. cbn [from content]. now rewrite Hi.
Qed.

Lemma take_digits_spec n l ds rest :
  Awb.take_digits n l = Some (ds, rest) ->
  List.length ds = n
  /\ Forall (fun c => Str.is_digit c = true) ds
  /\ l = (ds ++ rest)%list.
Proof.
  revert l ds rest. induction n as [|n IH]; intros l ds rest; cbn [Awb.take_digits].
  - intros H. inversion H. subst. repeat split. constructor.
  - destruct l as [|c l]; [discriminate|].
    destruct (Str.is_digit c) eqn:Hc; [|discriminate].
    destruct (Awb.take_digits n l) as [[ds' rest']|] eqn:Ht; [|discriminate].
    intros H. inversion H. subst. destruct (IH l ds' rest Ht) as (Hl & Hf & ->).
    cbn [List.length app]. split; [now rewrite Hl|]. split; [now constructor | reflexivity].
Qed.

Lemma awb_scan_spec p l ds :
  Awb.scan p l = Some ds ->
  List.length ds = 14%nat
  /\ Forall (fun c => Str.is_digit c = true) ds
  /\ exists pre post, l = (pre ++ ds ++ post)%list.
Proof.
  revert p. induction l as [|c l IH]; intros p.
  - cbn [Awb.scan]. unfold Awb.at_here. destruct p; discriminate.
  - cbn [Awb.scan]. destruct (Awb.at_here p (c :: l)) as [ds'|] eqn:Ha.
    + intros H. inversion H. subst ds'. unfold Awb.at_here in Ha.
      destruct p; [discriminate|].
      destruct (Awb.take_digits 14 (c :: l)) as [[ds' rest]|] eqn:Ht; [|discriminate].
      destruct (take_digits_spec 14 (c :: l) ds' rest Ht) as (Hl & Hf & Heq).
      assert (ds' = ds)
        by (destruct rest as [|x rest];
            [|destruct (Str.is_word x); [discriminate|]]; now inversion Ha).
      subst ds'. split; [exact Hl|]. split; [exact Hf|].
      exists [], rest. exact Heq.
    + intros H. destruct (IH _ H) as (Hl & Hf & pre & post & ->).
      split; [exact Hl|]. split; [exact Hf|]. now exists (c :: pre), post.
Qed.

Lemma prefix_app ds post :
  String.prefix (string_of_list_ascii ds) (string_of_list_ascii (ds ++ post))
  = true.
Proof.
  induction ds as [|c ds IH]; cbn [app string_of_list_ascii String.prefix].
  - now destruct (string_of_list_ascii post).
  - destruct (ascii_dec c c); [exact IH | congruence].
Qed.

Lemma includes_app pre ds post :
  Str.includes (string_of_list_ascii (pre ++ ds ++ post))
    (string_of_list_ascii ds) = true.
Proof.
  induction pre as [|c pre IH]; cbn [app].
  - destruct (ds ++ post)%list eqn:Hl; cbn [string_of_list_ascii Str.includes];
      rewrite <- ?Hl.
    + change EmptyString with (string_of_list_ascii []). rewrite <- Hl.
      now rewrite prefix_app.
    + change (String a (string_of_list_ascii l))
        with (string_of_list_ascii (a :: l)).
      rewrite <- Hl. now rewrite prefix_app.
  - cbn [string_of_list_ascii Str.includes]. rewrite IH. apply orb_true_r.
Qed.

Lemma dispatch_awb σ ph c awb :
  dispatch σ ph c = awb_tracking awb ->
  findIntentBasedResponse (intentBasedQA σ) (msgBody_of c) = None
  /\ Awb.match_ (msgBody_of c) = Some awb.
Proof.
  unfold dispatch. cbv zeta.
  destruct (String.eqb _ "main menu"); [discriminate|].
  destruct (String.eqb _ "Main Menu"); [discriminate|].
  destruct (findIntentBasedResponse _ _); [discriminate|].
  destruct (Awb.match_ _) as [a|]; [intros H; now inversion H|].
  repeat match goal with
         | |- (if ?b then _ else _) = _ -> _ => destruct b; [discriminate|]
         end.
  discriminate.
Qed.

(** X21.  The tracking link is sent only for a number of fourteen digits that
    stands in the message, and only when the intent table has no answer:
    when the chain selects the tracking branch, the handler sends the link for
    this number, then an empty text, and nothing else. *)
Theorem tracking_link_number (σ : State) (e : Env) (ph : option string)
  (c : Content) (awb : string) :
  is_submission c = false ->
  dispatch σ (normalizePhone ph) c = awb_tracking awb ->
  String.length awb = 14%nat
  /\ Forall (fun x => Str.is_digit x = true) (list_ascii_of_string awb)
  /\ Str.includes (msgBody_of c) awb = true
  /\ findIntentBasedResponse (intentBasedQA σ) (msgBody_of c) = None
  /\ effects (post_root σ e (message ph c))
     = [ sendWhatsAppTrackingCTA (normalizePhone ph) awb;
         sendWhatsAppText (normalizePhone ph) (reply "") ].
Proof.
  intros Hc Hd. destruct (dispatch_awb _ _ _ _ Hd) as [Hnone Hm].
  unfold Awb.match_ in Hm.
  destruct (Awb.scan false _) as [ds|] eqn:Hs; [|discriminate].
  cbn in Hm. inversion Hm; subst awb; clear Hm.
  destruct (awb_scan_spec _ _ _ Hs) as (Hl & Hf & pre & post & Heq).
  split; [|split; [|split; [|split; [exact Hnone|]]]].
  - rewrite <- Hl. clear. induction ds as [|x ds IH]; cbn; congruence.
  - now rewrite list_ascii_of_string_of_list_ascii.
  - rewrite <- (string_of_list_ascii_of_string (msgBody_of c)), Heq.
    apply includes_app.
  - rewrite (post_root_normal σ e ph c Hc). cbv zeta. rewrite Hd. reflexivity.
Qed.

Lemma tracking_link_number_witness :
  effects (post_root populated sample_env
             (message (Some sample_phone) (text (Some "12345678901234"))))
  = [ sendWhatsAppTrackingCTA sample_phone "12345678901234";
      sendWhatsAppText sample_phone (reply "") ].
Proof.
  refine (proj2 (proj2 (proj2 (proj2
            (tracking_link_number populated sample_env (Some sample_phone)
               (text (Some "12345678901234")) "12345678901234" _ _)))));
    vm_compute; reflexivity.
Defined.

Lemma includes_empty s : Str.includes s "" = true.
Proof. now destruct s. Qed.

(** X22.  A message without any text (an empty or blank text, a message of a type
    the handler does not read) is answered from the intent table once the
    table is loaded: every key contains the empty string, so the first entry
    of the table is taken. *)
Theorem blank_message_gets_first_intent (σ : State) (ph : string)
  (c : Content) (key : string) (value : Intent)
  (rest : list (string * Intent)) :
  intentBasedQA σ = (key, value) :: rest ->
  intent_get (intentBasedQA σ) "" = None ->
  Str.trim (Str.toLowerCase (msgBody_of c)) = "" ->
  dispatch σ ph c = intent_reply value.
Proof.
  intros Ht Hg Hb. unfold dispatch. cbv zeta.
  destruct (String.eqb_spec (msgBody_of c) "main menu") as [Heq|_];
    [rewrite Heq in Hb; vm_compute in Hb; discriminate|].
  destruct (String.eqb_spec (msgBody_of c) "Main Menu") as [Heq|_];
    [rewrite Heq in Hb; vm_compute in Hb; discriminate|].
  unfold findIntentBasedResponse. cbv zeta. rewrite Hb, Hg, Ht.
  cbn [partial_match]. rewrite includes_empty, orb_true_r. reflexivity.
Qed.

Lemma blank_message_gets_first_intent_witness :
  exists value,
    head parseIntentBasedQA = Some ("buy now", value)
    /\ dispatch populated sample_phone other_type = intent_reply value.
Proof.
  eexists. split; [reflexivity|].
  eapply (blank_message_gets_first_intent populated sample_phone other_type);
    vm_compute; reflexivity.
Defined.

(** X23.  The branches that send their own message leave [replyText] empty, and
    the final step of the handler sends it all the same: the last thing the
    handler sends in these branches is a text with an empty body. *)
Theorem own_message_is_followed_by_an_empty_text (σ : State) (e : Env)
  (ph : option string) (c : Content) :
  is_submission c = false ->
  own_message (dispatch σ (normalizePhone ph) c) = true ->
  exists es,
    effects (post_root σ e (message ph c))
    = (es ++ [sendWhatsAppText (normalizePhone ph) (reply "")])%list.
Proof.
  intros Hc Hk. rewrite (post_root_normal σ e ph c Hc). cbv zeta.
  destruct (dispatch σ (normalizePhone ph) c); try discriminate Hk;
    unfold run_case; cbn [effects acked];
    try (eexists; reflexivity).
  destruct (Email.match_ _); [|eexists; reflexivity].
  destruct (Nat.leb _ _); [|eexists; reflexivity].
  destruct (customer_sheet_appended e); eexists; reflexivity.
Qed.

Lemma own_message_is_followed_by_an_empty_text_witness :
  exists es,
    effects (post_root populated sample_env
               (message (Some sample_phone) (text (Some "have a query"))))
    = (es ++ [sendWhatsAppText sample_phone (reply "")])%list.
Proof.
  apply (own_message_is_followed_by_an_empty_text populated sample_env
           (Some sample_phone) (text (Some "have a query")));
    vm_compute; reflexivity.
Defined.

(** ** The weight of a cash-on-delivery order *)

Lemma is_nan_SF x : Prim2SF x = S754_nan -> x = nan.
Proof.
  intros H. rewrite <- (SF2Prim_Prim2SF x), H. reflexivity.
Qed.

Lemma fadd_nan_l y : fadd nan y = nan.
Proof.
  apply is_nan_SF. unfold fadd. rewrite add_spec.
  change (Prim2SF nan) with S754_nan. reflexivity.
Qed.

Lemma fadd_nan_r x : fadd x nan = nan.
Proof.
  apply is_nan_SF. unfold fadd. rewrite add_spec.
  change (Prim2SF nan) with S754_nan. now destruct (Prim2SF x).
Qed.

Lemma fmul_nan_l y : fmul nan y = nan.
Proof.
  apply is_nan_SF. unfold fmul. rewrite mul_spec.
  change (Prim2SF nan) with S754_nan. reflexivity.
Qed.

Lemma total_wgt_cod_nan items :
  fold_left
    (fun total_wgt it =>
       fadd total_wgt
         (fmul (default nan (JS.of_Z <$> prop getProductWeight (product_retailer_id it)))
               (JS.of_Z (quantity it))))
    items nan = nan.
Proof.
  induction items as [|it items IH]; [reflexivity|].
  cbn [fold_left]. now rewrite fadd_nan_l.
Qed.

Lemma total_wgt_cod_unknown items it :
  In it items ->
  prop getProductWeight (product_retailer_id it) = None ->
  total_wgt_cod items = nan.
Proof.
  unfold total_wgt_cod. generalize 0%float.
  induction items as [|x items IH]; intros acc Hin Hnone; [destruct Hin|].
  cbn [fold_left]. destruct Hin as [->|Hin].
  - rewrite Hnone. cbn [fmap option_fmap option_map from_option id].
    rewrite fmul_nan_l, fadd_nan_r. apply total_wgt_cod_nan.
  - now apply IH.
Qed.

(** X24.  The weight of a cash-on-delivery order is not a number as soon as one
    product of the selection is missing from the weight table: the rate quote
    and the shipment are then asked for with [NaN] as the weight. *)
Theorem cod_weight_of_an_unknown_product (σ : State) (e : Env)
  (ph : option string) (cd : Customer.t) (selection : Session.t)
  (it : OrderItem) :
  Customer.flow_token cd <> Some "test_101" ->
  is_cod (Customer.payment_mode cd) = true ->
  orderSessions σ !! normalizePhone ph = Some selection ->
  In it (Session.items selection) ->
  prop getProductWeight (product_retailer_id it) = None ->
  In (getDelhiveryCharges (dest_pin_of cd) nan "COD")
     (effects (post_root σ e (submission ph cd)))
  /\ (forall s, In s (shipments (effects (post_root σ e (submission ph cd)))) ->
        Shipment.weight s = Some nan).
Proof.
  intros Htest Hcod Hsel Hin Hnone.
  unfold post_root, submission, message. cbn [from content].
  unfold flow_submission.
  rewrite bool_decide_eq_false_2 by exact Htest. rewrite Hcod. cbv zeta.
  rewrite orderSessions_arrive, Hsel. cbn [mbind option_bind].
  unfold cod_branch. cbv zeta.
  set (s := Session.set_amount _ _).
  assert (Hitems : Session.items s = Session.items selection).
  { unfold s, Session.items, Session.set_amount. cbn [Session.productItems].
    reflexivity. }
  rewrite Hitems, (total_wgt_cod_unknown _ it Hin Hnone).
  split.
  - destruct (created e) as [[|success]|]; try destruct (success && _);
      cbn [effects acked escaped]; apply in_or_app;
      try (left; apply in_or_app; right; now left);
      try (right; now left).
  - intros sh. destruct (created e) as [[|success]|]; try destruct (success && _);
      cbn [effects acked escaped]; rewrite ?shipments_app;
      cbn [shipments app]; intros [<-|[]]; reflexivity.
Qed.

Lemma cod_weight_of_an_unknown_product_witness :
  let item := {| product_retailer_id := "not-in-the-table";
                 item_price := 100%float; quantity := 1 |} in
  let σ := state (post_root populated sample_env (sample_order [item])) in
  In (getDelhiveryCharges "249193" nan "COD")
     (effects (post_root σ sample_env (submission (Some sample_phone) sample_customer))).
Proof.
  intros item σ.
  refine (proj1 (cod_weight_of_an_unknown_product σ sample_env (Some sample_phone)
                   sample_customer
                   {| Session.orderId := None; Session.phone := None;
                      Session.customer := None; Session.step := None;
                      Session.catalogId := Some "1262132998945503";
                      Session.productItems := Some [item];
                      Session.amount := Some 10000%float;
                      Session.cod_error := None; Session.payment_mode := None;
                      Session.shipping_charge := None;
                      Session.payment_status := None |}
                   item _ _ _ _ _)).
  - discriminate.
  - reflexivity.
  - vm_compute. reflexivity.
  - left. reflexivity.
  - reflexivity.
Defined.

(** ** The question the fallback branch asks *)

Lemma askGemini_nonempty key question post :
  Str.nonempty (Gemini.askGemini key question post) = true.
Proof.
  unfold Gemini.askGemini.
  destruct (negb (Str.nonempty question) || negb (Str.nonempty (Str.trim question)));
    [reflexivity|].
  destruct (negb (str_truthy key)); [reflexivity|].
  destruct post as [response|]; [|reflexivity].
  set (answer := str_or _ _).
  assert (Hne : Str.nonempty answer = true)
    by (unfold answer; apply str_or_nonempty, str_or_nonempty; reflexivity).
  rewrite Hne. cbn [negb orb]. now destruct (String.eqb answer _).
Qed.

Lemma in_nonempty c s : In c (list_ascii_of_string s) -> Str.nonempty s = true.
Proof. destruct s; [intros [] | reflexivity]. Qed.

Lemma trimStart_keeps c s :
  Str.is_space c = false ->
  In c (list_ascii_of_string s) ->
  In c (list_ascii_of_string (Str.trimStart s)).
Proof.
  intros Hc. induction s as [|a s IH]; [auto|].
  cbn [Str.trimStart]. destruct (Str.is_space a) eqn:Ha; [|auto].
  cbn [list_ascii_of_string]. intros [->|Hin]; [congruence | auto].
Qed.

Lemma rev_keeps c s :
  In c (list_ascii_of_string s) -> In c (list_ascii_of_string (Str.rev s)).
Proof.
  intros H. unfold Str.rev. rewrite list_ascii_of_string_of_list_ascii.
  now apply in_rev in H.
Qed.

Lemma trim_keeps c s :
  Str.is_space c = false ->
  In c (list_ascii_of_string s) ->
  Str.nonempty (Str.trim s) = true.
Proof.
  intros Hc Hin. apply (in_nonempty c). unfold Str.trim.
  apply rev_keeps, trimStart_keeps, rev_keeps, trimStart_keeps; auto.
Qed.

Lemma focusedPrompt_not_blank msgBody :
  Str.nonempty (Gemini.focusedPrompt msgBody) = true
  /\ Str.nonempty (Str.trim (Gemini.focusedPrompt msgBody)) = true.
Proof.
  assert (Hin : In "A"%char (list_ascii_of_string (Gemini.focusedPrompt msgBody))).
  { unfold Gemini.focusedPrompt, nl, String.append.
    cbn [list_ascii_of_string]. right. left. reflexivity. }
  split; [exact (in_nonempty _ _ Hin)|].
  now apply (trim_keeps "A"%char).
Qed.

(** X25.  The question the fallback branch hands to [askGemini] is never blank,
    whatever the message: the first guard of [askGemini] never answers the
    handler, which gets the "unable" sentence when no key is configured and
    the "trouble" sentence when the post throws.  The answer is never empty,
    so the sentence the handler keeps for an empty answer is never sent. *)
Theorem fallback_question_is_never_blank (key : option string)
  (msgBody : string) (post : Outcome Gemini.Response) :
  let answer := Gemini.askGemini key (Gemini.focusedPrompt msgBody) post in
  (str_truthy key = false -> answer = Gemini.unable)
  /\ (str_truthy key = true -> post = Throws -> answer = Gemini.trouble)
  /\ forall σ e ph c,
       gemini_answer e = answer ->
       replyText (run_case σ e ph c ai_fallback) = answer.
Proof.
  intros answer. destruct (focusedPrompt_not_blank msgBody) as [H1 H2].
  split; [|split].
  - intros Hk. unfold answer, Gemini.askGemini. now rewrite H1, H2, Hk.
  - intros Hk ->. unfold answer, Gemini.askGemini. now rewrite H1, H2, Hk.
  - intros σ e ph c He. unfold run_case. cbn [replyText plain]. rewrite He.
    unfold answer. now rewrite askGemini_nonempty.
Qed.
